(** * Shader manager: effect / technique / program resolution and caching

    A shallow embedding of [CShaderManager] (graphics/ShaderManager.cpp):
    the program and effect caches, the technique selection of [NewEffect],
    the per-pass pipeline state built from the pass markup, the parsing of
    a program description in [NewProgram], and the hotload dependency map.

    Everything that the C++ code reaches through other translation units
    (the XMB reader, the preprocessor, the virtual file system, the GPU
    program object, the backend enumerations) is a parameter of the
    development, or is modelled as said at its definition. *)

From stdpp Require Import gmap strings list fin_maps.
From Stdlib Require Import ZArith Lia.

Local Open Scope string_scope.
Local Open Scope list_scope.
Local Open Scope Z_scope.

(** ** The parsed XML document (XMB) *)

Module XMB.

(** An element of a parsed document: node name, attribute list, children in
    document order. *)
#[warnings="-register-all"]
Inductive XMBElement : Type :=
| MkElement (nodeName : string) (attributes : list (string * string))
            (children : list XMBElement).

Definition GetNodeName (e : XMBElement) : string :=
  match e with MkElement n _ _ => n end.

Definition GetAttributes (e : XMBElement) : list (string * string) :=
  match e with MkElement _ a _ => a end.

Definition GetChildNodes (e : XMBElement) : list XMBElement :=
  match e with MkElement _ _ c => c end.

(** [XMBAttributeList::GetNamedItem] belongs to the XMB reader
    (ps/XML/Xeromyces), which is not part of the sources at hand: it yields
    the value of the first attribute of that name, and the empty string when
    there is none, which is what every [.empty()] test of the callers relies
    on. *)
Fixpoint GetNamedItem (attrs : list (string * string)) (name : string) : string :=
  match attrs with
  | [] => ""
  | (n, v) :: rest => if String.eqb n name then v else GetNamedItem rest name
  end.

(** [CStr::empty]. *)
Definition empty (s : string) : bool :=
  match s with
  | EmptyString => true
  | String _ _ => false
  end.

End XMB.
Export XMB.

(** ** Define sets *)

(** Modelled from the spec: [CShaderDefines] (graphics/ShaderDefines.h is not
    part of the sources at hand).  A define set maps names to values, [Add]
    inserts or overwrites, and two sets are equal when they hold the same
    name/value pairs, whatever the order of insertion. *)
Abbreviation CShaderDefines := (gmap string string).

Definition Add (name value : string) (defines : CShaderDefines) : CShaderDefines :=
  <[name := value]> defines.

(** The loop [defines.Add(name attribute, value attribute)] over the [define]
    children of an element, in document order. *)
Definition AddDefineElement (Child : XMBElement) (defines : CShaderDefines)
  : CShaderDefines :=
  Add (GetNamedItem (GetAttributes Child) "name")
      (GetNamedItem (GetAttributes Child) "value") defines.

(** ** What the manager does to the outside world *)

(** A shader program object is named by the order of its creation; a
    [CShaderProgramPtr] is such a name, or null.  Techniques likewise. *)
Abbreviation CShaderProgramPtr := (option nat).
Abbreviation CShaderTechniquePtr := (option nat).

(** The calls that leave the translation unit, in the order they are made. *)
Inductive Event : Type :=
| EvLoad (xmlFilename : string)        (* XeroFile.Load(g_VFS, xmlFilename) *)
| EvValidateEncoded (name : string)    (* CXeromyces::ValidateEncoded *)
| EvTestConditional (cond : string)    (* preprocessor.TestConditional(cond) *)
| EvGetBackend                         (* g_VideoMode.GetBackend() *)
| EvGetCapabilities                    (* GetBackendDevice()->GetCapabilities() *)
| EvLOGERROR (msg : string)            (* LOGERROR(...) *)
| EvDebugWarn (msg : string)           (* debug_warn(...) *)
| EvReload (program : nat).            (* program->Reload() *)

#[global] Instance Event_eq_dec : EqDecision Event.
Proof. solve_decision. Defined.

(** [CVideoMode::Backend]: the code names [GL] and [GL_ARB]; [DUMMY] stands
    for every other enumerator. *)
Inductive Backend : Type := GL | GL_ARB | DUMMY.

#[global] Instance Backend_eq_dec : EqDecision Backend.
Proof. solve_decision. Defined.

(** The OpenGL texture targets. *)
Definition GL_TEXTURE_1D : Z := 0x0DE0.
Definition GL_TEXTURE_2D : Z := 0x0DE1.
Definition GL_TEXTURE_3D : Z := 0x806F.
Definition GL_TEXTURE_CUBE_MAP : Z := 0x8513.

(** [Status] and [INFO::OK]. *)
Definition INFO_OK : Z := 0.

(** The program object, as the arguments of the factory that made it. *)
Inductive CShaderProgram : Type :=
| ConstructGLSL (vertexFile fragmentFile : string) (defines : CShaderDefines)
                (vertexAttribs : gmap string Z) (streamFlags : Z)
| ConstructARB (vertexFile fragmentFile : string) (defines : CShaderDefines)
               (vertexUniforms : gmap string Z)
               (fragmentUniforms : gmap string (Z * Z)) (streamFlags : Z).

(** ** Cache keys *)

(** [CShaderManager::CacheKey], the key of [m_ProgramCache]. *)
Record CacheKey : Type := MkCacheKey {
  ck_name : string;
  ck_defines : CShaderDefines
}.

(** [CShaderManager::EffectCacheKey], the key of [m_EffectCache]. *)
Record EffectCacheKey : Type := MkEffectCacheKey {
  ek_name : string;
  ek_defines : CShaderDefines
}.

#[global] Instance CacheKey_eq_dec : EqDecision CacheKey.
Proof. solve_decision. Defined.

#[global] Instance EffectCacheKey_eq_dec : EqDecision EffectCacheKey.
Proof. solve_decision. Defined.

#[global] Instance CacheKey_countable : Countable CacheKey.
Proof.
  apply (inj_countable' (λ k, (ck_name k, ck_defines k))
                        (λ p, MkCacheKey p.1 p.2)).
  by intros [].
Defined.

#[global] Instance EffectCacheKey_countable : Countable EffectCacheKey.
Proof.
  apply (inj_countable' (λ k, (ek_name k, ek_defines k))
                        (λ p, MkEffectCacheKey p.1 p.2)).
  by intros [].
Defined.

(** [EffectCacheKey::operator==]. *)
Definition EffectCacheKey_eq (a b : EffectCacheKey) : bool :=
  bool_decide (ek_name a = ek_name b) && bool_decide (ek_defines a = ek_defines b).

(** ** The data of the manager *)

Section Types.

(** The enumerations and the colour type of renderer/backend/PipelineState.h,
    and their parsers, are not part of the sources at hand. *)
Context {BlendFactor BlendOp CullMode FrontFace PolygonMode CompareOp
         StencilOp CColor : Type}.

Record BlendStateDesc : Type := {
  enabled : bool;
  srcColorBlendFactor : BlendFactor;
  dstColorBlendFactor : BlendFactor;
  srcAlphaBlendFactor : BlendFactor;
  dstAlphaBlendFactor : BlendFactor;
  colorBlendOp : BlendOp;
  alphaBlendOp : BlendOp;
  constant : CColor;
  colorWriteMask : Z
}.

Record RasterizationStateDesc : Type := {
  polygonMode : PolygonMode;
  cullMode : CullMode;
  frontFace : FrontFace
}.

Record StencilOpState : Type := {
  compareOp : CompareOp;
  failOp : StencilOp;
  passOp : StencilOp;
  depthFailOp : StencilOp
}.

Record DepthStencilStateDesc : Type := {
  depthTestEnabled : bool;
  depthCompareOp : CompareOp;
  depthWriteEnabled : bool;
  stencilTestEnabled : bool;
  stencilReadMask : Z;
  stencilWriteMask : Z;
  stencilReference : Z;
  stencilFrontFace : StencilOpState;
  stencilBackFace : StencilOpState
}.

Record GraphicsPipelineStateDesc : Type := {
  depthStencilState : DepthStencilStateDesc;
  blendState : BlendStateDesc;
  rasterizationState : RasterizationStateDesc
}.


(** *** Field assignments *)

Definition set_blendState (f : BlendStateDesc → BlendStateDesc)
    (d : GraphicsPipelineStateDesc) : GraphicsPipelineStateDesc :=
  {| depthStencilState := depthStencilState d;
     blendState := f (blendState d);
     rasterizationState := rasterizationState d |}.

Definition set_rasterizationState
    (f : RasterizationStateDesc → RasterizationStateDesc)
    (d : GraphicsPipelineStateDesc) : GraphicsPipelineStateDesc :=
  {| depthStencilState := depthStencilState d;
     blendState := blendState d;
     rasterizationState := f (rasterizationState d) |}.

Definition set_depthStencilState
    (f : DepthStencilStateDesc → DepthStencilStateDesc)
    (d : GraphicsPipelineStateDesc) : GraphicsPipelineStateDesc :=
  {| depthStencilState := f (depthStencilState d);
     blendState := blendState d;
     rasterizationState := rasterizationState d |}.

Definition set_enabled (v : bool) (b : BlendStateDesc) : BlendStateDesc :=
  {| enabled := v;
     srcColorBlendFactor := srcColorBlendFactor b;
     dstColorBlendFactor := dstColorBlendFactor b;
     srcAlphaBlendFactor := srcAlphaBlendFactor b;
     dstAlphaBlendFactor := dstAlphaBlendFactor b;
     colorBlendOp := colorBlendOp b; alphaBlendOp := alphaBlendOp b;
     constant := constant b; colorWriteMask := colorWriteMask b |}.

(** [srcColorBlendFactor = srcAlphaBlendFactor = v]. *)
Definition set_srcBlendFactor (v : BlendFactor) (b : BlendStateDesc)
  : BlendStateDesc :=
  {| enabled := enabled b;
     srcColorBlendFactor := v;
     dstColorBlendFactor := dstColorBlendFactor b;
     srcAlphaBlendFactor := v;
     dstAlphaBlendFactor := dstAlphaBlendFactor b;
     colorBlendOp := colorBlendOp b; alphaBlendOp := alphaBlendOp b;
     constant := constant b; colorWriteMask := colorWriteMask b |}.

(** [dstColorBlendFactor = dstAlphaBlendFactor = v]. *)
Definition set_dstBlendFactor (v : BlendFactor) (b : BlendStateDesc)
  : BlendStateDesc :=
  {| enabled := enabled b;
     srcColorBlendFactor := srcColorBlendFactor b;
     dstColorBlendFactor := v;
     srcAlphaBlendFactor := srcAlphaBlendFactor b;
     dstAlphaBlendFactor := v;
     colorBlendOp := colorBlendOp b; alphaBlendOp := alphaBlendOp b;
     constant := constant b; colorWriteMask := colorWriteMask b |}.

(** [colorBlendOp = alphaBlendOp = v]. *)
Definition set_blendOp (v : BlendOp) (b : BlendStateDesc) : BlendStateDesc :=
  {| enabled := enabled b;
     srcColorBlendFactor := srcColorBlendFactor b;
     dstColorBlendFactor := dstColorBlendFactor b;
     srcAlphaBlendFactor := srcAlphaBlendFactor b;
     dstAlphaBlendFactor := dstAlphaBlendFactor b;
     colorBlendOp := v; alphaBlendOp := v;
     constant := constant b; colorWriteMask := colorWriteMask b |}.

Definition set_constant (v : CColor) (b : BlendStateDesc) : BlendStateDesc :=
  {| enabled := enabled b;
     srcColorBlendFactor := srcColorBlendFactor b;
     dstColorBlendFactor := dstColorBlendFactor b;
     srcAlphaBlendFactor := srcAlphaBlendFactor b;
     dstAlphaBlendFactor := dstAlphaBlendFactor b;
     colorBlendOp := colorBlendOp b; alphaBlendOp := alphaBlendOp b;
     constant := v; colorWriteMask := colorWriteMask b |}.

Definition set_colorWriteMask (v : Z) (b : BlendStateDesc) : BlendStateDesc :=
  {| enabled := enabled b;
     srcColorBlendFactor := srcColorBlendFactor b;
     dstColorBlendFactor := dstColorBlendFactor b;
     srcAlphaBlendFactor := srcAlphaBlendFactor b;
     dstAlphaBlendFactor := dstAlphaBlendFactor b;
     colorBlendOp := colorBlendOp b; alphaBlendOp := alphaBlendOp b;
     constant := constant b; colorWriteMask := v |}.

Definition set_polygonMode (v : PolygonMode) (r : RasterizationStateDesc)
  : RasterizationStateDesc :=
  {| polygonMode := v; cullMode := cullMode r; frontFace := frontFace r |}.

Definition set_cullMode (v : CullMode) (r : RasterizationStateDesc)
  : RasterizationStateDesc :=
  {| polygonMode := polygonMode r; cullMode := v; frontFace := frontFace r |}.

Definition set_frontFace (v : FrontFace) (r : RasterizationStateDesc)
  : RasterizationStateDesc :=
  {| polygonMode := polygonMode r; cullMode := cullMode r; frontFace := v |}.

Definition set_compareOp (v : CompareOp) (s : StencilOpState) : StencilOpState :=
  {| compareOp := v; failOp := failOp s; passOp := passOp s;
     depthFailOp := depthFailOp s |}.

Definition set_failOp (v : StencilOp) (s : StencilOpState) : StencilOpState :=
  {| compareOp := compareOp s; failOp := v; passOp := passOp s;
     depthFailOp := depthFailOp s |}.

Definition set_passOp (v : StencilOp) (s : StencilOpState) : StencilOpState :=
  {| compareOp := compareOp s; failOp := failOp s; passOp := v;
     depthFailOp := depthFailOp s |}.

Definition set_depthFailOp (v : StencilOp) (s : StencilOpState) : StencilOpState :=
  {| compareOp := compareOp s; failOp := failOp s; passOp := passOp s;
     depthFailOp := v |}.

Definition set_depthTestEnabled (v : bool) (s : DepthStencilStateDesc)
  : DepthStencilStateDesc :=
  {| depthTestEnabled := v; depthCompareOp := depthCompareOp s;
     depthWriteEnabled := depthWriteEnabled s;
     stencilTestEnabled := stencilTestEnabled s;
     stencilReadMask := stencilReadMask s;
     stencilWriteMask := stencilWriteMask s;
     stencilReference := stencilReference s;
     stencilFrontFace := stencilFrontFace s;
     stencilBackFace := stencilBackFace s |}.

Definition set_depthCompareOp (v : CompareOp) (s : DepthStencilStateDesc)
  : DepthStencilStateDesc :=
  {| depthTestEnabled := depthTestEnabled s; depthCompareOp := v;
     depthWriteEnabled := depthWriteEnabled s;
     stencilTestEnabled := stencilTestEnabled s;
     stencilReadMask := stencilReadMask s;
     stencilWriteMask := stencilWriteMask s;
     stencilReference := stencilReference s;
     stencilFrontFace := stencilFrontFace s;
     stencilBackFace := stencilBackFace s |}.

Definition set_depthWriteEnabled (v : bool) (s : DepthStencilStateDesc)
  : DepthStencilStateDesc :=
  {| depthTestEnabled := depthTestEnabled s;
     depthCompareOp := depthCompareOp s;
     depthWriteEnabled := v;
     stencilTestEnabled := stencilTestEnabled s;
     stencilReadMask := stencilReadMask s;
     stencilWriteMask := stencilWriteMask s;
     stencilReference := stencilReference s;
     stencilFrontFace := stencilFrontFace s;
     stencilBackFace := stencilBackFace s |}.

Definition set_stencilTestEnabled (v : bool) (s : DepthStencilStateDesc)
  : DepthStencilStateDesc :=
  {| depthTestEnabled := depthTestEnabled s;
     depthCompareOp := depthCompareOp s;
     depthWriteEnabled := depthWriteEnabled s;
     stencilTestEnabled := v;
     stencilReadMask := stencilReadMask s;
     stencilWriteMask := stencilWriteMask s;
     stencilReference := stencilReference s;
     stencilFrontFace := stencilFrontFace s;
     stencilBackFace := stencilBackFace s |}.

Definition set_stencilReadMask (v : Z) (s : DepthStencilStateDesc)
  : DepthStencilStateDesc :=
  {| depthTestEnabled := depthTestEnabled s;
     depthCompareOp := depthCompareOp s;
     depthWriteEnabled := depthWriteEnabled s;
     stencilTestEnabled := stencilTestEnabled s;
     stencilReadMask := v;
     stencilWriteMask := stencilWriteMask s;
     stencilReference := stencilReference s;
     stencilFrontFace := stencilFrontFace s;
     stencilBackFace := stencilBackFace s |}.

Definition set_stencilWriteMask (v : Z) (s : DepthStencilStateDesc)
  : DepthStencilStateDesc :=
  {| depthTestEnabled := depthTestEnabled s;
     depthCompareOp := depthCompareOp s;
     depthWriteEnabled := depthWriteEnabled s;
     stencilTestEnabled := stencilTestEnabled s;
     stencilReadMask := stencilReadMask s;
     stencilWriteMask := v;
     stencilReference := stencilReference s;
     stencilFrontFace := stencilFrontFace s;
     stencilBackFace := stencilBackFace s |}.

Definition set_stencilReference (v : Z) (s : DepthStencilStateDesc)
  : DepthStencilStateDesc :=
  {| depthTestEnabled := depthTestEnabled s;
     depthCompareOp := depthCompareOp s;
     depthWriteEnabled := depthWriteEnabled s;
     stencilTestEnabled := stencilTestEnabled s;
     stencilReadMask := stencilReadMask s;
     stencilWriteMask := stencilWriteMask s;
     stencilReference := v;
     stencilFrontFace := stencilFrontFace s;
     stencilBackFace := stencilBackFace s |}.

(** [stencilFrontFace.x = stencilBackFace.x = v], for the field [x] that
    [f v] assigns. *)
Definition set_stencilFaces (f : StencilOpState → StencilOpState)
    (s : DepthStencilStateDesc) : DepthStencilStateDesc :=
  {| depthTestEnabled := depthTestEnabled s;
     depthCompareOp := depthCompareOp s;
     depthWriteEnabled := depthWriteEnabled s;
     stencilTestEnabled := stencilTestEnabled s;
     stencilReadMask := stencilReadMask s;
     stencilWriteMask := stencilWriteMask s;
     stencilReference := stencilReference s;
     stencilFrontFace := f (stencilFrontFace s);
     stencilBackFace := f (stencilBackFace s) |}.

(** *** Passes, techniques and the state of the manager *)

Record CShaderPass : Type := {
  pipelineStateDesc : GraphicsPipelineStateDesc;
  shader : CShaderProgramPtr
}.

Record CShaderTechnique : Type := {
  sortByDistance : bool;
  passes : list CShaderPass
}.

(** The three members of [CShaderManager], the objects created so far (a
    pointer is an index), the programs whose last owner has gone, and the
    trace of outside calls. *)
Record State : Type := {
  m_ProgramCache : gmap CacheKey CShaderProgramPtr;
  m_EffectCache : gmap EffectCacheKey CShaderTechniquePtr;
  m_HotloadFiles : gmap string (gset nat);
  programs : list CShaderProgram;
  techniques : list CShaderTechnique;
  expired : gset nat;
  trace : list Event
}.

Definition set_ProgramCache
    (f : gmap CacheKey CShaderProgramPtr → gmap CacheKey CShaderProgramPtr)
    (w : State) : State :=
  {| m_ProgramCache := f (m_ProgramCache w); m_EffectCache := m_EffectCache w;
     m_HotloadFiles := m_HotloadFiles w; programs := programs w;
     techniques := techniques w; expired := expired w; trace := trace w |}.

Definition set_EffectCache
    (f : gmap EffectCacheKey CShaderTechniquePtr →
         gmap EffectCacheKey CShaderTechniquePtr)
    (w : State) : State :=
  {| m_ProgramCache := m_ProgramCache w; m_EffectCache := f (m_EffectCache w);
     m_HotloadFiles := m_HotloadFiles w; programs := programs w;
     techniques := techniques w; expired := expired w; trace := trace w |}.

Definition set_HotloadFiles
    (f : gmap string (gset nat) → gmap string (gset nat)) (w : State) : State :=
  {| m_ProgramCache := m_ProgramCache w; m_EffectCache := m_EffectCache w;
     m_HotloadFiles := f (m_HotloadFiles w); programs := programs w;
     techniques := techniques w; expired := expired w; trace := trace w |}.

Definition set_programs (f : list CShaderProgram → list CShaderProgram)
    (w : State) : State :=
  {| m_ProgramCache := m_ProgramCache w; m_EffectCache := m_EffectCache w;
     m_HotloadFiles := m_HotloadFiles w; programs := f (programs w);
     techniques := techniques w; expired := expired w; trace := trace w |}.

Definition set_techniques (f : list CShaderTechnique → list CShaderTechnique)
    (w : State) : State :=
  {| m_ProgramCache := m_ProgramCache w; m_EffectCache := m_EffectCache w;
     m_HotloadFiles := m_HotloadFiles w; programs := programs w;
     techniques := f (techniques w); expired := expired w; trace := trace w |}.

Definition set_expired (f : gset nat → gset nat) (w : State) : State :=
  {| m_ProgramCache := m_ProgramCache w; m_EffectCache := m_EffectCache w;
     m_HotloadFiles := m_HotloadFiles w; programs := programs w;
     techniques := techniques w; expired := f (expired w); trace := trace w |}.

Definition set_trace (f : list Event → list Event) (w : State) : State :=
  {| m_ProgramCache := m_ProgramCache w; m_EffectCache := m_EffectCache w;
     m_HotloadFiles := m_HotloadFiles w; programs := programs w;
     techniques := techniques w; expired := expired w; trace := f (trace w) |}.

(** *** The state monad of the manager *)

Definition M (A : Type) : Type := State → A * State.

Definition ret {A : Type} (a : A) : M A := λ w, (a, w).

Definition bind {A B : Type} (m : M A) (k : A → M B) : M B :=
  λ w, k (m w).1 (m w).2.

Definition gets {A : Type} (f : State → A) : M A := λ w, (f w, w).

Definition modify (f : State → State) : M unit := λ w, (tt, f w).

End Types.

(** ** A sample environment

    One concrete choice of everything the manager takes from outside; the
    properties below are run on it. *)

Module Sample.

(** The enumerations keep the token they were parsed from; so does the
    colour. *)
Abbreviation Desc :=
  (@GraphicsPipelineStateDesc string string string string string string
                              string string).
Abbreviation State :=
  (@State string string string string string string string string).

Definition token (str : string) : string := str.

Fixpoint decimal (str : string) (acc : Z) : Z :=
  match str with
  | EmptyString => acc
  | String c rest => decimal rest (10 * acc + (Z.of_nat (Ascii.nat_of_ascii c) - 48))
  end.

Definition ToInt (str : string) : Z := decimal str 0.

Definition ParseString (c : string) (str : string) : bool * string :=
  if String.eqb str "bad" then (false, c) else (true, str).

Definition RED : Z := 1.
Definition GREEN : Z := 2.
Definition BLUE : Z := 4.
Definition ALPHA : Z := 8.

Definition defaultStencilOpState : StencilOpState :=
  {| compareOp := "always"; failOp := "keep"; passOp := "keep";
     depthFailOp := "keep" |}.

Definition defaultDesc : Desc :=
  {| depthStencilState :=
       {| depthTestEnabled := true; depthCompareOp := "lequal";
          depthWriteEnabled := true; stencilTestEnabled := false;
          stencilReadMask := 0xFFFFFFFF; stencilWriteMask := 0xFFFFFFFF;
          stencilReference := 0;
          stencilFrontFace := defaultStencilOpState;
          stencilBackFace := defaultStencilOpState |};
     blendState :=
       {| enabled := false;
          srcColorBlendFactor := "one"; dstColorBlendFactor := "zero";
          srcAlphaBlendFactor := "one"; dstAlphaBlendFactor := "zero";
          colorBlendOp := "add"; alphaBlendOp := "add";
          constant := "0 0 0 0";
          colorWriteMask := Z.lor (Z.lor (Z.lor RED GREEN) BLUE) ALPHA |};
     rasterizationState :=
       {| polygonMode := "fill"; cullMode := "back"; frontFace := "ccw" |} |}.

(** A pass with a single [depth] element that only sets [test]. *)
Definition pass_depth_test : XMBElement :=
  MkElement "pass" [("shader", "basic")]
    [MkElement "depth" [("test", "FALSE")] []].

(** A pass that masks every channel but red. *)
Definition color_red : XMBElement :=
  MkElement "color" [("mask_red", "TRUE"); ("mask_alpha", "true")] [].

Definition pass_color_red : XMBElement :=
  MkElement "pass" [("shader", "basic")] [color_red].

Definition depth_upper : XMBElement :=
  MkElement "depth" [("test", "TRUE"); ("mask", "TRUE")] [].

Definition stencil_upper : XMBElement :=
  MkElement "stencil" [("test", "TRUE")] [].

(** Program descriptions. *)
Definition program_basic : XMBElement :=
  MkElement "program" [("type", "glsl")]
    [MkElement "vertex" [("file", "glsl/basic.vs")]
       [MkElement "stream" [("name", "pos")] [];
        MkElement "attrib" [("name", "a_vertex"); ("semantics", "gl_Vertex")] []];
     MkElement "fragment" [("file", "glsl/basic.fs")] []].

(** An attribute with a semantics that is not in the table. *)
Definition program_bogus : XMBElement :=
  MkElement "program" [("type", "glsl")]
    [MkElement "vertex" [("file", "glsl/bogus.vs")]
       [MkElement "attrib" [("name", "a_tangent"); ("semantics", "gl_Tangent")] []];
     MkElement "fragment" [("file", "glsl/bogus.fs")] []].

Definition uniform_shadow : XMBElement :=
  MkElement "uniform"
    [("name", "shadowTex"); ("loc", "2"); ("type", "sampler2DShadow")] [].

(** A fragment uniform of a sampler type that is not in the list. *)
Definition program_shadow : XMBElement :=
  MkElement "program" [("type", "arb")]
    [MkElement "vertex" [("file", "arb/shadow.vp")] [];
     MkElement "fragment" [("file", "arb/shadow.fp")] [uniform_shadow]].

(** Three candidate techniques, each behind one condition. *)
Definition technique_of (cond shader : string) : XMBElement :=
  MkElement "technique" []
    [MkElement "require" [("context", cond)] [];
     MkElement "pass" [("shader", shader)] []].

Definition effect_three : XMBElement :=
  MkElement "effect" []
    [technique_of "USE_A" "basic"; technique_of "USE_B" "shadow";
     technique_of "USE_C" "bogus"].

(** A technique whose defines and passes are interleaved, and the same
    with the defines first. *)
Definition define_el (n v : string) : XMBElement :=
  MkElement "define" [("name", n); ("value", v)] [].

Definition pass_plain : XMBElement :=
  MkElement "pass" [("shader", "basic")] [].

Definition pass_override : XMBElement :=
  MkElement "pass" [("shader", "basic")] [define_el "MODE" "pass"].

Definition children_interleaved : list XMBElement :=
  [pass_override; define_el "MODE" "tech"; pass_plain; define_el "FOG" "1"].

Definition children_defines_first : list XMBElement :=
  [define_el "MODE" "tech"; define_el "FOG" "1"; pass_override; pass_plain].

Definition effect_layers : XMBElement :=
  MkElement "effect" [] [MkElement "technique" [] children_interleaved].

Definition g_VFS (path : string) : option XMBElement :=
  if String.eqb path "shaders/basic.xml" then Some program_basic
  else if String.eqb path "shaders/bogus.xml" then Some program_bogus
  else if String.eqb path "shaders/shadow.xml" then Some program_shadow
  else if String.eqb path "shaders/effects/three.xml" then Some effect_three
  else if String.eqb path "shaders/effects/layers.xml" then Some effect_layers
  else None.

Definition ValidateEncoded (name : string) (root : XMBElement) : bool := true.

(** A condition is the name of a define, and holds when it is set to 1. *)
Definition TestConditional (defines : CShaderDefines) (cond : string) : bool :=
  bool_decide (defines !! cond = Some "1").

Definition STREAM_POS : Z := 1.
Definition STREAM_NORMAL : Z := 2.
Definition STREAM_COLOR : Z := 4.
Definition STREAM_UV0 : Z := 8.
Definition STREAM_UV1 : Z := 16.
Definition STREAM_UV2 : Z := 32.
Definition STREAM_UV3 : Z := 64.

Definition GetFileDependencies (program : CShaderProgram) : list string :=
  match program with
  | ConstructGLSL vertexFile fragmentFile _ _ _ => [vertexFile; fragmentFile]
  | ConstructARB vertexFile fragmentFile _ _ _ _ => [vertexFile; fragmentFile]
  end.

Definition hash_combine (seed v : Z) : Z :=
  Z.lxor seed (v + 0x9e3779b9 + Z.shiftl seed 6 + Z.shiftr seed 2)
    mod 2 ^ 64.

Definition CStrIntern_GetHash (str : string) : Z := decimal str 0 mod 2 ^ 64.

Definition CShaderDefines_GetHash (defines : CShaderDefines) : Z :=
  map_fold (λ n v h, h + CStrIntern_GetHash n + CStrIntern_GetHash v) 0 defines.

(** A manager that has loaded nothing. *)
Definition init : State :=
  {| m_ProgramCache := ∅; m_EffectCache := ∅; m_HotloadFiles := ∅;
     programs := []; techniques := []; expired := ∅; trace := [] |}.

Definition defines_BC : CShaderDefines := Add "USE_C" "1" (Add "USE_B" "1" ∅).

(** A program description with defines of its own and with parameters
    behind a condition. *)
Definition program_fog : XMBElement :=
  MkElement "program" [("type", "arb")]
    [define_el "MODE" "doc";
     MkElement "vertex" [("file", "arb/fog.vp")]
       [MkElement "stream" [("name", "pos")] [];
        MkElement "stream" [("name", "uv0"); ("if", "USE_FOG")] [];
        MkElement "uniform"
          [("name", "fogParams"); ("loc", "3"); ("if", "USE_FOG")] []];
     define_el "USE_FOG" "1";
     MkElement "fragment" [("file", "arb/fog.fp")]
       [MkElement "uniform"
          [("name", "baseTex"); ("loc", "0"); ("type", "sampler2D")] []]].

(** A technique that sorts by distance, with two passes on one shader. *)
Definition technique_water : XMBElement :=
  MkElement "technique" []
    [MkElement "require" [("shaders", "glsl")] [];
     MkElement "require" [("context", "USE_B")] [];
     MkElement "sort_by_distance" [] [];
     pass_plain; pass_depth_test].

Definition effect_water : XMBElement :=
  MkElement "effect" [] [technique_water].

(** The files above, and these two. *)
Definition g_VFS_more (path : string) : option XMBElement :=
  if String.eqb path "shaders/fog.xml" then Some program_fog
  else if String.eqb path "shaders/effects/water.xml" then Some effect_water
  else g_VFS path.

(** A validator that rejects the program [bogus]. *)
Definition ValidateStrict (name : string) (root : XMBElement) : bool :=
  negb (String.eqb name "bogus").

(** A pass that blends and tests the stencil. *)
Definition pass_blend_stencil : XMBElement :=
  MkElement "pass" [("shader", "basic")]
    [MkElement "blend" [("src", "src_alpha"); ("dst", "one_minus_src_alpha")] [];
     MkElement "stencil"
       [("test", "TRUE"); ("compare", "equal"); ("pass", "replace")] []].

(** A pass with a [blend] element that has no attribute. *)
Definition pass_blend_bare : XMBElement :=
  MkElement "pass" [("shader", "basic")] [MkElement "blend" [] []].

(** A program description with a one-dimensional sampler, and the files
    with it. *)
Definition program_ramp : XMBElement :=
  MkElement "program" [("type", "arb")]
    [MkElement "vertex" [("file", "arb/ramp.vp")] [];
     MkElement "fragment" [("file", "arb/ramp.fp")]
       [MkElement "uniform"
          [("name", "rampTex"); ("loc", "1"); ("type", "sampler1D")] []]].

Definition g_VFS_ramp (path : string) : option XMBElement :=
  if String.eqb path "shaders/ramp.xml" then Some program_ramp else g_VFS path.

End Sample.

(** ** The shader manager *)

Section ShaderManager.

(** The enumerations and the colour type of renderer/backend/PipelineState.h,
    and their parsers, are not part of the sources at hand. *)
Context {BlendFactor BlendOp CullMode FrontFace PolygonMode CompareOp
         StencilOp CColor : Type}.

Local Abbreviation GraphicsPipelineStateDesc :=
  (@GraphicsPipelineStateDesc BlendFactor BlendOp CullMode FrontFace PolygonMode
                              CompareOp StencilOp CColor).
Local Abbreviation State :=
  (@State BlendFactor BlendOp CullMode FrontFace PolygonMode CompareOp StencilOp
          CColor).
Local Abbreviation M :=
  (@M BlendFactor BlendOp CullMode FrontFace PolygonMode CompareOp StencilOp
      CColor).

Variable ParseBlendFactor : string → BlendFactor.
Variable ParseBlendOp : string → BlendOp.
Variable ParseCullMode : string → CullMode.
Variable ParseFrontFace : string → FrontFace.
Variable ParsePolygonMode : string → PolygonMode.
Variable ParseCompareOp : string → CompareOp.
Variable ParseStencilOp : string → StencilOp.
(** [CStr::ToULong]. *)
Variable ToULong : string → Z.
(** [CColor::ParseString]: the success flag and the colour the object holds
    after the call. *)
Variable ParseString : CColor → string → bool * CColor.

(** The enumerators of [ColorWriteMask]. *)
Variables RED GREEN BLUE ALPHA : Z.

(** [Renderer::Backend::MakeDefaultGraphicsPipelineStateDesc()]. *)
Variable MakeDefaultGraphicsPipelineStateDesc : GraphicsPipelineStateDesc.

(** *** The environment of the manager *)

(** [CXeromyces::Load(g_VFS, path)]: the root of the parsed document when
    the result is [PSRETURN_OK]. *)
Variable g_VFS : string → option XMBElement.
(** [CXeromyces::ValidateEncoded("shader", name, ...)] on the serialized
    document. *)
Variable ValidateEncoded : string → XMBElement → bool.
(** [CPreprocessorWrapper::TestConditional], for a preprocessor that was
    given the defines by [AddDefines]. *)
Variable TestConditional : CShaderDefines → string → bool.
(** [CStr::ToInt]. *)
Variable ToInt : string → Z.
Variables STREAM_POS STREAM_NORMAL STREAM_COLOR
          STREAM_UV0 STREAM_UV1 STREAM_UV2 STREAM_UV3 : Z.
(** The build flag [CONFIG2_GLES]. *)
Variable CONFIG2_GLES : bool.
(** [g_VideoMode.GetBackend()] and the device capability [ARBShaders]. *)
Variable GetBackend : Backend.
Variable ARBShaders : bool.
(** [CShaderProgram::GetFileDependencies], read after [Reload]. *)
Variable GetFileDependencies : CShaderProgram → list string.
(** [hash_combine] of lib/hash.h, [CStrIntern::GetHash] and
    [CShaderDefines::GetHash]. *)
Variable hash_combine : Z → Z → Z.
Variable CStrIntern_GetHash : string → Z.
Variable CShaderDefines_GetHash : CShaderDefines → Z.

Notation "x <- c1 ;; c2" := (bind c1 (λ x, c2))
  (at level 100, c1 at next level, right associativity).
Notation "c1 ;; c2" := (bind c1 (λ _, c2))
  (at level 100, right associativity).

(** *** The elements of a pass

    The body of the loop over the children of a [pass] element in
    [NewEffect]: the pass's define set, its pipeline state, and the errors
    it logs. *)

Record PassState : Type := {
  passDefines : CShaderDefines;
  passPipelineStateDesc : GraphicsPipelineStateDesc;
  passLog : list string
}.

Definition with_desc (f : GraphicsPipelineStateDesc → GraphicsPipelineStateDesc)
    (s : PassState) : PassState :=
  {| passDefines := passDefines s;
     passPipelineStateDesc := f (passPipelineStateDesc s);
     passLog := passLog s |}.

Definition with_defines (f : CShaderDefines → CShaderDefines) (s : PassState)
  : PassState :=
  {| passDefines := f (passDefines s);
     passPipelineStateDesc := passPipelineStateDesc s;
     passLog := passLog s |}.

Definition LOGERROR_pass (msg : string) (s : PassState) : PassState :=
  {| passDefines := passDefines s;
     passPipelineStateDesc := passPipelineStateDesc s;
     passLog := passLog s ++ [msg] |}.

(** The macro [MASK_CHANNEL(ATTRIBUTE, VALUE)]. *)
Definition MASK_CHANNEL (Element : XMBElement) (ATTRIBUTE : string) (VALUE : Z)
    (d : GraphicsPipelineStateDesc) : GraphicsPipelineStateDesc :=
  if String.eqb (GetNamedItem (GetAttributes Element) ATTRIBUTE) "TRUE"
  then set_blendState
         (λ b, set_colorWriteMask (Z.lor (colorWriteMask b) VALUE) b) d
  else d.

Definition PassElement_blend (Element : XMBElement) (s : PassState) : PassState :=
  let at_ := GetNamedItem (GetAttributes Element) in
  let s := with_desc (set_blendState (set_enabled true)) s in
  let s := with_desc
             (set_blendState (set_srcBlendFactor (ParseBlendFactor (at_ "src")))) s in
  let s := with_desc
             (set_blendState (set_dstBlendFactor (ParseBlendFactor (at_ "dst")))) s in
  let s := if negb (empty (at_ "op"))
           then with_desc (set_blendState (set_blendOp (ParseBlendOp (at_ "op")))) s
           else s in
  if negb (empty (at_ "constant"))
  then
    let r := ParseString (constant (blendState (passPipelineStateDesc s)))
                         (at_ "constant") in
    let s := with_desc (set_blendState (set_constant (snd r))) s in
    if negb (fst r)
    then LOGERROR_pass ("Failed to parse blend constant: " +:+ at_ "constant") s
    else s
  else s.

Definition PassElement_color (Element : XMBElement)
    (d : GraphicsPipelineStateDesc) : GraphicsPipelineStateDesc :=
  let d := set_blendState (set_colorWriteMask 0) d in
  let d := MASK_CHANNEL Element "mask_red" RED d in
  let d := MASK_CHANNEL Element "mask_green" GREEN d in
  let d := MASK_CHANNEL Element "mask_blue" BLUE d in
  MASK_CHANNEL Element "mask_alpha" ALPHA d.

Definition PassElement_cull (Element : XMBElement)
    (d : GraphicsPipelineStateDesc) : GraphicsPipelineStateDesc :=
  let at_ := GetNamedItem (GetAttributes Element) in
  let d := if negb (empty (at_ "mode"))
           then set_rasterizationState (set_cullMode (ParseCullMode (at_ "mode"))) d
           else d in
  if negb (empty (at_ "front_face"))
  then set_rasterizationState
         (set_frontFace (ParseFrontFace (at_ "front_face"))) d
  else d.

Definition PassElement_depth (Element : XMBElement)
    (d : GraphicsPipelineStateDesc) : GraphicsPipelineStateDesc :=
  let at_ := GetNamedItem (GetAttributes Element) in
  let d := if negb (empty (at_ "test"))
           then set_depthStencilState
                  (set_depthTestEnabled (String.eqb (at_ "test") "TRUE")) d
           else d in
  let d := if negb (empty (at_ "func"))
           then set_depthStencilState
                  (set_depthCompareOp (ParseCompareOp (at_ "func"))) d
           else d in
  if negb (empty (at_ "mask"))
  then set_depthStencilState
         (set_depthWriteEnabled (String.eqb (at_ "mask") "true")) d
  else d.

Definition PassElement_polygon (Element : XMBElement)
    (d : GraphicsPipelineStateDesc) : GraphicsPipelineStateDesc :=
  let at_ := GetNamedItem (GetAttributes Element) in
  if negb (empty (at_ "mode"))
  then set_rasterizationState
         (set_polygonMode (ParsePolygonMode (at_ "mode"))) d
  else d.

Definition PassElement_stencil (Element : XMBElement)
    (d : GraphicsPipelineStateDesc) : GraphicsPipelineStateDesc :=
  let at_ := GetNamedItem (GetAttributes Element) in
  let d := if negb (empty (at_ "test"))
           then set_depthStencilState
                  (set_stencilTestEnabled (String.eqb (at_ "test") "TRUE")) d
           else d in
  let d := if negb (empty (at_ "reference"))
           then set_depthStencilState
                  (set_stencilReference (ToULong (at_ "reference"))) d
           else d in
  let d := if negb (empty (at_ "mask_read"))
           then set_depthStencilState
                  (set_stencilReadMask (ToULong (at_ "mask_read"))) d
           else d in
  let d := if negb (empty (at_ "mask"))
           then set_depthStencilState
                  (set_stencilWriteMask (ToULong (at_ "mask"))) d
           else d in
  let d := if negb (empty (at_ "compare"))
           then set_depthStencilState
                  (set_stencilFaces (set_compareOp (ParseCompareOp (at_ "compare")))) d
           else d in
  let d := if negb (empty (at_ "fail"))
           then set_depthStencilState
                  (set_stencilFaces (set_failOp (ParseStencilOp (at_ "fail")))) d
           else d in
  let d := if negb (empty (at_ "pass"))
           then set_depthStencilState
                  (set_stencilFaces (set_passOp (ParseStencilOp (at_ "pass")))) d
           else d in
  if negb (empty (at_ "depth_fail"))
  then set_depthStencilState
         (set_stencilFaces (set_depthFailOp (ParseStencilOp (at_ "depth_fail")))) d
  else d.

(** One iteration of [XERO_ITER_EL(Child, Element)]. *)
Definition PassElement (Element : XMBElement) (s : PassState) : PassState :=
  let name := GetNodeName Element in
  if String.eqb name "define" then with_defines (AddDefineElement Element) s
  else if String.eqb name "blend" then PassElement_blend Element s
  else if String.eqb name "color" then with_desc (PassElement_color Element) s
  else if String.eqb name "cull" then with_desc (PassElement_cull Element) s
  else if String.eqb name "depth" then with_desc (PassElement_depth Element) s
  else if String.eqb name "polygon" then with_desc (PassElement_polygon Element) s
  else if String.eqb name "stencil" then with_desc (PassElement_stencil Element) s
  else s.

(** The state a pass starts from: a copy of the technique's defines and the
    default pipeline state. *)
Definition PassInit (techDefines : CShaderDefines) : PassState :=
  {| passDefines := techDefines;
     passPipelineStateDesc := MakeDefaultGraphicsPipelineStateDesc;
     passLog := [] |}.

(** The whole loop over the children of the pass element [Child]. *)
Definition PassElements (Elements : list XMBElement) (s : PassState) : PassState :=
  fold_left (λ s Element, PassElement Element s) Elements s.

Definition BuildPass (techDefines : CShaderDefines) (Child : XMBElement)
  : PassState :=
  PassElements (GetChildNodes Child) (PassInit techDefines).

Definition emits (es : list Event) : M unit := modify (set_trace (λ t, t ++ es)).
Definition emit (e : Event) : M unit := emits [e].
Definition LOGERROR (msg : string) : M unit := emit (EvLOGERROR msg).
(** Modelled from the spec: the handler behind the macro [debug_warn]
    (lib/debug.h), which is not under src/.  The spec gives the reference
    behaviour of the diagnostics raised while a program description is
    read, an attribute semantics that is not recognised and a sampler
    dimensionality that the build does not support: they are fatal to the
    process, a loud abort with the diagnostic.  The failure to find a usable
    technique it words as a resolution failure that is logged and memoised,
    so that diagnostic comes back to its caller. *)
Definition debug_warn_fatal (msg : string) : bool :=
  String.eqb msg "Invalid attribute semantics" ||
  String.eqb msg "sampler1D not implemented on GLES" ||
  String.eqb msg "sampler3D not implemented on GLES".

(** The call [debug_warn(msg)] is recorded in the trace.  The functions of
    this section go on with the statement after the call, which is what the
    code does when control comes back from the handler (a fallback value is
    returned or kept after each call); when the diagnostic is fatal the
    process stops at the call, and what a call of the interface then comes
    to is given by [outcome] below, which cuts the run at the first fatal
    diagnostic. *)
Definition debug_warn (msg : string) : M unit := emit (EvDebugWarn msg).

(** [CXeromyces XeroFile; XeroFile.Load(g_VFS, xmlFilename)]. *)
Definition XeroFile_Load (xmlFilename : string) : M (option XMBElement) :=
  emit (EvLoad xmlFilename);; ret (g_VFS xmlFilename).

(** A new program object; its pointer is returned. *)
Definition new_CShaderProgram (obj : CShaderProgram) : M nat :=
  program <- gets (λ w, length (programs w));;
  modify (set_programs (λ l, l ++ [obj]));;
  ret program.

(** [new CShaderTechnique()]. *)
Definition new_CShaderTechnique : M nat :=
  tech <- gets (λ w, length (techniques w));;
  modify (set_techniques
            (λ l, l ++ [{| sortByDistance := false; passes := [] |}]));;
  ret tech.

Definition SetSortByDistance (tech : nat) (enable : bool) : M unit :=
  modify (set_techniques
            (alter (λ t, {| sortByDistance := enable; passes := passes t |}) tech)).

Definition SetPasses (tech : nat) (techPasses : list CShaderPass) : M unit :=
  modify (set_techniques
            (alter (λ t, {| sortByDistance := sortByDistance t;
                            passes := techPasses |}) tech)).

(** [program->Reload()]. *)
Definition Reload (program : nat) : M unit := emit (EvReload program).

(** [std::weak_ptr::lock]: succeeds while the program has an owner. *)
Definition lock (ptr : nat) : M bool :=
  gets (λ w, bool_decide (ptr ∉ expired w)).

(** *** Hotloading *)

(** [m_HotloadFiles[path].insert(program)]. *)
Definition AddProgramFileDependency (program : nat) (path : string) : M unit :=
  modify (set_HotloadFiles
            (λ m, <[path := {[program]} ∪ default ∅ (m !! path)]> m)).

(** The loop over [files->second]. *)
Fixpoint ReloadAll (ptrs : list nat) : M unit :=
  match ptrs with
  | [] => ret tt
  | ptr :: rest =>
      program <- lock ptr;;
      (if program then Reload ptr else ret tt);;
      ReloadAll rest
  end.

Definition ReloadChangedFile (path : string) : M Z :=
  files <- gets (λ w, m_HotloadFiles w !! path);;
  match files with
  | None => ret INFO_OK
  | Some dependents => ReloadAll (elements dependents);; ret INFO_OK
  end.

(** *** Program descriptions *)

(** [ParseAttribSemantics]: the attribute location, and the call of
    [debug_warn] it makes.  After the call the function returns location 0,
    as written. *)
Definition ParseAttribSemantics (str : string) : Z * list Event :=
  if String.eqb str "gl_Vertex" then (0, [])
  else if String.eqb str "gl_Normal" then (2, [])
  else if String.eqb str "gl_Color" then (3, [])
  else if String.eqb str "gl_SecondaryColor" then (4, [])
  else if String.eqb str "gl_FogCoord" then (5, [])
  else if String.eqb str "gl_MultiTexCoord0" then (8, [])
  else if String.eqb str "gl_MultiTexCoord1" then (9, [])
  else if String.eqb str "gl_MultiTexCoord2" then (10, [])
  else if String.eqb str "gl_MultiTexCoord3" then (11, [])
  else if String.eqb str "gl_MultiTexCoord4" then (12, [])
  else if String.eqb str "gl_MultiTexCoord5" then (13, [])
  else if String.eqb str "gl_MultiTexCoord6" then (14, [])
  else if String.eqb str "gl_MultiTexCoord7" then (15, [])
  else if String.eqb str "CustomAttribute0" then (1, [])
  else if String.eqb str "CustomAttribute1" then (6, [])
  else if String.eqb str "CustomAttribute2" then (7, [])
  else (0, [EvDebugWarn "Invalid attribute semantics"]).

(** The local variables of [NewProgram] while it walks the document, and
    the outside calls made on the way. *)
Record ProgramLocals : Type := {
  vertexFile : string;
  fragmentFile : string;
  defines : CShaderDefines;
  vertexUniforms : gmap string Z;
  fragmentUniforms : gmap string (Z * Z);
  vertexAttribs : gmap string Z;
  streamFlags : Z;
  events : list Event
}.

Definition add_events (es : list Event) (l : ProgramLocals) : ProgramLocals :=
  {| vertexFile := vertexFile l; fragmentFile := fragmentFile l;
     defines := defines l; vertexUniforms := vertexUniforms l;
     fragmentUniforms := fragmentUniforms l; vertexAttribs := vertexAttribs l;
     streamFlags := streamFlags l; events := events l ++ es |}.

Definition set_vertexFile (v : string) (l : ProgramLocals) : ProgramLocals :=
  {| vertexFile := v; fragmentFile := fragmentFile l;
     defines := defines l; vertexUniforms := vertexUniforms l;
     fragmentUniforms := fragmentUniforms l; vertexAttribs := vertexAttribs l;
     streamFlags := streamFlags l; events := events l |}.

Definition set_fragmentFile (v : string) (l : ProgramLocals) : ProgramLocals :=
  {| vertexFile := vertexFile l; fragmentFile := v;
     defines := defines l; vertexUniforms := vertexUniforms l;
     fragmentUniforms := fragmentUniforms l; vertexAttribs := vertexAttribs l;
     streamFlags := streamFlags l; events := events l |}.

Definition set_defines (f : CShaderDefines → CShaderDefines)
    (l : ProgramLocals) : ProgramLocals :=
  {| vertexFile := vertexFile l; fragmentFile := fragmentFile l;
     defines := f (defines l); vertexUniforms := vertexUniforms l;
     fragmentUniforms := fragmentUniforms l; vertexAttribs := vertexAttribs l;
     streamFlags := streamFlags l; events := events l |}.

Definition set_vertexUniform (k : string) (v : Z) (l : ProgramLocals)
  : ProgramLocals :=
  {| vertexFile := vertexFile l; fragmentFile := fragmentFile l;
     defines := defines l; vertexUniforms := <[k := v]> (vertexUniforms l);
     fragmentUniforms := fragmentUniforms l; vertexAttribs := vertexAttribs l;
     streamFlags := streamFlags l; events := events l |}.

Definition set_fragmentUniform (k : string) (v : Z * Z) (l : ProgramLocals)
  : ProgramLocals :=
  {| vertexFile := vertexFile l; fragmentFile := fragmentFile l;
     defines := defines l; vertexUniforms := vertexUniforms l;
     fragmentUniforms := <[k := v]> (fragmentUniforms l);
     vertexAttribs := vertexAttribs l;
     streamFlags := streamFlags l; events := events l |}.

Definition set_vertexAttrib (k : string) (v : Z) (l : ProgramLocals)
  : ProgramLocals :=
  {| vertexFile := vertexFile l; fragmentFile := fragmentFile l;
     defines := defines l; vertexUniforms := vertexUniforms l;
     fragmentUniforms := fragmentUniforms l;
     vertexAttribs := <[k := v]> (vertexAttribs l);
     streamFlags := streamFlags l; events := events l |}.

(** [streamFlags |= flag]. *)
Definition or_streamFlags (flag : Z) (l : ProgramLocals) : ProgramLocals :=
  {| vertexFile := vertexFile l; fragmentFile := fragmentFile l;
     defines := defines l; vertexUniforms := vertexUniforms l;
     fragmentUniforms := fragmentUniforms l; vertexAttribs := vertexAttribs l;
     streamFlags := Z.lor (streamFlags l) flag; events := events l |}.

(** [!cond.empty() && !preprocessor.TestConditional(cond)]: whether the
    parameter is skipped; the preprocessor is asked only for a condition
    that is not empty. *)
Definition ParamSkipped (baseDefines : CShaderDefines) (cond : string)
  : bool * list Event :=
  if negb (empty cond)
  then (negb (TestConditional baseDefines cond), [EvTestConditional cond])
  else (false, []).

(** The stream names of a [stream] element. *)
Definition StreamParam (StreamName : string) (l : ProgramLocals) : ProgramLocals :=
  if String.eqb StreamName "pos" then or_streamFlags STREAM_POS l
  else if String.eqb StreamName "normal" then or_streamFlags STREAM_NORMAL l
  else if String.eqb StreamName "color" then or_streamFlags STREAM_COLOR l
  else if String.eqb StreamName "uv0" then or_streamFlags STREAM_UV0 l
  else if String.eqb StreamName "uv1" then or_streamFlags STREAM_UV1 l
  else if String.eqb StreamName "uv2" then or_streamFlags STREAM_UV2 l
  else if String.eqb StreamName "uv3" then or_streamFlags STREAM_UV3 l
  else l.

(** One iteration of [XERO_ITER_EL(Child, Param)] under [vertex]. *)
Definition VertexParam (baseDefines : CShaderDefines) (Param : XMBElement)
    (l : ProgramLocals) : ProgramLocals :=
  let Attrs := GetAttributes Param in
  let skip := ParamSkipped baseDefines (GetNamedItem Attrs "if") in
  let l := add_events skip.2 l in
  if skip.1 then l
  else if String.eqb (GetNodeName Param) "uniform"
  then set_vertexUniform (GetNamedItem Attrs "name")
                         (ToInt (GetNamedItem Attrs "loc")) l
  else if String.eqb (GetNodeName Param) "stream"
  then StreamParam (GetNamedItem Attrs "name") l
  else if String.eqb (GetNodeName Param) "attrib"
  then
    let attribLoc := ParseAttribSemantics (GetNamedItem Attrs "semantics") in
    set_vertexAttrib (GetNamedItem Attrs "name") attribLoc.1
                     (add_events attribLoc.2 l)
  else l.

(** The texture target of a fragment uniform of type [t]: it starts as
    [GL_TEXTURE_2D] and is changed by the branch that matches, if any. *)
Definition SamplerType (t : string) : Z * list Event :=
  if String.eqb t "sampler1D"
  then if CONFIG2_GLES
       then (GL_TEXTURE_2D, [EvDebugWarn "sampler1D not implemented on GLES"])
       else (GL_TEXTURE_1D, [])
  else if String.eqb t "sampler2D" then (GL_TEXTURE_2D, [])
  else if String.eqb t "sampler3D"
  then if CONFIG2_GLES
       then (GL_TEXTURE_2D, [EvDebugWarn "sampler3D not implemented on GLES"])
       else (GL_TEXTURE_3D, [])
  else if String.eqb t "samplerCube" then (GL_TEXTURE_CUBE_MAP, [])
  else (GL_TEXTURE_2D, []).

(** One iteration of [XERO_ITER_EL(Child, Param)] under [fragment]. *)
Definition FragmentParam (baseDefines : CShaderDefines) (Param : XMBElement)
    (l : ProgramLocals) : ProgramLocals :=
  let Attrs := GetAttributes Param in
  let skip := ParamSkipped baseDefines (GetNamedItem Attrs "if") in
  let l := add_events skip.2 l in
  if skip.1 then l
  else if String.eqb (GetNodeName Param) "uniform"
  then
    let type := SamplerType (GetNamedItem Attrs "type") in
    set_fragmentUniform (GetNamedItem Attrs "name")
                        (ToInt (GetNamedItem Attrs "loc"), type.1)
                        (add_events type.2 l)
  else l.

(** One iteration of [XERO_ITER_EL(root, Child)]. *)
Definition RootChild (baseDefines : CShaderDefines) (Child : XMBElement)
    (l : ProgramLocals) : ProgramLocals :=
  if String.eqb (GetNodeName Child) "define"
  then set_defines (AddDefineElement Child) l
  else if String.eqb (GetNodeName Child) "vertex"
  then
    let l := set_vertexFile
               ("shaders/" +:+ GetNamedItem (GetAttributes Child) "file") l in
    fold_left (λ l Param, VertexParam baseDefines Param l) (GetChildNodes Child) l
  else if String.eqb (GetNodeName Child) "fragment"
  then
    let l := set_fragmentFile
               ("shaders/" +:+ GetNamedItem (GetAttributes Child) "file") l in
    fold_left (λ l Param, FragmentParam baseDefines Param l) (GetChildNodes Child) l
  else l.

Definition ProgramLocalsInit (baseDefines : CShaderDefines) : ProgramLocals :=
  {| vertexFile := ""; fragmentFile := ""; defines := baseDefines;
     vertexUniforms := ∅; fragmentUniforms := ∅; vertexAttribs := ∅;
     streamFlags := 0; events := [] |}.

(** The walk over the whole program description. *)
Definition ParseProgram (baseDefines : CShaderDefines) (root : XMBElement)
  : ProgramLocals :=
  fold_left (λ l Child, RootChild baseDefines Child l) (GetChildNodes root)
            (ProgramLocalsInit baseDefines).

(** The object built once the document is read. *)
Definition ConstructProgram (root : XMBElement) (l : ProgramLocals)
  : CShaderProgram :=
  if String.eqb (GetNamedItem (GetAttributes root) "type") "glsl"
  then ConstructGLSL (vertexFile l) (fragmentFile l) (defines l)
                     (vertexAttribs l) (streamFlags l)
  else ConstructARB (vertexFile l) (fragmentFile l) (defines l)
                    (vertexUniforms l) (fragmentUniforms l) (streamFlags l).

(** The loop [for (path : program->GetFileDependencies())]. *)
Fixpoint AddProgramFileDependencies (program : nat) (paths : list string)
  : M unit :=
  match paths with
  | [] => ret tt
  | path :: rest =>
      AddProgramFileDependency program path;;
      AddProgramFileDependencies program rest
  end.

(** [NewProgram]: its result, and the program it leaves in its third
    argument. *)
Definition NewProgram (name : string) (baseDefines : CShaderDefines)
  : M (bool * CShaderProgramPtr) :=
  let xmlFilename := "shaders/" +:+ name +:+ ".xml" in
  ret_ <- XeroFile_Load xmlFilename;;
  match ret_ with
  | None => ret (false, None)
  | Some root =>
      emit (EvValidateEncoded name);;
      if negb (ValidateEncoded name root) then ret (false, None)
      else
        let l := ParseProgram baseDefines root in
        emits (events l);;
        let obj := ConstructProgram root l in
        program <- new_CShaderProgram obj;;
        Reload program;;
        AddProgramFileDependencies program (GetFileDependencies obj);;
        ret (true, Some program)
  end.

Definition LoadProgram (name : string) (defines : CShaderDefines)
  : M CShaderProgramPtr :=
  let key := {| ck_name := name; ck_defines := defines |} in
  it <- gets (λ w, m_ProgramCache w !! key);;
  match it with
  | Some second => ret second
  | None =>
      r <- NewProgram name defines;;
      program <- (if negb r.1
                  then LOGERROR ("Failed to load shader '" +:+ name +:+ "'");;
                       ret None
                  else ret r.2);;
      modify (set_ProgramCache <[key := program]>);;
      ret program
  end.

(** *** Cache keys of effects *)

(** [EffectCacheKeyHash::operator()]. *)
Definition EffectCacheKeyHash (key : EffectCacheKey) : Z :=
  let hash := 0 in
  let hash := hash_combine hash (CStrIntern_GetHash (ek_name key)) in
  let hash := hash_combine hash (CShaderDefines_GetHash (ek_defines key)) in
  hash.

(** *** Effects *)

(** The test of one [require] child: whether it leaves [isUsable] alone,
    and what it asks the outside. *)
Definition RequireHolds (baseDefines : CShaderDefines)
    (Attrs : list (string * string)) : bool * list Event :=
  if String.eqb (GetNamedItem Attrs "shaders") "arb"
  then
    if bool_decide (GetBackend ≠ GL_ARB) then (false, [EvGetBackend])
    else if negb ARBShaders then (false, [EvGetBackend; EvGetCapabilities])
    else (true, [EvGetBackend; EvGetCapabilities])
  else if String.eqb (GetNamedItem Attrs "shaders") "glsl"
  then (bool_decide (GetBackend = GL), [EvGetBackend])
  else if negb (empty (GetNamedItem Attrs "context"))
  then
    let cond := GetNamedItem Attrs "context" in
    (TestConditional baseDefines cond, [EvTestConditional cond])
  else (true, []).

(** One iteration of [XERO_ITER_EL(Technique, Child)] in the search for
    usable techniques; the state is [isUsable] and the outside calls. *)
Definition UsableChild (baseDefines : CShaderDefines) (Child : XMBElement)
    (acc : bool * list Event) : bool * list Event :=
  if String.eqb (GetNodeName Child) "require"
  then
    let r := RequireHolds baseDefines (GetAttributes Child) in
    (acc.1 && r.1, acc.2 ++ r.2)
  else acc.

Definition TechniqueUsable (baseDefines : CShaderDefines)
    (Technique : XMBElement) : bool * list Event :=
  fold_left (λ acc Child, UsableChild baseDefines Child acc)
            (GetChildNodes Technique) (true, []).

(** The loop [XERO_ITER_EL(Root, Technique)]: [usableTechs] and the outside
    calls. *)
Definition UsableTechs (baseDefines : CShaderDefines)
    (Techniques : list XMBElement) : list XMBElement * list Event :=
  fold_left
    (λ acc Technique,
       let u := TechniqueUsable baseDefines Technique in
       (if u.1 then acc.1 ++ [Technique] else acc.1, acc.2 ++ u.2))
    Techniques ([], []).

(** The first loop over the chosen technique: [techDefines], and whether
    [SetSortByDistance(true)] was called. *)
Definition TechChild (Child : XMBElement) (acc : CShaderDefines * bool)
  : CShaderDefines * bool :=
  if String.eqb (GetNodeName Child) "define"
  then (AddDefineElement Child acc.1, acc.2)
  else if String.eqb (GetNodeName Child) "sort_by_distance"
  then (acc.1, true)
  else acc.

Definition TechDefines (baseDefines : CShaderDefines) (Children : list XMBElement)
  : CShaderDefines * bool :=
  fold_left (λ acc Child, TechChild Child acc) Children (baseDefines, false).

(** The second loop over the chosen technique: the passes. *)
Fixpoint TechPasses (techDefines : CShaderDefines) (Children : list XMBElement)
    (techPasses : list CShaderPass) : M (list CShaderPass) :=
  match Children with
  | [] => ret techPasses
  | Child :: rest =>
      if String.eqb (GetNodeName Child) "pass"
      then
        let pass := BuildPass techDefines Child in
        emits (EvLOGERROR <$> passLog pass);;
        program <- LoadProgram (GetNamedItem (GetAttributes Child) "shader")
                               (passDefines pass);;
        TechPasses techDefines rest
          (techPasses ++ [{| pipelineStateDesc := passPipelineStateDesc pass;
                             shader := program |}])
      else TechPasses techDefines rest techPasses
  end.

(** The part of [NewEffect] that follows the choice of [usableTechs[0]]:
    the two loops over its children and [SetPasses]. *)
Definition BuildTechnique (baseDefines : CShaderDefines) (tech : nat)
    (usableTechs_0 : XMBElement) : M bool :=
  let t := TechDefines baseDefines (GetChildNodes usableTechs_0) in
  (if t.2 then SetSortByDistance tech true else ret tt);;
  techPasses <- TechPasses t.1 (GetChildNodes usableTechs_0) [];;
  SetPasses tech techPasses;;
  ret true.

(** [NewEffect], filling the technique object [tech]. *)
Definition NewEffect (name : string) (baseDefines : CShaderDefines) (tech : nat)
  : M bool :=
  let xmlFilename := "shaders/effects/" +:+ name +:+ ".xml" in
  ret_ <- XeroFile_Load xmlFilename;;
  match ret_ with
  | None => ret false
  | Some Root =>
      let usable := UsableTechs baseDefines (GetChildNodes Root) in
      emits usable.2;;
      match usable.1 with
      | [] => debug_warn "Can't find a usable technique";; ret false
      | usableTechs_0 :: _ => BuildTechnique baseDefines tech usableTechs_0
      end
  end.

Definition LoadEffect (name : string) (defines : CShaderDefines)
  : M CShaderTechniquePtr :=
  let key := {| ek_name := name; ek_defines := defines |} in
  it <- gets (λ w, m_EffectCache w !! key);;
  match it with
  | Some second => ret second
  | None =>
      tech <- new_CShaderTechnique;;
      ok <- NewEffect name defines tech;;
      tech <- (if negb ok
               then LOGERROR ("Failed to load effect '" +:+ name +:+ "'");;
                    ret None
               else ret (Some tech));;
      modify (set_EffectCache <[key := tech]>);;
      ret tech
  end.

(** [LoadEffect(name)], with no defines. *)
Definition LoadEffect_1 (name : string) : M CShaderTechniquePtr :=
  LoadEffect name ∅.

(** [GetNumEffectsLoaded]. *)
Definition GetNumEffectsLoaded : M nat := gets (λ w, size (m_EffectCache w)).


(** *** The users of the manager *)

Definition is_tag (tag : string) (e : XMBElement) : bool :=
  String.eqb (GetNodeName e) tag.


(** The last owner of a program lets go of it: weak references to it no
    longer resolve. *)
Definition DestroyProgram (program : nat) : M unit :=
  modify (set_expired (λ e, {[program]} ∪ e)).

(** A call of the public interface, and a run of such calls. *)
Inductive Call : Type :=
| CallLoadProgram (name : string) (defines : CShaderDefines)
| CallLoadEffect (name : string) (defines : CShaderDefines)
| CallReloadChangedFile (path : string).

Definition call (c : Call) (w : State) : State :=
  match c with
  | CallLoadProgram name defines => (LoadProgram name defines w).2
  | CallLoadEffect name defines => (LoadEffect name defines w).2
  | CallReloadChangedFile path => (ReloadChangedFile path w).2
  end.

Definition run (calls : list Call) (w : State) : State :=
  fold_left (λ w c, call c w) calls w.

(** How often [program] is reloaded in a trace. *)
Definition reloads_of (program : nat) (evs : list Event) : nat :=
  length (filter (λ e, e = EvReload program) evs).

(** The errors logged in a trace. *)
Definition errors_of (evs : list Event) : list Event :=
  List.filter (λ e, match e with EvLOGERROR _ => true | _ => false end) evs.

(** A define set made by a sequence of [Add] calls. *)
Definition AddAll (adds : list (string * string)) (defines : CShaderDefines)
  : CShaderDefines :=
  fold_left (λ d p, Add p.1 p.2 d) adds defines.

(** The name/value pairs of the [define] children, in document order. *)
Definition define_pairs (Children : list XMBElement) : list (string * string) :=
  (λ e, (GetNamedItem (GetAttributes e) "name",
         GetNamedItem (GetAttributes e) "value"))
    <$> List.filter (is_tag "define") Children.

(** The value the last [Add] of [n] in a sequence gives it, if any. *)
Fixpoint last_binding (n : string) (adds : list (string * string))
  : option string :=
  match adds with
  | [] => None
  | (n', v) :: rest =>
      match last_binding n rest with
      | Some v' => Some v'
      | None => if String.eqb n' n then Some v else None
      end
  end.

(** The semantics [ParseAttribSemantics] knows. *)
Definition known_semantics : list string :=
  ["gl_Vertex"; "gl_Normal"; "gl_Color"; "gl_SecondaryColor"; "gl_FogCoord";
   "gl_MultiTexCoord0"; "gl_MultiTexCoord1"; "gl_MultiTexCoord2";
   "gl_MultiTexCoord3"; "gl_MultiTexCoord4"; "gl_MultiTexCoord5";
   "gl_MultiTexCoord6"; "gl_MultiTexCoord7";
   "CustomAttribute0"; "CustomAttribute1"; "CustomAttribute2"].

(** The sampler types [NewProgram] knows. *)
Definition known_samplers : list string :=
  ["sampler1D"; "sampler2D"; "sampler3D"; "samplerCube"].

(** *** What the markup of a pass says *)

Definition has_attr (tag attr : string) (e : XMBElement) : bool :=
  String.eqb (GetNodeName e) tag &&
  negb (empty (GetNamedItem (GetAttributes e) attr)).

(** The pass has a child element named [tag]. *)
Definition markup_tag (tag : string) (Elements : list XMBElement) : bool :=
  existsb (is_tag tag) Elements.

(** The pass has a child element named [tag] that carries a non-empty
    attribute [attr]. *)
Definition markup_attr (tag attr : string) (Elements : list XMBElement) : bool :=
  existsb (has_attr tag attr) Elements.

(** The element is one of the six state-override tags. *)
Definition is_state_tag (e : XMBElement) : bool :=
  is_tag "blend" e || is_tag "color" e || is_tag "cull" e ||
  is_tag "depth" e || is_tag "polygon" e || is_tag "stencil" e.

(** The contribution of one channel of a [color] element to the mask. *)
Definition channel (Element : XMBElement) (ATTRIBUTE : string) (VALUE : Z) : Z :=
  if String.eqb (GetNamedItem (GetAttributes Element) ATTRIBUTE) "TRUE"
  then VALUE else 0.

(** *** What a program object was made from *)

Definition program_defines (program : CShaderProgram) : CShaderDefines :=
  match program with
  | ConstructGLSL _ _ defines _ _ => defines
  | ConstructARB _ _ defines _ _ _ => defines
  end.

Definition program_streamFlags (program : CShaderProgram) : Z :=
  match program with
  | ConstructGLSL _ _ _ _ streamFlags => streamFlags
  | ConstructARB _ _ _ _ _ streamFlags => streamFlags
  end.

(** All the stream flags together. *)
Definition STREAM_ALL : Z :=
  Z.lor STREAM_POS
    (Z.lor STREAM_NORMAL
       (Z.lor STREAM_COLOR
          (Z.lor STREAM_UV0 (Z.lor STREAM_UV1 (Z.lor STREAM_UV2 STREAM_UV3))))).

(** *** The objects behind the handles *)

(** Every handle the manager holds names an object that exists: the cached
    programs and techniques, the programs of the passes of every technique,
    and the dependents of every file. *)
Definition handles_valid (w : State) : Prop :=
  (∀ k p, m_ProgramCache w !! k = Some (Some p) →
          (p < length (programs w))%nat) ∧
  (∀ k t, m_EffectCache w !! k = Some (Some t) →
          (t < length (techniques w))%nat) ∧
  (∀ t tech pass p,
     techniques w !! t = Some tech → pass ∈ passes tech → shader pass = Some p →
     (p < length (programs w))%nat) ∧
  (∀ path dependents p,
     m_HotloadFiles w !! path = Some dependents → p ∈ dependents →
     (p < length (programs w))%nat).

(** No object is cached under two keys. *)
Definition handles_unshared (w : State) : Prop :=
  (∀ k1 k2 p, m_ProgramCache w !! k1 = Some (Some p) →
              m_ProgramCache w !! k2 = Some (Some p) → k1 = k2) ∧
  (∀ k1 k2 t, m_EffectCache w !! k1 = Some (Some t) →
              m_EffectCache w !! k2 = Some (Some t) → k1 = k2).

(** What a call may do to the objects and the trace: add at the end. *)
Definition grows (w w' : State) : Prop :=
  programs w `prefix_of` programs w' ∧
  techniques w `prefix_of` techniques w' ∧
  trace w `prefix_of` trace w' ∧
  expired w' = expired w.

(** What [LoadProgram] leaves alone. *)
Definition program_frame (w w' : State) : Prop :=
  programs w `prefix_of` programs w' ∧
  trace w `prefix_of` trace w' ∧
  techniques w' = techniques w ∧
  expired w' = expired w ∧
  m_EffectCache w' = m_EffectCache w.

(** *** What a technique holds *)

(** The key [LoadProgram] is called with for the pass element [Child] of a
    technique whose defines are [techDefines]. *)
Definition pass_key (techDefines : CShaderDefines) (Child : XMBElement)
  : CacheKey :=
  {| ck_name := GetNamedItem (GetAttributes Child) "shader";
     ck_defines := passDefines (BuildPass techDefines Child) |}.

(** The pass [pass] is what the pass element [Child] resolves to in [w]:
    its pipeline state is the one built from the element, and its program
    is the one cached under the key of the element. *)
Definition pass_of (techDefines : CShaderDefines) (w : State)
    (Child : XMBElement) (pass : CShaderPass) : Prop :=
  pipelineStateDesc pass = passPipelineStateDesc (BuildPass techDefines Child) ∧
  m_ProgramCache w !! pass_key techDefines Child = Some (shader pass).

(** The two faces of the stencil state agree, and so do the colour and the
    alpha side of the blend state. *)
Definition symmetric (d : GraphicsPipelineStateDesc) : Prop :=
  stencilFrontFace (depthStencilState d) = stencilBackFace (depthStencilState d) ∧
  srcColorBlendFactor (blendState d) = srcAlphaBlendFactor (blendState d) ∧
  dstColorBlendFactor (blendState d) = dstAlphaBlendFactor (blendState d) ∧
  colorBlendOp (blendState d) = alphaBlendOp (blendState d).

(** The element is a [require] child that asks for the shaders [kind]. *)
Definition requires (kind : string) (c : XMBElement) : bool :=
  is_tag "require" c &&
  String.eqb (GetNamedItem (GetAttributes c) "shaders") kind.

(** The messages the [blend] elements of a pass can log. *)
Definition blend_messages (Elements : list XMBElement) : list string :=
  (λ e, "Failed to parse blend constant: "
        +:+ GetNamedItem (GetAttributes e) "constant")
  <$> List.filter (has_attr "blend" "constant") Elements.

(** The document [root] without its [define] children. *)
Definition without_defines (root : XMBElement) : XMBElement :=
  MkElement (GetNodeName root) (GetAttributes root)
            (List.filter (λ c, negb (is_tag "define" c)) (GetChildNodes root)).

(** The texture targets a fragment uniform can get. *)
Definition sampler_targets : list Z :=
  if CONFIG2_GLES then [GL_TEXTURE_2D; GL_TEXTURE_CUBE_MAP]
  else [GL_TEXTURE_1D; GL_TEXTURE_2D; GL_TEXTURE_3D; GL_TEXTURE_CUBE_MAP].

(** *** What the program cache stands for *)

(** The description of the program [name], when it loads and validates. *)
Definition description (name : string) : option XMBElement :=
  match g_VFS ("shaders/" +:+ name +:+ ".xml") with
  | Some root => if ValidateEncoded name root then Some root else None
  | None => None
  end.

(** The handle [second] is what a load of [key] gives: the null handle when
    there is no description, and else a program constructed from the
    description with the defines of the key. *)
Definition loaded_as (w : State) (key : CacheKey) (second : CShaderProgramPtr)
  : Prop :=
  match description (ck_name key), second with
  | Some root, Some p =>
      programs w !! p
      = Some (ConstructProgram root (ParseProgram (ck_defines key) root))
  | None, None => True
  | _, _ => False
  end.

Definition cache_coherent (w : State) : Prop :=
  ∀ key second, m_ProgramCache w !! key = Some second → loaded_as w key second.

(** *** Fatal diagnostics *)

(** What a call of the interface comes to: it returns, with a result and a
    state, or the process stops inside [debug_warn], with the diagnostic
    and the outside calls made until then. *)
Inductive Outcome (A : Type) : Type :=
| Returns (a : A) (w : State)
| Aborts (diagnostic : string) (before : list Event).

Arguments Returns {A} a w.
Arguments Aborts {A} diagnostic before.

(** The diagnostic of a call of [debug_warn] that does not come back. *)
Definition fatal_event (e : Event) : option string :=
  match e with
  | EvDebugWarn msg => if debug_warn_fatal msg then Some msg else None
  | _ => None
  end.

(** The first fatal diagnostic among outside calls, and the calls before
    it. *)
Fixpoint first_fatal (evs : list Event) : option (list Event * string) :=
  match evs with
  | [] => None
  | e :: rest =>
      match fatal_event e with
      | Some msg => Some ([], msg)
      | None =>
          match first_fatal rest with
          | Some (before, msg) => Some (e :: before, msg)
          | None => None
          end
      end
  end.

(** The outcome of [c] from the state [w]: the outside calls that [c] adds
    to the trace are made in order, up to the first fatal diagnostic. *)
Definition outcome {A : Type} (c : M A) (w : State) : Outcome A :=
  let r := c w in
  match first_fatal (drop (length (trace w)) (trace r.2)) with
  | Some (before, msg) => Aborts msg (trace w ++ before)
  | None => Returns r.1 r.2
  end.

(** The table of fragment uniforms a program object was made from; the
    GLSL constructor is not given one. *)
Definition program_fragmentUniforms (program : CShaderProgram)
  : option (gmap string (Z * Z)) :=
  match program with
  | ConstructGLSL _ _ _ _ _ => None
  | ConstructARB _ _ _ _ fragmentUniforms _ => Some fragmentUniforms
  end.

(** The constants of the [blend] elements of a pass, parsed in document
    order into the colour [c]: the colour that is left, and the errors that
    are logged on the way.  Each constant is parsed into the colour the
    constants before it left. *)
Fixpoint blend_constants (c : CColor) (Elements : list XMBElement)
  : CColor * list string :=
  match Elements with
  | [] => (c, [])
  | e :: rest =>
      if has_attr "blend" "constant" e
      then
        let r := ParseString c (GetNamedItem (GetAttributes e) "constant") in
        let later := blend_constants r.2 rest in
        (later.1,
         (if r.1 then []
          else ["Failed to parse blend constant: "
                +:+ GetNamedItem (GetAttributes e) "constant"])
         ++ later.2)
      else blend_constants c rest
  end.

(** ** Properties *)

Lemma empty_true (s : string) : empty s = true ↔ s = "".
Proof. destruct s; simpl; split; congruence. Qed.

Lemma empty_false (s : string) : empty s = false ↔ s ≠ "".
Proof. destruct s; simpl; split; congruence. Qed.

(** *** The pipeline state of a pass *)

Lemma PassElements_app (l1 l2 : list XMBElement) (s : PassState) :
  PassElements (l1 ++ l2) s = PassElements l2 (PassElements l1 s).
Proof. apply fold_left_app. Qed.

Lemma PassElements_cons (e : XMBElement) (l : list XMBElement) (s : PassState) :
  PassElements (e :: l) s = PassElements l (PassElement e s).
Proof. reflexivity. Qed.

(** A field that no element of the list writes keeps its value through the
    loop. *)
Lemma PassElements_frame {A : Type} (π : GraphicsPipelineStateDesc → A)
    (touch : XMBElement → bool) :
  (∀ e s, touch e = false →
          π (passPipelineStateDesc (PassElement e s))
          = π (passPipelineStateDesc s)) →
  ∀ Elements s, existsb touch Elements = false →
    π (passPipelineStateDesc (PassElements Elements s))
    = π (passPipelineStateDesc s).
Proof.
  intros Hstep Elements. induction Elements as [|e l IH]; intros s H.
  - reflexivity.
  - simpl in H. apply orb_false_iff in H as [He Hl].
    rewrite PassElements_cons, IH by exact Hl. by apply Hstep.
Qed.

(** A conditional assignment to a field that [π] does not read. *)
Lemma if_frame {A : Type} (π : GraphicsPipelineStateDesc → A) (b : bool)
    (f : GraphicsPipelineStateDesc → GraphicsPipelineStateDesc)
    (x : GraphicsPipelineStateDesc) :
  (b = true → ∀ y, π (f y) = π y) → π (if b then f x else x) = π x.
Proof. destruct b; auto. Qed.

(** Closes the one-element case of a frame property by running through
    the branches of [PassElement]; the eight conditional assignments of
    the stencil branch are peeled off one at a time. *)
Ltac frame_stencil π H :=
  unfold PassElement_stencil, with_desc;
  cbn [passPipelineStateDesc]; cbv zeta;
  repeat (etransitivity;
          [ apply (if_frame π);
            let Hb := fresh "Hb" in
            intros Hb ?; first [ reflexivity | rewrite Hb in H; done ]
          | ]);
  reflexivity.

Ltac frame_step π :=
  let e := fresh "e" in let s := fresh "s" in let H := fresh "H" in
  intros e s H;
  unfold is_tag, has_attr in H;
  unfold PassElement;
  repeat case_match;
  repeat match goal with
         | Heq : String.eqb _ _ = _ |- _ => rewrite Heq in H
         end;
  simpl in H; try done;
  first
    [ frame_stencil π H
    | unfold PassElement_blend, PassElement_color, PassElement_cull,
        PassElement_depth, PassElement_polygon, MASK_CHANNEL;
      repeat case_match; simpl in *; done ].

Ltac frame π touch :=
  apply (PassElements_frame π touch); [frame_step π | assumption].

Section Frame.
Local Abbreviation Desc := GraphicsPipelineStateDesc.
Variables (Elements : list XMBElement) (s : PassState).
Let d := passPipelineStateDesc (PassElements Elements s).
Let d0 := passPipelineStateDesc s.

Lemma frame_blend_tag :
  markup_tag "blend" Elements = false →
  enabled (blendState d) = enabled (blendState d0) ∧
  srcColorBlendFactor (blendState d) = srcColorBlendFactor (blendState d0) ∧
  srcAlphaBlendFactor (blendState d) = srcAlphaBlendFactor (blendState d0) ∧
  dstColorBlendFactor (blendState d) = dstColorBlendFactor (blendState d0) ∧
  dstAlphaBlendFactor (blendState d) = dstAlphaBlendFactor (blendState d0).
Proof.
  unfold markup_tag, d, d0. intros H. repeat split.
  - frame (λ x : Desc, enabled (blendState x))
          (is_tag "blend").
  - frame (λ x : Desc, srcColorBlendFactor (blendState x))
          (is_tag "blend").
  - frame (λ x : Desc, srcAlphaBlendFactor (blendState x))
          (is_tag "blend").
  - frame (λ x : Desc, dstColorBlendFactor (blendState x))
          (is_tag "blend").
  - frame (λ x : Desc, dstAlphaBlendFactor (blendState x))
          (is_tag "blend").
Qed.

Lemma frame_blend_op :
  markup_attr "blend" "op" Elements = false →
  colorBlendOp (blendState d) = colorBlendOp (blendState d0) ∧
  alphaBlendOp (blendState d) = alphaBlendOp (blendState d0).
Proof.
  unfold markup_attr, d, d0. intros H. split.
  - frame (λ x : Desc, colorBlendOp (blendState x))
          (has_attr "blend" "op").
  - frame (λ x : Desc, alphaBlendOp (blendState x))
          (has_attr "blend" "op").
Qed.

Lemma frame_blend_constant :
  markup_attr "blend" "constant" Elements = false →
  constant (blendState d) = constant (blendState d0).
Proof.
  unfold markup_attr, d, d0. intros H.
  frame (λ x : Desc, constant (blendState x)) (has_attr "blend" "constant").
Qed.

Lemma frame_color_tag :
  markup_tag "color" Elements = false →
  colorWriteMask (blendState d) = colorWriteMask (blendState d0).
Proof.
  unfold markup_tag, d, d0. intros H.
  frame (λ x : Desc, colorWriteMask (blendState x)) (is_tag "color").
Qed.

Lemma frame_cull_mode :
  markup_attr "cull" "mode" Elements = false →
  cullMode (rasterizationState d) = cullMode (rasterizationState d0).
Proof.
  unfold markup_attr, d, d0. intros H.
  frame (λ x : Desc, cullMode (rasterizationState x)) (has_attr "cull" "mode").
Qed.

Lemma frame_cull_front_face :
  markup_attr "cull" "front_face" Elements = false →
  frontFace (rasterizationState d) = frontFace (rasterizationState d0).
Proof.
  unfold markup_attr, d, d0. intros H.
  frame (λ x : Desc, frontFace (rasterizationState x))
        (has_attr "cull" "front_face").
Qed.

Lemma frame_polygon_mode :
  markup_attr "polygon" "mode" Elements = false →
  polygonMode (rasterizationState d) = polygonMode (rasterizationState d0).
Proof.
  unfold markup_attr, d, d0. intros H.
  frame (λ x : Desc, polygonMode (rasterizationState x))
        (has_attr "polygon" "mode").
Qed.

Lemma frame_depth_test :
  markup_attr "depth" "test" Elements = false →
  depthTestEnabled (depthStencilState d) = depthTestEnabled (depthStencilState d0).
Proof.
  unfold markup_attr, d, d0. intros H.
  frame (λ x : Desc, depthTestEnabled (depthStencilState x))
        (has_attr "depth" "test").
Qed.

Lemma frame_depth_func :
  markup_attr "depth" "func" Elements = false →
  depthCompareOp (depthStencilState d) = depthCompareOp (depthStencilState d0).
Proof.
  unfold markup_attr, d, d0. intros H.
  frame (λ x : Desc, depthCompareOp (depthStencilState x))
        (has_attr "depth" "func").
Qed.

Lemma frame_depth_mask :
  markup_attr "depth" "mask" Elements = false →
  depthWriteEnabled (depthStencilState d)
  = depthWriteEnabled (depthStencilState d0).
Proof.
  unfold markup_attr, d, d0. intros H.
  frame (λ x : Desc, depthWriteEnabled (depthStencilState x))
        (has_attr "depth" "mask").
Qed.

Lemma frame_stencil_test :
  markup_attr "stencil" "test" Elements = false →
  stencilTestEnabled (depthStencilState d)
  = stencilTestEnabled (depthStencilState d0).
Proof.
  unfold markup_attr, d, d0. intros H.
  frame (λ x : Desc, stencilTestEnabled (depthStencilState x))
        (has_attr "stencil" "test").
Qed.

Lemma frame_stencil_reference :
  markup_attr "stencil" "reference" Elements = false →
  stencilReference (depthStencilState d)
  = stencilReference (depthStencilState d0).
Proof.
  unfold markup_attr, d, d0. intros H.
  frame (λ x : Desc, stencilReference (depthStencilState x))
        (has_attr "stencil" "reference").
Qed.

Lemma frame_stencil_mask_read :
  markup_attr "stencil" "mask_read" Elements = false →
  stencilReadMask (depthStencilState d) = stencilReadMask (depthStencilState d0).
Proof.
  unfold markup_attr, d, d0. intros H.
  frame (λ x : Desc, stencilReadMask (depthStencilState x))
        (has_attr "stencil" "mask_read").
Qed.

Lemma frame_stencil_mask :
  markup_attr "stencil" "mask" Elements = false →
  stencilWriteMask (depthStencilState d)
  = stencilWriteMask (depthStencilState d0).
Proof.
  unfold markup_attr, d, d0. intros H.
  frame (λ x : Desc, stencilWriteMask (depthStencilState x))
        (has_attr "stencil" "mask").
Qed.

Lemma frame_stencil_compare :
  markup_attr "stencil" "compare" Elements = false →
  compareOp (stencilFrontFace (depthStencilState d))
  = compareOp (stencilFrontFace (depthStencilState d0)) ∧
  compareOp (stencilBackFace (depthStencilState d))
  = compareOp (stencilBackFace (depthStencilState d0)).
Proof.
  unfold markup_attr, d, d0. intros H. split.
  - frame (λ x : Desc, compareOp (stencilFrontFace (depthStencilState x)))
          (has_attr "stencil" "compare").
  - frame (λ x : Desc, compareOp (stencilBackFace (depthStencilState x)))
          (has_attr "stencil" "compare").
Qed.

Lemma frame_stencil_fail :
  markup_attr "stencil" "fail" Elements = false →
  failOp (stencilFrontFace (depthStencilState d))
  = failOp (stencilFrontFace (depthStencilState d0)) ∧
  failOp (stencilBackFace (depthStencilState d))
  = failOp (stencilBackFace (depthStencilState d0)).
Proof.
  unfold markup_attr, d, d0. intros H. split.
  - frame (λ x : Desc, failOp (stencilFrontFace (depthStencilState x)))
          (has_attr "stencil" "fail").
  - frame (λ x : Desc, failOp (stencilBackFace (depthStencilState x)))
          (has_attr "stencil" "fail").
Qed.

Lemma frame_stencil_pass :
  markup_attr "stencil" "pass" Elements = false →
  passOp (stencilFrontFace (depthStencilState d))
  = passOp (stencilFrontFace (depthStencilState d0)) ∧
  passOp (stencilBackFace (depthStencilState d))
  = passOp (stencilBackFace (depthStencilState d0)).
Proof.
  unfold markup_attr, d, d0. intros H. split.
  - frame (λ x : Desc, passOp (stencilFrontFace (depthStencilState x)))
          (has_attr "stencil" "pass").
  - frame (λ x : Desc, passOp (stencilBackFace (depthStencilState x)))
          (has_attr "stencil" "pass").
Qed.

Lemma frame_stencil_depth_fail :
  markup_attr "stencil" "depth_fail" Elements = false →
  depthFailOp (stencilFrontFace (depthStencilState d))
  = depthFailOp (stencilFrontFace (depthStencilState d0)) ∧
  depthFailOp (stencilBackFace (depthStencilState d))
  = depthFailOp (stencilBackFace (depthStencilState d0)).
Proof.
  unfold markup_attr, d, d0. intros H. split.
  - frame (λ x : Desc, depthFailOp (stencilFrontFace (depthStencilState x)))
          (has_attr "stencil" "depth_fail").
  - frame (λ x : Desc, depthFailOp (stencilBackFace (depthStencilState x)))
          (has_attr "stencil" "depth_fail").
Qed.
End Frame.

(** An element that is not a state-override tag leaves the whole
    descriptor alone. *)
Lemma PassElements_desc_id (Elements : list XMBElement) (s : PassState) :
  existsb is_state_tag Elements = false →
  passPipelineStateDesc (PassElements Elements s) = passPipelineStateDesc s.
Proof.
  intros H.
  apply (PassElements_frame (λ x : GraphicsPipelineStateDesc, x) is_state_tag);
    [|done].
  clear. intros e s H. unfold is_state_tag, is_tag in H.
  unfold PassElement. repeat case_match; simpl in *; done.
Qed.

Lemma PassElement_depth_branch (Element : XMBElement) (s : PassState) :
  GetNodeName Element = "depth" →
  PassElement Element s = with_desc (PassElement_depth Element) s.
Proof. intros H. unfold PassElement. by rewrite H. Qed.

Lemma PassElement_stencil_branch (Element : XMBElement) (s : PassState) :
  GetNodeName Element = "stencil" →
  PassElement Element s = with_desc (PassElement_stencil Element) s.
Proof. intros H. unfold PassElement. by rewrite H. Qed.

Lemma PassElement_color_branch (Element : XMBElement) (s : PassState) :
  GetNodeName Element = "color" →
  PassElement Element s = with_desc (PassElement_color Element) s.
Proof. intros H. unfold PassElement. by rewrite H. Qed.

(** What a [color] element leaves in the mask, whatever it was before. *)
Lemma PassElement_color_mask (Element : XMBElement)
    (d : GraphicsPipelineStateDesc) :
  colorWriteMask (blendState (PassElement_color Element d))
  = Z.lor (Z.lor (Z.lor (channel Element "mask_red" RED)
                        (channel Element "mask_green" GREEN))
                 (channel Element "mask_blue" BLUE))
          (channel Element "mask_alpha" ALPHA).
Proof.
  unfold PassElement_color, MASK_CHANNEL, channel.
  repeat case_match; simpl; rewrite ?Z.lor_0_r, ?Z.lor_0_l; reflexivity.
Qed.

Lemma PassElement_blend_branch (Element : XMBElement) (s : PassState) :
  GetNodeName Element = "blend" →
  PassElement Element s = PassElement_blend Element s.
Proof. intros H. unfold PassElement. by rewrite H. Qed.

(** What a [blend] element leaves in the enabled flag and the factors,
    whatever they were before and whatever attributes it has. *)
Lemma PassElement_blend_sets (Element : XMBElement) (s : PassState) :
  let b := blendState (passPipelineStateDesc (PassElement_blend Element s)) in
  let at_ := GetNamedItem (GetAttributes Element) in
  enabled b = true ∧
  srcColorBlendFactor b = ParseBlendFactor (at_ "src") ∧
  srcAlphaBlendFactor b = ParseBlendFactor (at_ "src") ∧
  dstColorBlendFactor b = ParseBlendFactor (at_ "dst") ∧
  dstAlphaBlendFactor b = ParseBlendFactor (at_ "dst").
Proof.
  unfold PassElement_blend, with_desc, LOGERROR_pass. cbv zeta.
  repeat case_match; done.
Qed.

(** C4 (as the code has it): the descriptor of a pass starts as the
    engine-wide default, and a field keeps the default value whenever the
    markup of the pass has nothing that writes it: no state tag at all
    leaves the whole descriptor at the default; without a [blend] tag the
    enabled flag and the four factors are the default's, without a
    non-empty [op] or [constant] attribute on a [blend] tag so are the
    blend ops and the constant; without a [color] tag the write mask;
    without a non-empty [mode] / [front_face] on a [cull] tag the cull
    mode / the winding; without a non-empty [mode] on a [polygon] tag the
    fill mode; without a non-empty [test] / [func] / [mask] on a [depth]
    tag the depth test, compare op and write flag; without a non-empty
    [test] / [reference] / [mask_read] / [mask] / [compare] / [fail] /
    [pass] / [depth_fail] on a [stencil] tag the corresponding stencil
    field, on both faces.  In particular a pass whose only child is a
    [depth] element with only a [test] attribute has the default
    rasterization state, blend state and stencil state, and the default
    depth compare op and write flag.  The two tags that write without
    being asked by an attribute are stated as they are: after the last
    [blend] element of a pass blending is enabled and the source and
    destination factors, colour and alpha, are what [ParseBlendFactor]
    makes of its [src] and [dst] attributes, absent or not; and after the
    last [color] element the write mask is the union of the channels whose
    attribute on that element equals TRUE, so that a channel without an
    attribute is disabled. *)
Theorem C4_sparse_overrides (techDefines : CShaderDefines) (Child : XMBElement) :
  let Elements := GetChildNodes Child in
  let d := passPipelineStateDesc (BuildPass techDefines Child) in
  let d0 := MakeDefaultGraphicsPipelineStateDesc in
  let ds := depthStencilState d in
  let ds0 := depthStencilState d0 in
  (existsb is_state_tag Elements = false → d = d0) ∧
  (markup_tag "blend" Elements = false →
     enabled (blendState d) = enabled (blendState d0) ∧
     srcColorBlendFactor (blendState d) = srcColorBlendFactor (blendState d0) ∧
     srcAlphaBlendFactor (blendState d) = srcAlphaBlendFactor (blendState d0) ∧
     dstColorBlendFactor (blendState d) = dstColorBlendFactor (blendState d0) ∧
     dstAlphaBlendFactor (blendState d) = dstAlphaBlendFactor (blendState d0)) ∧
  (markup_attr "blend" "op" Elements = false →
     colorBlendOp (blendState d) = colorBlendOp (blendState d0) ∧
     alphaBlendOp (blendState d) = alphaBlendOp (blendState d0)) ∧
  (markup_attr "blend" "constant" Elements = false →
     constant (blendState d) = constant (blendState d0)) ∧
  (markup_tag "color" Elements = false →
     colorWriteMask (blendState d) = colorWriteMask (blendState d0)) ∧
  (markup_attr "cull" "mode" Elements = false →
     cullMode (rasterizationState d) = cullMode (rasterizationState d0)) ∧
  (markup_attr "cull" "front_face" Elements = false →
     frontFace (rasterizationState d) = frontFace (rasterizationState d0)) ∧
  (markup_attr "polygon" "mode" Elements = false →
     polygonMode (rasterizationState d) = polygonMode (rasterizationState d0)) ∧
  (markup_attr "depth" "test" Elements = false →
     depthTestEnabled ds = depthTestEnabled ds0) ∧
  (markup_attr "depth" "func" Elements = false →
     depthCompareOp ds = depthCompareOp ds0) ∧
  (markup_attr "depth" "mask" Elements = false →
     depthWriteEnabled ds = depthWriteEnabled ds0) ∧
  (markup_attr "stencil" "test" Elements = false →
     stencilTestEnabled ds = stencilTestEnabled ds0) ∧
  (markup_attr "stencil" "reference" Elements = false →
     stencilReference ds = stencilReference ds0) ∧
  (markup_attr "stencil" "mask_read" Elements = false →
     stencilReadMask ds = stencilReadMask ds0) ∧
  (markup_attr "stencil" "mask" Elements = false →
     stencilWriteMask ds = stencilWriteMask ds0) ∧
  (markup_attr "stencil" "compare" Elements = false →
     compareOp (stencilFrontFace ds) = compareOp (stencilFrontFace ds0) ∧
     compareOp (stencilBackFace ds) = compareOp (stencilBackFace ds0)) ∧
  (markup_attr "stencil" "fail" Elements = false →
     failOp (stencilFrontFace ds) = failOp (stencilFrontFace ds0) ∧
     failOp (stencilBackFace ds) = failOp (stencilBackFace ds0)) ∧
  (markup_attr "stencil" "pass" Elements = false →
     passOp (stencilFrontFace ds) = passOp (stencilFrontFace ds0) ∧
     passOp (stencilBackFace ds) = passOp (stencilBackFace ds0)) ∧
  (markup_attr "stencil" "depth_fail" Elements = false →
     depthFailOp (stencilFrontFace ds) = depthFailOp (stencilFrontFace ds0) ∧
     depthFailOp (stencilBackFace ds) = depthFailOp (stencilBackFace ds0)) ∧
  (∀ v children, Elements = [MkElement "depth" [("test", v)] children] →
     rasterizationState d = rasterizationState d0 ∧
     blendState d = blendState d0 ∧
     stencilTestEnabled ds = stencilTestEnabled ds0 ∧
     stencilReference ds = stencilReference ds0 ∧
     stencilReadMask ds = stencilReadMask ds0 ∧
     stencilWriteMask ds = stencilWriteMask ds0 ∧
     stencilFrontFace ds = stencilFrontFace ds0 ∧
     stencilBackFace ds = stencilBackFace ds0 ∧
     depthCompareOp ds = depthCompareOp ds0 ∧
     depthWriteEnabled ds = depthWriteEnabled ds0) ∧
  (∀ es1 es2 Element,
     Elements = es1 ++ Element :: es2 → GetNodeName Element = "blend" →
     markup_tag "blend" es2 = false →
     let src := ParseBlendFactor (GetNamedItem (GetAttributes Element) "src") in
     let dst := ParseBlendFactor (GetNamedItem (GetAttributes Element) "dst") in
     enabled (blendState d) = true ∧
     srcColorBlendFactor (blendState d) = src ∧
     srcAlphaBlendFactor (blendState d) = src ∧
     dstColorBlendFactor (blendState d) = dst ∧
     dstAlphaBlendFactor (blendState d) = dst) ∧
  (∀ es1 es2 Element,
     Elements = es1 ++ Element :: es2 → GetNodeName Element = "color" →
     markup_tag "color" es2 = false →
     colorWriteMask (blendState d)
     = Z.lor (Z.lor (Z.lor (channel Element "mask_red" RED)
                           (channel Element "mask_green" GREEN))
                    (channel Element "mask_blue" BLUE))
             (channel Element "mask_alpha" ALPHA)).
Proof.
  intros Elements d d0 ds ds0. subst d d0 ds ds0. unfold BuildPass.
  fold Elements.
  split; [apply PassElements_desc_id|].
  split; [apply frame_blend_tag|].
  split; [apply frame_blend_op|].
  split; [apply frame_blend_constant|].
  split; [apply frame_color_tag|].
  split; [apply frame_cull_mode|].
  split; [apply frame_cull_front_face|].
  split; [apply frame_polygon_mode|].
  split; [apply frame_depth_test|].
  split; [apply frame_depth_func|].
  split; [apply frame_depth_mask|].
  split; [apply frame_stencil_test|].
  split; [apply frame_stencil_reference|].
  split; [apply frame_stencil_mask_read|].
  split; [apply frame_stencil_mask|].
  split; [apply frame_stencil_compare|].
  split; [apply frame_stencil_fail|].
  split; [apply frame_stencil_pass|].
  split; [apply frame_stencil_depth_fail|].
  split; [intros v children ->; destruct v; repeat split; reflexivity|].
  split.
  - intros es1 es2 Element Heq Hname Hlast. rewrite Heq.
    rewrite PassElements_app, PassElements_cons.
    destruct (frame_blend_tag es2
                (PassElement Element (PassElements es1 (PassInit techDefines)))
                Hlast) as (-> & -> & -> & -> & ->).
    rewrite PassElement_blend_branch by exact Hname.
    apply PassElement_blend_sets.
  - intros es1 es2 Element Heq Hname Hlast. rewrite Heq.
    rewrite PassElements_app, PassElements_cons.
    rewrite frame_color_tag by exact Hlast.
    rewrite PassElement_color_branch by exact Hname.
    apply PassElement_color_mask.
Qed.

(** C8: in a pass whose last [color] element is [Element], the colour
    write mask is exactly the union of the channels whose attribute equals
    TRUE, whatever the state (and so the default mask) before it; when the
    four enumerators are pairwise disjoint bit sets, a channel is enabled
    if its attribute equals TRUE and disabled if the attribute is absent
    or has any other value. *)
Theorem C8_color_write_mask (pre post : list XMBElement) (Element : XMBElement)
    (s : PassState) :
  GetNodeName Element = "color" →
  markup_tag "color" post = false →
  let mask := colorWriteMask (blendState (passPipelineStateDesc
                (PassElements (pre ++ Element :: post) s))) in
  mask = Z.lor (Z.lor (Z.lor (channel Element "mask_red" RED)
                             (channel Element "mask_green" GREEN))
                      (channel Element "mask_blue" BLUE))
               (channel Element "mask_alpha" ALPHA) ∧
  (Z.land RED GREEN = 0 → Z.land RED BLUE = 0 → Z.land RED ALPHA = 0 →
   Z.land GREEN BLUE = 0 → Z.land GREEN ALPHA = 0 → Z.land BLUE ALPHA = 0 →
   Z.land mask RED = channel Element "mask_red" RED ∧
   Z.land mask GREEN = channel Element "mask_green" GREEN ∧
   Z.land mask BLUE = channel Element "mask_blue" BLUE ∧
   Z.land mask ALPHA = channel Element "mask_alpha" ALPHA).
Proof.
  intros Hname Hpost mask.
  assert (Hmask : mask
    = Z.lor (Z.lor (Z.lor (channel Element "mask_red" RED)
                          (channel Element "mask_green" GREEN))
                   (channel Element "mask_blue" BLUE))
            (channel Element "mask_alpha" ALPHA)).
  { subst mask. rewrite PassElements_app, PassElements_cons.
    rewrite frame_color_tag by exact Hpost.
    rewrite PassElement_color_branch by exact Hname.
    apply PassElement_color_mask. }
  split; [exact Hmask|].
  intros Hrg Hrb Hra Hgb Hga Hba. rewrite Hmask.
  assert (Hgr := Hrg). rewrite Z.land_comm in Hgr.
  assert (Hbr := Hrb). rewrite Z.land_comm in Hbr.
  assert (Har := Hra). rewrite Z.land_comm in Har.
  assert (Hbg := Hgb). rewrite Z.land_comm in Hbg.
  assert (Hag := Hga). rewrite Z.land_comm in Hag.
  assert (Hab := Hba). rewrite Z.land_comm in Hab.
  unfold channel.
  repeat case_match;
    rewrite ?Z.land_lor_distr_l, ?Z.land_diag, ?Z.land_0_l,
      ?Hrg, ?Hrb, ?Hra, ?Hgb, ?Hga, ?Hba,
      ?Hgr, ?Hbr, ?Har, ?Hbg, ?Hag, ?Hab, ?Z.lor_0_r, ?Z.lor_0_l;
    auto.
Qed.

(** C9: on a [depth] element whose [test] attribute is present, depth
    testing ends up enabled exactly when the value is the upper-case TRUE
    (and the same holds for the [test] attribute of a [stencil] element);
    when its [mask] attribute is present, depth writes end up enabled
    exactly when the value is the lower-case true; so [mask] equal to the
    upper-case TRUE disables depth writes. *)
Theorem C9_depth_attribute_case (Depth Stencil : XMBElement) (s : PassState) :
  GetNodeName Depth = "depth" →
  GetNodeName Stencil = "stencil" →
  let test := GetNamedItem (GetAttributes Depth) "test" in
  let mask := GetNamedItem (GetAttributes Depth) "mask" in
  let stest := GetNamedItem (GetAttributes Stencil) "test" in
  let d := depthStencilState (passPipelineStateDesc (PassElement Depth s)) in
  let d' := depthStencilState (passPipelineStateDesc (PassElement Stencil s)) in
  (test ≠ "" → (depthTestEnabled d = true ↔ test = "TRUE")) ∧
  (stest ≠ "" → (stencilTestEnabled d' = true ↔ stest = "TRUE")) ∧
  (mask ≠ "" → (depthWriteEnabled d = true ↔ mask = "true")) ∧
  (mask = "TRUE" → depthWriteEnabled d = false).
Proof.
  intros HD HS test mask stest d d'. subst d d'.
  rewrite PassElement_depth_branch, PassElement_stencil_branch by done.
  unfold with_desc; cbn [passPipelineStateDesc].
  assert (Hdt : test ≠ "" →
    depthTestEnabled (depthStencilState
      (PassElement_depth Depth (passPipelineStateDesc s)))
    = String.eqb test "TRUE").
  { intros Ht%empty_false. unfold PassElement_depth. fold test. rewrite Ht.
    simpl. repeat case_match; reflexivity. }
  assert (Hdm : mask ≠ "" →
    depthWriteEnabled (depthStencilState
      (PassElement_depth Depth (passPipelineStateDesc s)))
    = String.eqb mask "true").
  { intros Hm%empty_false. unfold PassElement_depth. fold mask. rewrite Hm.
    reflexivity. }
  assert (Hst : stest ≠ "" →
    stencilTestEnabled (depthStencilState
      (PassElement_stencil Stencil (passPipelineStateDesc s)))
    = String.eqb stest "TRUE").
  { intros Ht%empty_false. unfold PassElement_stencil. fold stest. rewrite Ht.
    simpl. repeat case_match; reflexivity. }
  repeat split.
  - rewrite Hdt by done. apply String.eqb_eq.
  - rewrite Hdt by done. apply String.eqb_eq.
  - rewrite Hst by done. apply String.eqb_eq.
  - rewrite Hst by done. apply String.eqb_eq.
  - rewrite Hdm by done. apply String.eqb_eq.
  - rewrite Hdm by done. apply String.eqb_eq.
  - intros Hm. rewrite Hdm by (by rewrite Hm). by rewrite Hm.
Qed.

(** *** The trace *)

Lemma set_trace_nil (w : State) : set_trace (λ t, t ++ []) w = w.
Proof. destruct w. unfold set_trace. simpl. by rewrite app_nil_r. Qed.

Lemma set_trace_app (es1 es2 : list Event) (w : State) :
  set_trace (λ t, t ++ es2) (set_trace (λ t, t ++ es1) w)
  = set_trace (λ t, t ++ (es1 ++ es2)) w.
Proof. destruct w. unfold set_trace. simpl. by rewrite app_assoc. Qed.

(** *** Hotloading *)

(** The loop of [ReloadChangedFile] reloads the listed programs that are
    still alive, in order, and does nothing else. *)
Lemma ReloadAll_spec (ptrs : list nat) (w : State) :
  ReloadAll ptrs w
  = (tt, set_trace
           (λ t, t ++ (EvReload <$> filter (λ p, p ∉ expired w) ptrs)) w).
Proof.
  revert w. induction ptrs as [|ptr rest IH]; intros w.
  - simpl. unfold ret. by rewrite set_trace_nil.
  - cbn [ReloadAll]. unfold bind, lock, gets. cbn [fst snd].
    destruct (decide (ptr ∉ expired w)) as [Hlive|Hdead].
    + rewrite bool_decide_eq_true_2 by done.
      rewrite filter_cons_True by done.
      unfold Reload, emit, emits, modify. cbn [fst snd].
      rewrite IH. cbn [expired set_trace]. by rewrite set_trace_app.
    + rewrite bool_decide_eq_false_2 by done.
      rewrite filter_cons_False by done.
      unfold ret. cbn [fst snd]. by rewrite IH.
Qed.

Lemma ReloadChangedFile_spec (path : string) (w : State) :
  ReloadChangedFile path w
  = match m_HotloadFiles w !! path with
    | None => (INFO_OK, w)
    | Some dependents =>
        (INFO_OK,
         set_trace (λ t, t ++ (EvReload <$> filter (λ p, p ∉ expired w)
                                                   (elements dependents))) w)
    end.
Proof.
  unfold ReloadChangedFile, bind, gets. cbn [fst snd].
  destruct (m_HotloadFiles w !! path) as [dependents|]; [|done].
  by rewrite ReloadAll_spec.
Qed.

Lemma reloads_of_fmap (program : nat) (l : list nat) :
  reloads_of program (EvReload <$> l)
  = length (filter (λ p, p = program) l).
Proof.
  unfold reloads_of. induction l as [|p l IH]; [done|].
  rewrite fmap_cons. destruct (decide (p = program)) as [->|Hne].
  - rewrite !filter_cons_True by done. simpl. by rewrite IH.
  - rewrite !filter_cons_False by congruence. done.
Qed.

Lemma count_NoDup (program : nat) (l : list nat) :
  NoDup l →
  length (filter (λ p, p = program) l)
  = if decide (program ∈ l) then 1%nat else 0%nat.
Proof.
  induction 1 as [|p l Hp Hl IH]; [done|].
  destruct (decide (p = program)) as [->|Hne].
  - rewrite filter_cons_True by done. simpl. rewrite IH.
    rewrite decide_False by done.
    rewrite decide_True by apply list_elem_of_here. done.
  - rewrite filter_cons_False by done. rewrite IH.
    destruct (decide (program ∈ l)).
    + by rewrite decide_True by (by apply list_elem_of_further).
    + rewrite decide_False; [done|].
      apply not_elem_of_cons. split; [congruence|done].
Qed.

(** The number of reloads of [program] when the file of [dependents]
    changes. *)
Lemma reloads_of_dependents (program : nat) (dependents live : gset nat) :
  reloads_of program
    (EvReload <$> filter (λ p, p ∉ live) (elements dependents))
  = if decide (program ∈ dependents ∧ program ∉ live) then 1%nat else 0%nat.
Proof.
  rewrite reloads_of_fmap, count_NoDup
    by (apply NoDup_filter, NoDup_elements).
  destruct (decide (program ∈ dependents ∧ program ∉ live)) as [[H1 H2]|H].
  - rewrite decide_True; [done|].
    apply list_elem_of_filter. split; [done|]. by apply elem_of_elements.
  - rewrite decide_False; [done|].
    intros [H1 H2%elem_of_elements]%list_elem_of_filter. by apply H.
Qed.

(** C5: a change to a path without an entry does nothing and reports
    success; after [program] is registered under [path], a change to
    [path] adds to the trace the reloads of the dependents of [path] that
    are alive, and nothing else, and reports success: [program] is reloaded
    exactly once if it is alive, and not at all once it is destroyed, the
    dead reference being passed over without any other effect; and
    registering [program] a second time under the same path changes
    nothing. *)
Theorem C5_hotload_tracker (w : State) (path : string) (program : nat) :
  let w1 := (AddProgramFileDependency program path w).2 in
  let w2 := (DestroyProgram program w1).2 in
  let dependents := {[program]} ∪ default ∅ (m_HotloadFiles w !! path) in
  let reloads (w' : State) :=
    EvReload <$> filter (λ p, p ∉ expired w') (elements dependents) in
  (m_HotloadFiles w !! path = None → ReloadChangedFile path w = (INFO_OK, w)) ∧
  ReloadChangedFile path w1
  = (INFO_OK, set_trace (λ t, t ++ reloads w1) w1) ∧
  (program ∉ expired w → reloads_of program (reloads w1) = 1%nat) ∧
  ReloadChangedFile path w2
  = (INFO_OK, set_trace (λ t, t ++ reloads w2) w2) ∧
  reloads_of program (reloads w2) = 0%nat ∧
  AddProgramFileDependency program path w1 = (tt, w1).
Proof.
  intros w1 w2 dependents reloads.
  assert (Hw1 : m_HotloadFiles w1 !! path = Some dependents).
  { subst w1. unfold AddProgramFileDependency, modify. cbn.
    apply lookup_insert_eq. }
  assert (Hin : program ∈ dependents)
    by (by apply elem_of_union_l, elem_of_singleton_2).
  split; [|split; [|split; [|split; [|split]]]].
  - intros H. rewrite ReloadChangedFile_spec. by rewrite H.
  - rewrite ReloadChangedFile_spec. by rewrite Hw1.
  - intros Hlive. unfold reloads.
    rewrite reloads_of_dependents. by apply decide_True.
  - rewrite ReloadChangedFile_spec.
    replace (m_HotloadFiles w2) with (m_HotloadFiles w1) by done.
    by rewrite Hw1.
  - unfold reloads. rewrite reloads_of_dependents. apply decide_False.
    intros [_ Hlive]. apply Hlive. subst w2.
    unfold DestroyProgram, modify. cbn.
    by apply elem_of_union_l, elem_of_singleton_2.
  - unfold AddProgramFileDependency, modify. f_equal.
    destruct w1 as [pc ec hf ps ts ex tr] eqn:E. unfold set_HotloadFiles.
    cbn [m_ProgramCache m_EffectCache m_HotloadFiles programs techniques
         expired trace]. f_equal.
    cbn [m_HotloadFiles] in Hw1. rewrite Hw1. cbn [default].
    apply insert_id. rewrite Hw1. f_equal. unfold dependents, id.
    by rewrite (assoc_L (∪)), union_idemp_L.
Qed.

(** *** Program loading *)

(** The hotload entries made for the dependencies of a new program. *)
Lemma AddProgramFileDependencies_spec (program : nat) (paths : list string)
    (w : State) :
  AddProgramFileDependencies program paths w
  = (tt, set_HotloadFiles
           (λ m, fold_left
                   (λ m path, <[path := {[program]} ∪ default ∅ (m !! path)]> m)
                   paths m) w).
Proof.
  revert w. induction paths as [|path rest IH]; intros w.
  - by destruct w.
  - cbn [AddProgramFileDependencies]. unfold bind.
    unfold AddProgramFileDependency, modify. cbn [fst snd].
    rewrite IH. by destruct w.
Qed.

(** [NewProgram] in full, by the three ways it can end. *)
Lemma NewProgram_spec (name : string) (baseDefines : CShaderDefines)
    (w : State) :
  let xmlFilename := "shaders/" +:+ name +:+ ".xml" in
  NewProgram name baseDefines w
  = match g_VFS xmlFilename with
    | None => ((false, None), set_trace (λ t, t ++ [EvLoad xmlFilename]) w)
    | Some root =>
        let w1 := set_trace
                    (λ t, t ++ [EvLoad xmlFilename; EvValidateEncoded name]) w in
        if ValidateEncoded name root
        then
          let l := ParseProgram baseDefines root in
          let obj := ConstructProgram root l in
          let program := length (programs w) in
          ((true, Some program),
           set_HotloadFiles
             (λ m, fold_left
                     (λ m path,
                        <[path := {[program]} ∪ default ∅ (m !! path)]> m)
                     (GetFileDependencies obj) m)
             (set_trace (λ t, t ++ [EvReload program])
                (set_programs (λ ps, ps ++ [obj])
                   (set_trace (λ t, t ++ events l) w1))))
        else ((false, None), w1)
    end.
Proof.
  intros xmlFilename. unfold NewProgram. fold xmlFilename.
  unfold XeroFile_Load, emit, emits, modify, ret, bind. cbn [fst snd].
  destruct (g_VFS xmlFilename) as [root|]; [|done].
  cbn [fst snd]. rewrite set_trace_app. cbn [app].
  destruct (ValidateEncoded name root); cbn [negb]; [|done].
  unfold new_CShaderProgram, Reload, emit, emits, bind, gets, modify, ret.
  cbn [fst snd]. rewrite AddProgramFileDependencies_spec. done.
Qed.

Lemma NewProgram_caches (name : string) (baseDefines : CShaderDefines)
    (w : State) :
  m_ProgramCache (NewProgram name baseDefines w).2 = m_ProgramCache w ∧
  m_EffectCache (NewProgram name baseDefines w).2 = m_EffectCache w.
Proof.
  rewrite NewProgram_spec. cbv zeta.
  destruct (g_VFS _) as [root|]; [|done].
  by destruct (ValidateEncoded name root).
Qed.

(** A document that loads and validates always yields a program. *)
Lemma NewProgram_ok (name : string) (baseDefines : CShaderDefines)
    (w : State) (root : XMBElement) :
  g_VFS ("shaders/" +:+ name +:+ ".xml") = Some root →
  ValidateEncoded name root = true →
  (NewProgram name baseDefines w).1 = (true, Some (length (programs w))) ∧
  programs (NewProgram name baseDefines w).2
  = programs w ++ [ConstructProgram root (ParseProgram baseDefines root)] ∧
  trace (NewProgram name baseDefines w).2
  = trace w ++ [EvLoad ("shaders/" +:+ name +:+ ".xml");
                EvValidateEncoded name]
            ++ events (ParseProgram baseDefines root)
            ++ [EvReload (length (programs w))].
Proof.
  intros Hload Hvalid. rewrite NewProgram_spec. cbv zeta.
  rewrite Hload, Hvalid. cbn. by rewrite <- !app_assoc.
Qed.

Lemma LoadProgram_hit (name : string) (defines : CShaderDefines) (w : State)
    (second : CShaderProgramPtr) :
  m_ProgramCache w !! {| ck_name := name; ck_defines := defines |} = Some second →
  LoadProgram name defines w = (second, w).
Proof.
  intros H. unfold LoadProgram, bind, gets, ret. cbn [fst snd]. by rewrite H.
Qed.

(** [LoadProgram] on a miss. *)
Lemma LoadProgram_miss (name : string) (defines : CShaderDefines) (w : State) :
  m_ProgramCache w !! {| ck_name := name; ck_defines := defines |} = None →
  let r := NewProgram name defines w in
  LoadProgram name defines w
  = if r.1.1
    then (r.1.2,
          set_ProgramCache
            <[{| ck_name := name; ck_defines := defines |} := r.1.2]> r.2)
    else (None,
          set_ProgramCache
            <[{| ck_name := name; ck_defines := defines |} := None]>
            (set_trace
               (λ t, t ++ [EvLOGERROR ("Failed to load shader '" +:+ name +:+ "'")])
               r.2)).
Proof.
  intros H r. unfold LoadProgram, bind, gets. cbn [fst snd]. rewrite H.
  fold r. destruct (r.1.1); cbn [negb]; done.
Qed.

(** After [LoadProgram] the cache holds what it returned, under the key
    of the call. *)
Lemma LoadProgram_stored (name : string) (defines : CShaderDefines) (w : State) :
  m_ProgramCache (LoadProgram name defines w).2
    !! {| ck_name := name; ck_defines := defines |}
  = Some (LoadProgram name defines w).1.
Proof.
  destruct (m_ProgramCache w !! {| ck_name := name; ck_defines := defines |})
    as [second|] eqn:H.
  - by rewrite (LoadProgram_hit _ _ _ _ H).
  - rewrite (LoadProgram_miss _ _ _ H). cbv zeta.
    destruct (NewProgram name defines w).1.1; cbn; apply lookup_insert_eq.
Qed.

Lemma LoadProgram_caches (name : string) (defines : CShaderDefines) (w : State) :
  m_ProgramCache w ⊆ m_ProgramCache (LoadProgram name defines w).2 ∧
  m_EffectCache (LoadProgram name defines w).2 = m_EffectCache w.
Proof.
  destruct (m_ProgramCache w !! {| ck_name := name; ck_defines := defines |})
    as [second|] eqn:H.
  - by rewrite (LoadProgram_hit _ _ _ _ H).
  - rewrite (LoadProgram_miss _ _ _ H). cbv zeta.
    destruct (NewProgram_caches name defines w) as [Hp He].
    destruct (NewProgram name defines w).1.1; cbn; rewrite Hp, He;
      (split; [by apply insert_subseteq|done]).
Qed.

(** *** Effect loading *)

Lemma TechPasses_caches (techDefines : CShaderDefines)
    (Children : list XMBElement) (techPasses : list CShaderPass) (w : State) :
  m_ProgramCache w
    ⊆ m_ProgramCache (TechPasses techDefines Children techPasses w).2 ∧
  m_EffectCache (TechPasses techDefines Children techPasses w).2
  = m_EffectCache w.
Proof.
  revert techPasses w.
  induction Children as [|Child rest IH]; intros techPasses w; [done|].
  cbn [TechPasses]. destruct (String.eqb (GetNodeName Child) "pass"); [|apply IH].
  unfold bind, emits, modify. cbn [fst snd].
  match goal with
  | |- context [LoadProgram ?n ?d ?w0] =>
      destruct (LoadProgram_caches n d w0) as [Hp He];
      destruct (LoadProgram n d w0) as [program w1]
  end.
  cbn [fst snd] in *.
  destruct (IH (techPasses ++
                  [{| pipelineStateDesc :=
                        passPipelineStateDesc (BuildPass techDefines Child);
                      shader := program |}]) w1) as [Hp' He'].
  split; [by etrans|]. by rewrite He'.
Qed.

Lemma BuildTechnique_caches (baseDefines : CShaderDefines) (tech : nat)
    (usableTechs_0 : XMBElement) (w : State) :
  m_ProgramCache w
    ⊆ m_ProgramCache (BuildTechnique baseDefines tech usableTechs_0 w).2 ∧
  m_EffectCache (BuildTechnique baseDefines tech usableTechs_0 w).2
  = m_EffectCache w.
Proof.
  unfold BuildTechnique. cbv zeta. unfold bind.
  destruct (TechDefines baseDefines (GetChildNodes usableTechs_0))
    as [techDefines sort].
  cbn [fst snd].
  match goal with
  | |- context [TechPasses ?d ?c ?a ?w0] =>
      destruct (TechPasses_caches d c a w0) as [Hp He];
      destruct (TechPasses d c a w0) as [techPasses w1]
  end.
  cbn [fst snd] in *. unfold SetPasses, modify, ret. cbn [fst snd].
  cbn [m_ProgramCache m_EffectCache set_techniques].
  destruct sort; done.
Qed.

(** [NewEffect] in full, by the three ways it can go. *)
Lemma NewEffect_spec (name : string) (baseDefines : CShaderDefines)
    (tech : nat) (w : State) :
  let xmlFilename := "shaders/effects/" +:+ name +:+ ".xml" in
  NewEffect name baseDefines tech w
  = match g_VFS xmlFilename with
    | None => (false, set_trace (λ t, t ++ [EvLoad xmlFilename]) w)
    | Some Root =>
        let usable := UsableTechs baseDefines (GetChildNodes Root) in
        let w1 := set_trace (λ t, t ++ (EvLoad xmlFilename :: usable.2)) w in
        match usable.1 with
        | [] =>
            (false,
             set_trace
               (λ t, t ++ [EvDebugWarn "Can't find a usable technique"]) w1)
        | usableTechs_0 :: _ => BuildTechnique baseDefines tech usableTechs_0 w1
        end
    end.
Proof.
  intros xmlFilename. unfold NewEffect. fold xmlFilename. cbv zeta.
  unfold XeroFile_Load, debug_warn, emit, emits, modify, ret, bind.
  cbn [fst snd].
  destruct (g_VFS xmlFilename) as [Root|]; [|done].
  rewrite set_trace_app. cbn [app].
  by destruct (UsableTechs baseDefines (GetChildNodes Root)).1.
Qed.

Lemma NewEffect_caches (name : string) (baseDefines : CShaderDefines)
    (tech : nat) (w : State) :
  m_ProgramCache w ⊆ m_ProgramCache (NewEffect name baseDefines tech w).2 ∧
  m_EffectCache (NewEffect name baseDefines tech w).2 = m_EffectCache w.
Proof.
  rewrite NewEffect_spec. cbv zeta.
  destruct (g_VFS _) as [Root|]; [|done].
  destruct (UsableTechs baseDefines (GetChildNodes Root)).1
    as [|usableTechs_0 ?]; [done|].
  match goal with
  | |- context [BuildTechnique ?d ?t ?u ?w0] =>
      apply (BuildTechnique_caches d t u w0)
  end.
Qed.

Lemma LoadEffect_hit (name : string) (defines : CShaderDefines) (w : State)
    (second : CShaderTechniquePtr) :
  m_EffectCache w !! {| ek_name := name; ek_defines := defines |} = Some second →
  LoadEffect name defines w = (second, w).
Proof.
  intros H. unfold LoadEffect, bind, gets, ret. cbn [fst snd]. by rewrite H.
Qed.

(** [LoadEffect] on a miss. *)
Lemma LoadEffect_miss (name : string) (defines : CShaderDefines) (w : State) :
  m_EffectCache w !! {| ek_name := name; ek_defines := defines |} = None →
  let tech := length (techniques w) in
  let r := NewEffect name defines tech
             (set_techniques
                (λ l, l ++ [{| sortByDistance := false; passes := [] |}]) w) in
  LoadEffect name defines w
  = if r.1
    then (Some tech,
          set_EffectCache
            <[{| ek_name := name; ek_defines := defines |} := Some tech]> r.2)
    else (None,
          set_EffectCache
            <[{| ek_name := name; ek_defines := defines |} := None]>
            (set_trace
               (λ t, t ++ [EvLOGERROR ("Failed to load effect '" +:+ name +:+ "'")])
               r.2)).
Proof.
  intros H tech r. unfold LoadEffect, bind, gets. cbn [fst snd]. rewrite H.
  unfold new_CShaderTechnique, bind, gets, modify, ret. cbn [fst snd].
  fold tech. fold r. destruct (r.1); cbn [negb]; done.
Qed.

Lemma LoadEffect_stored (name : string) (defines : CShaderDefines) (w : State) :
  m_EffectCache (LoadEffect name defines w).2
    !! {| ek_name := name; ek_defines := defines |}
  = Some (LoadEffect name defines w).1.
Proof.
  destruct (m_EffectCache w !! {| ek_name := name; ek_defines := defines |})
    as [second|] eqn:H.
  - by rewrite (LoadEffect_hit _ _ _ _ H).
  - rewrite (LoadEffect_miss _ _ _ H). cbv zeta.
    destruct (NewEffect _ _ _ _).1; cbn; apply lookup_insert_eq.
Qed.

Lemma LoadEffect_caches (name : string) (defines : CShaderDefines) (w : State) :
  m_ProgramCache w ⊆ m_ProgramCache (LoadEffect name defines w).2 ∧
  m_EffectCache w ⊆ m_EffectCache (LoadEffect name defines w).2.
Proof.
  destruct (m_EffectCache w !! {| ek_name := name; ek_defines := defines |})
    as [second|] eqn:H.
  - by rewrite (LoadEffect_hit _ _ _ _ H).
  - rewrite (LoadEffect_miss _ _ _ H). cbv zeta.
    match goal with
    | |- context [NewEffect ?n ?d ?t ?w0] =>
        destruct (NewEffect_caches n d t w0) as [Hp He];
        destruct (NewEffect n d t w0) as [ok w1]
    end.
    cbn [fst snd] in *.
    destruct ok; cbn; rewrite He; (split; [done|by apply insert_subseteq]).
Qed.

(** No call of the interface drops or replaces a cache entry. *)
Lemma call_caches (c : Call) (w : State) :
  m_ProgramCache w ⊆ m_ProgramCache (call c w) ∧
  m_EffectCache w ⊆ m_EffectCache (call c w).
Proof.
  destruct c as [name defines|name defines|path]; cbn [call].
  - destruct (LoadProgram_caches name defines w) as [Hp He].
    split; [done|]. by rewrite He.
  - apply LoadEffect_caches.
  - rewrite ReloadChangedFile_spec.
    by destruct (m_HotloadFiles w !! path).
Qed.

Lemma run_caches (calls : list Call) (w : State) :
  m_ProgramCache w ⊆ m_ProgramCache (run calls w) ∧
  m_EffectCache w ⊆ m_EffectCache (run calls w).
Proof.
  revert w. induction calls as [|c calls IH]; intros w; [done|].
  cbn [run fold_left]. destruct (call_caches c w) as [Hp He].
  destruct (IH (call c w)) as [Hp' He']. split; by etrans.
Qed.

(** C1: a call of [LoadProgram] or [LoadEffect] with the key of an earlier
    call, directly after it or after any further calls of the interface,
    returns the handle the earlier call returned and leaves the state as it
    is, trace included: nothing is loaded, validated, parsed or logged.
    This covers the null handle of a failure: when the document of a name
    that is not cached yet cannot be loaded, the call returns null, the
    trace grows by the load attempt and exactly one error, and the same
    call again returns null and adds nothing. *)
Theorem C1_cache_memoization (w : State) (name : string)
    (defines : CShaderDefines) :
  let p := LoadProgram name defines w in
  let e := LoadEffect name defines w in
  LoadProgram name defines p.2 = (p.1, p.2) ∧
  LoadEffect name defines e.2 = (e.1, e.2) ∧
  (∀ calls, LoadProgram name defines (run calls p.2) = (p.1, run calls p.2)) ∧
  (∀ calls, LoadEffect name defines (run calls e.2) = (e.1, run calls e.2)) ∧
  (m_ProgramCache w !! {| ck_name := name; ck_defines := defines |} = None →
   g_VFS ("shaders/" +:+ name +:+ ".xml") = None →
   p.1 = None ∧
   trace p.2 = trace w ++ [EvLoad ("shaders/" +:+ name +:+ ".xml");
                           EvLOGERROR ("Failed to load shader '" +:+ name +:+ "'")] ∧
   LoadProgram name defines p.2 = (None, p.2)) ∧
  (m_EffectCache w !! {| ek_name := name; ek_defines := defines |} = None →
   g_VFS ("shaders/effects/" +:+ name +:+ ".xml") = None →
   e.1 = None ∧
   trace e.2 = trace w ++ [EvLoad ("shaders/effects/" +:+ name +:+ ".xml");
                           EvLOGERROR ("Failed to load effect '" +:+ name +:+ "'")] ∧
   LoadEffect name defines e.2 = (None, e.2)).
Proof.
  intros p e.
  assert (Hp : ∀ calls,
             LoadProgram name defines (run calls p.2) = (p.1, run calls p.2)).
  { intros calls. apply LoadProgram_hit.
    destruct (run_caches calls p.2) as [Hsub _].
    eapply lookup_weaken; [|exact Hsub]. apply LoadProgram_stored. }
  assert (He : ∀ calls,
             LoadEffect name defines (run calls e.2) = (e.1, run calls e.2)).
  { intros calls. apply LoadEffect_hit.
    destruct (run_caches calls e.2) as [_ Hsub].
    eapply lookup_weaken; [|exact Hsub]. apply LoadEffect_stored. }
  split; [exact (Hp [])|]. split; [exact (He [])|].
  split; [exact Hp|]. split; [exact He|]. split.
  - intros Hmiss Hload.
    assert (Hp1 : p.1 = None ∧
              trace p.2 = trace w ++
                [EvLoad ("shaders/" +:+ name +:+ ".xml");
                 EvLOGERROR ("Failed to load shader '" +:+ name +:+ "'")]).
    { subst p. rewrite (LoadProgram_miss _ _ _ Hmiss). cbv zeta.
      rewrite NewProgram_spec. cbv zeta. rewrite Hload. cbn.
      by rewrite <- app_assoc. }
    destruct Hp1 as [Hnull Htrace]. split; [done|]. split; [done|].
    rewrite <- Hnull. exact (Hp []).
  - intros Hmiss Hload.
    assert (He1 : e.1 = None ∧
              trace e.2 = trace w ++
                [EvLoad ("shaders/effects/" +:+ name +:+ ".xml");
                 EvLOGERROR ("Failed to load effect '" +:+ name +:+ "'")]).
    { subst e. rewrite (LoadEffect_miss _ _ _ Hmiss). cbv zeta.
      rewrite NewEffect_spec. cbv zeta. rewrite Hload. cbn.
      by rewrite <- app_assoc. }
    destruct He1 as [Hnull Htrace]. split; [done|]. split; [done|].
    rewrite <- Hnull. exact (He []).
Qed.

(** *** Cache keys *)

Lemma EffectCacheKey_eq_spec (a b : EffectCacheKey) :
  EffectCacheKey_eq a b = true ↔ a = b.
Proof.
  unfold EffectCacheKey_eq. rewrite andb_true_iff, !bool_decide_eq_true.
  destruct a, b; simpl. split; [by intros [-> ->]|by intros [= -> ->]].
Qed.

(** The order of [Add] calls with distinct names does not matter. *)
Lemma AddAll_Permutation (l1 l2 : list (string * string))
    (d : CShaderDefines) :
  NoDup l1.*1 → l1 ≡ₚ l2 → AddAll l1 d = AddAll l2 d.
Proof.
  intros Hnd Hperm. revert d Hnd.
  induction Hperm as [|x l l' Hperm IH|x y l|l l' l'' H1 IH1 H2 IH2];
    intros d Hnd.
  - done.
  - cbn. apply IH. by apply NoDup_cons_1_2 in Hnd.
  - cbn. unfold Add. rewrite insert_insert_ne; [done|].
    cbn in Hnd. apply NoDup_cons_1_1 in Hnd.
    intros Heq. apply Hnd. rewrite Heq. apply list_elem_of_here.
  - rewrite IH1 by done. apply IH2. by rewrite <- H1.
Qed.

(** C6: two effect cache keys are equal under [operator==] exactly when
    their names are equal and their define sets are equal, that is, exactly
    when they are the same key; the hash of a key is [hash_combine] applied
    to the seed 0 and the hash of the name, and then to the result and the
    hash of the define set, so it depends on the key through these two
    hashes only, and keys that are equal under [operator==] have the same
    hash; and two define sets made by adding the same name/value pairs
    (with distinct names) in different orders give keys that are equal,
    hash alike, find the same entry of the effect cache, and the second
    [LoadEffect] (or [LoadProgram]) with one returns what the first with
    the other stored, leaving the state alone. *)
Theorem C6_cache_key (a b : EffectCacheKey) :
  (EffectCacheKey_eq a b = true
   ↔ ek_name a = ek_name b ∧ ek_defines a = ek_defines b) ∧
  (EffectCacheKey_eq a b = true ↔ a = b) ∧
  EffectCacheKeyHash a
  = hash_combine (hash_combine 0 (CStrIntern_GetHash (ek_name a)))
                 (CShaderDefines_GetHash (ek_defines a)) ∧
  (CStrIntern_GetHash (ek_name a) = CStrIntern_GetHash (ek_name b) →
   CShaderDefines_GetHash (ek_defines a) = CShaderDefines_GetHash (ek_defines b) →
   EffectCacheKeyHash a = EffectCacheKeyHash b) ∧
  (EffectCacheKey_eq a b = true → EffectCacheKeyHash a = EffectCacheKeyHash b) ∧
  (∀ (l1 l2 : list (string * string)) (w : State),
     NoDup l1.*1 → l1 ≡ₚ l2 →
     let k1 := {| ek_name := ek_name a; ek_defines := AddAll l1 ∅ |} in
     let k2 := {| ek_name := ek_name a; ek_defines := AddAll l2 ∅ |} in
     let e := LoadEffect (ek_name a) (AddAll l1 ∅) w in
     let p := LoadProgram (ek_name a) (AddAll l1 ∅) w in
     EffectCacheKey_eq k1 k2 = true ∧
     EffectCacheKeyHash k1 = EffectCacheKeyHash k2 ∧
     m_EffectCache w !! k1 = m_EffectCache w !! k2 ∧
     LoadEffect (ek_name a) (AddAll l2 ∅) e.2 = (e.1, e.2) ∧
     LoadProgram (ek_name a) (AddAll l2 ∅) p.2 = (p.1, p.2)).
Proof.
  assert (Hhash : ∀ k, EffectCacheKeyHash k
            = hash_combine (hash_combine 0 (CStrIntern_GetHash (ek_name k)))
                           (CShaderDefines_GetHash (ek_defines k)))
    by reflexivity.
  split; [|split; [|split; [|split; [|split]]]].
  - unfold EffectCacheKey_eq.
    by rewrite andb_true_iff, !bool_decide_eq_true.
  - apply EffectCacheKey_eq_spec.
  - apply Hhash.
  - intros Hn Hd. by rewrite !Hhash, Hn, Hd.
  - intros Heq%EffectCacheKey_eq_spec. by rewrite Heq.
  - intros l1 l2 w Hnd Hperm k1 k2 e p.
    assert (Hk : k1 = k2).
    { subst k1 k2. by rewrite (AddAll_Permutation l1 l2 ∅ Hnd Hperm). }
    split; [by apply EffectCacheKey_eq_spec|].
    split; [by rewrite Hk|]. split; [by rewrite Hk|].
    rewrite <- (AddAll_Permutation l1 l2 ∅ Hnd Hperm). split.
    + apply LoadEffect_hit, LoadEffect_stored.
    + apply LoadProgram_hit, LoadProgram_stored.
Qed.

(** *** Program descriptions *)

Lemma errors_of_app (es1 es2 : list Event) :
  errors_of (es1 ++ es2) = errors_of es1 ++ errors_of es2.
Proof. apply List.filter_app. Qed.

Lemma ParamSkipped_errors (baseDefines : CShaderDefines) (cond : string) :
  errors_of (ParamSkipped baseDefines cond).2 = [].
Proof. unfold ParamSkipped. by destruct (negb (empty cond)). Qed.

Lemma ParseAttribSemantics_errors (str : string) :
  errors_of (ParseAttribSemantics str).2 = [].
Proof. unfold ParseAttribSemantics. repeat case_match; done. Qed.

Lemma SamplerType_errors (t : string) : errors_of (SamplerType t).2 = [].
Proof. unfold SamplerType. repeat case_match; done. Qed.

Lemma VertexParam_errors (baseDefines : CShaderDefines) (Param : XMBElement)
    (l : ProgramLocals) :
  errors_of (events (VertexParam baseDefines Param l)) = errors_of (events l).
Proof.
  unfold VertexParam. cbv zeta.
  pose proof (ParamSkipped_errors baseDefines
                (GetNamedItem (GetAttributes Param) "if")) as Hs.
  pose proof (ParseAttribSemantics_errors
                (GetNamedItem (GetAttributes Param) "semantics")) as Ha.
  unfold StreamParam.
  repeat case_match; cbn [events add_events set_vertexUniform or_streamFlags
                          set_vertexAttrib];
    rewrite ?errors_of_app, ?Hs, ?Ha, ?app_nil_r; done.
Qed.

Lemma FragmentParam_errors (baseDefines : CShaderDefines) (Param : XMBElement)
    (l : ProgramLocals) :
  errors_of (events (FragmentParam baseDefines Param l)) = errors_of (events l).
Proof.
  unfold FragmentParam. cbv zeta.
  pose proof (ParamSkipped_errors baseDefines
                (GetNamedItem (GetAttributes Param) "if")) as Hs.
  pose proof (SamplerType_errors
                (GetNamedItem (GetAttributes Param) "type")) as Ht.
  repeat case_match; cbn [events add_events set_fragmentUniform];
    rewrite ?errors_of_app, ?Hs, ?Ht, ?app_nil_r; done.
Qed.

(** A loop whose body logs no error logs no error. *)
Lemma fold_errors {A : Type} (step : A → ProgramLocals → ProgramLocals)
    (xs : list A) (l : ProgramLocals) :
  (∀ x l, errors_of (events (step x l)) = errors_of (events l)) →
  errors_of (events (fold_left (λ l x, step x l) xs l)) = errors_of (events l).
Proof.
  intros Hstep. revert l. induction xs as [|x xs IH]; intros l; [done|].
  cbn [fold_left]. by rewrite IH, Hstep.
Qed.

Lemma RootChild_errors (baseDefines : CShaderDefines) (Child : XMBElement)
    (l : ProgramLocals) :
  errors_of (events (RootChild baseDefines Child l)) = errors_of (events l).
Proof.
  unfold RootChild. repeat case_match; [done| | |done].
  - rewrite (fold_errors (VertexParam baseDefines)); [done|].
    apply VertexParam_errors.
  - rewrite (fold_errors (FragmentParam baseDefines)); [done|].
    apply FragmentParam_errors.
Qed.

(** Reading a program description logs no error, whatever it holds. *)
Lemma ParseProgram_errors (baseDefines : CShaderDefines) (root : XMBElement) :
  errors_of (events (ParseProgram baseDefines root)) = [].
Proof.
  unfold ParseProgram.
  rewrite (fold_errors (RootChild baseDefines)); [done|].
  apply RootChild_errors.
Qed.

(** A program whose description loads and validates is built, and cached,
    without an error in the log. *)
Lemma LoadProgram_ok (name : string) (defines : CShaderDefines) (w : State)
    (root : XMBElement) :
  m_ProgramCache w !! {| ck_name := name; ck_defines := defines |} = None →
  g_VFS ("shaders/" +:+ name +:+ ".xml") = Some root →
  ValidateEncoded name root = true →
  (LoadProgram name defines w).1 = Some (length (programs w)) ∧
  programs (LoadProgram name defines w).2
  = programs w ++ [ConstructProgram root (ParseProgram defines root)] ∧
  errors_of (trace (LoadProgram name defines w).2) = errors_of (trace w).
Proof.
  intros Hmiss Hload Hvalid.
  destruct (NewProgram_ok name defines w root Hload Hvalid) as (Hr & Hp & Ht).
  rewrite (LoadProgram_miss _ _ _ Hmiss). cbv zeta. rewrite Hr.
  cbn [fst snd]. split; [done|]. split; [exact Hp|].
  cbn [trace set_ProgramCache]. rewrite Ht.
  rewrite !errors_of_app, ParseProgram_errors. cbn. by rewrite app_nil_r.
Qed.

Lemma ParseAttribSemantics_unknown (str : string) :
  str ∉ known_semantics →
  ParseAttribSemantics str = (0, [EvDebugWarn "Invalid attribute semantics"]).
Proof.
  unfold known_semantics. rewrite !not_elem_of_cons. intros H.
  unfold ParseAttribSemantics.
  repeat match goal with
         | H : _ ∧ _ |- _ => destruct H as [? H]
         end.
  repeat match goal with
         | H : str ≠ _ |- _ => apply String.eqb_neq in H; rewrite H; clear H
         end.
  reflexivity.
Qed.

Lemma SamplerType_unknown (t : string) :
  t ∉ known_samplers → SamplerType t = (GL_TEXTURE_2D, []).
Proof.
  unfold known_samplers. rewrite !not_elem_of_cons. intros H.
  unfold SamplerType.
  repeat match goal with
         | H : _ ∧ _ |- _ => destruct H as [? H]
         end.
  repeat match goal with
         | H : t ≠ _ |- _ => apply String.eqb_neq in H; rewrite H; clear H
         end.
  reflexivity.
Qed.

(** *** The choice of a technique *)

Lemma TechniqueUsable_spec (baseDefines : CShaderDefines)
    (Technique : XMBElement) :
  TechniqueUsable baseDefines Technique
  = (forallb (λ c, negb (is_tag "require" c)
                   || (RequireHolds baseDefines (GetAttributes c)).1)
             (GetChildNodes Technique),
     concat ((λ c, if is_tag "require" c
                   then (RequireHolds baseDefines (GetAttributes c)).2
                   else []) <$> GetChildNodes Technique)).
Proof.
  unfold TechniqueUsable.
  assert (H : ∀ cs acc,
    fold_left (λ acc Child, UsableChild baseDefines Child acc) cs acc
    = (acc.1 && forallb (λ c, negb (is_tag "require" c)
                   || (RequireHolds baseDefines (GetAttributes c)).1) cs,
       acc.2 ++ concat ((λ c, if is_tag "require" c
                   then (RequireHolds baseDefines (GetAttributes c)).2
                   else []) <$> cs))).
  { induction cs as [|c cs IH]; intros [u evs].
    - cbn. by rewrite andb_true_r, app_nil_r.
    - cbn [fold_left]. rewrite IH. unfold UsableChild, is_tag.
      cbn [forallb fmap list_fmap concat fst snd].
      destruct (String.eqb (GetNodeName c) "require"); cbn [fst snd negb orb].
      + by rewrite andb_assoc, app_assoc.
      + done. }
  by rewrite H.
Qed.

Lemma UsableTechs_spec (baseDefines : CShaderDefines)
    (Techniques : list XMBElement) :
  UsableTechs baseDefines Techniques
  = (List.filter (λ T, (TechniqueUsable baseDefines T).1) Techniques,
     concat ((λ T, (TechniqueUsable baseDefines T).2) <$> Techniques)).
Proof.
  unfold UsableTechs.
  assert (H : ∀ Ts acc,
    fold_left
      (λ (acc : list XMBElement * list Event) Technique,
         let u := TechniqueUsable baseDefines Technique in
         (if u.1 then acc.1 ++ [Technique] else acc.1, acc.2 ++ u.2))
      Ts acc
    = (acc.1 ++ List.filter (λ T, (TechniqueUsable baseDefines T).1) Ts,
       acc.2 ++ concat ((λ T, (TechniqueUsable baseDefines T).2) <$> Ts))).
  { induction Ts as [|T Ts IH]; intros [us evs].
    - cbn. by rewrite !app_nil_r.
    - cbn [fold_left]. rewrite IH.
      cbn [List.filter fmap list_fmap concat fst snd].
      destruct (TechniqueUsable baseDefines T).1;
        by rewrite <- ?app_assoc. }
  by rewrite H.
Qed.

(** The usable techniques of a list whose first usable one is [T]. *)
Lemma filter_first_usable (baseDefines : CShaderDefines)
    (pre post : list XMBElement) (T : XMBElement) :
  Forall (λ c, (TechniqueUsable baseDefines c).1 = false) pre →
  (TechniqueUsable baseDefines T).1 = true →
  List.filter (λ T, (TechniqueUsable baseDefines T).1) (pre ++ T :: post)
  = T :: List.filter (λ T, (TechniqueUsable baseDefines T).1) post.
Proof.
  intros Hpre HT. induction Hpre as [|c pre Hc Hpre IH].
  - cbn. by rewrite HT.
  - cbn. by rewrite Hc.
Qed.

(** C2 (as the code has it): a candidate is usable exactly when each of
    its [require] children holds, and all of them are evaluated; the
    requirements of every candidate of the document, those after the chosen
    one included, are evaluated before the choice; the technique is then
    built from the first usable candidate alone, the later candidates
    contributing nothing beyond those evaluations; and when no candidate is
    usable a warning is raised and [NewEffect] fails. *)
Theorem C2_first_usable_technique (name : string) (baseDefines : CShaderDefines)
    (tech : nat) (w : State) (Root : XMBElement) :
  g_VFS ("shaders/effects/" +:+ name +:+ ".xml") = Some Root →
  let xmlFilename := "shaders/effects/" +:+ name +:+ ".xml" in
  let evaluated :=
    concat ((λ T, (TechniqueUsable baseDefines T).2) <$> GetChildNodes Root) in
  let w1 := set_trace (λ t, t ++ EvLoad xmlFilename :: evaluated) w in
  (∀ T, TechniqueUsable baseDefines T
        = (forallb (λ c, negb (is_tag "require" c)
                         || (RequireHolds baseDefines (GetAttributes c)).1)
                   (GetChildNodes T),
           concat ((λ c, if is_tag "require" c
                         then (RequireHolds baseDefines (GetAttributes c)).2
                         else []) <$> GetChildNodes T))) ∧
  (∀ pre T post,
     GetChildNodes Root = pre ++ T :: post →
     Forall (λ c, (TechniqueUsable baseDefines c).1 = false) pre →
     (TechniqueUsable baseDefines T).1 = true →
     NewEffect name baseDefines tech w = BuildTechnique baseDefines tech T w1) ∧
  (Forall (λ c, (TechniqueUsable baseDefines c).1 = false) (GetChildNodes Root) →
     NewEffect name baseDefines tech w
     = (false,
        set_trace (λ t, t ++ [EvDebugWarn "Can't find a usable technique"]) w1)).
Proof.
  intros Hload xmlFilename evaluated w1. split; [|split].
  - intros T. apply TechniqueUsable_spec.
  - intros pre T post Hchildren Hpre HT.
    rewrite NewEffect_spec. cbv zeta. rewrite Hload, UsableTechs_spec.
    cbn [fst snd]. rewrite Hchildren at 1.
    by rewrite filter_first_usable.
  - intros Hnone.
    rewrite NewEffect_spec. cbv zeta. rewrite Hload, UsableTechs_spec.
    cbn [fst snd].
    replace (List.filter _ (GetChildNodes Root)) with (@nil XMBElement); [done|].
    symmetry. induction Hnone as [|c cs Hc Hcs IH]; [done|].
    cbn. by rewrite Hc.
Qed.

(** *** Define layering *)

(** Later writes win. *)
Lemma AddAll_lookup (adds : list (string * string)) (d : CShaderDefines)
    (n : string) :
  AddAll adds d !! n
  = match last_binding n adds with
    | Some v => Some v
    | None => d !! n
    end.
Proof.
  revert d. induction adds as [|[n' v] rest IH]; intros d; [done|].
  cbn [AddAll fold_left last_binding]. fold (AddAll rest (Add n' v d)).
  rewrite IH. destruct (last_binding n rest); [done|].
  unfold Add. cbn [fst snd]. destruct (String.eqb n' n) eqn:E.
  - apply String.eqb_eq in E as ->. apply lookup_insert_eq.
  - apply String.eqb_neq in E. by apply lookup_insert_ne.
Qed.

Lemma define_pairs_cons (e : XMBElement) (es : list XMBElement) :
  define_pairs (e :: es)
  = if is_tag "define" e
    then (GetNamedItem (GetAttributes e) "name",
          GetNamedItem (GetAttributes e) "value") :: define_pairs es
    else define_pairs es.
Proof. unfold define_pairs. cbn. by destruct (is_tag "define" e). Qed.

Lemma PassElement_passDefines (e : XMBElement) (s : PassState) :
  passDefines (PassElement e s)
  = if is_tag "define" e then AddDefineElement e (passDefines s)
    else passDefines s.
Proof.
  unfold PassElement, is_tag, PassElement_blend.
  repeat case_match; done.
Qed.

(** The defines of a pass are the defines it started from with its own
    [define] children added in order; nothing else of the pass matters. *)
Lemma PassElements_passDefines (es : list XMBElement) (s : PassState) :
  passDefines (PassElements es s) = AddAll (define_pairs es) (passDefines s).
Proof.
  revert s. induction es as [|e es IH]; intros s; [done|].
  rewrite PassElements_cons, IH, PassElement_passDefines, define_pairs_cons.
  by destruct (is_tag "define" e).
Qed.

Lemma TechDefines_spec (baseDefines : CShaderDefines)
    (Children : list XMBElement) :
  (TechDefines baseDefines Children).1
  = AddAll (define_pairs Children) baseDefines.
Proof.
  unfold TechDefines. generalize false. revert baseDefines.
  induction Children as [|c cs IH]; intros d b; [done|].
  cbn [fold_left]. rewrite define_pairs_cons. unfold TechChild at 2, is_tag.
  cbn [fst snd].
  destruct (String.eqb (GetNodeName c) "define"); [apply IH|].
  destruct (String.eqb (GetNodeName c) "sort_by_distance"); apply IH.
Qed.

(** Only the [pass] children matter to the loop over the passes. *)
Lemma TechPasses_filter (techDefines : CShaderDefines)
    (Children : list XMBElement) (techPasses : list CShaderPass) (w : State) :
  TechPasses techDefines Children techPasses w
  = TechPasses techDefines (List.filter (is_tag "pass") Children) techPasses w.
Proof.
  revert techPasses w.
  induction Children as [|c cs IH]; intros techPasses w; [done|].
  cbn [TechPasses List.filter]. unfold is_tag at 1.
  destruct (String.eqb (GetNodeName c) "pass") eqn:E; [|apply IH].
  cbn [TechPasses]. rewrite E. unfold bind. by rewrite IH.
Qed.

(** *** More on program descriptions *)

(** X1: the attribute locations are within 0..15; the sixteen known
    semantics raise no warning, have pairwise different locations, and
    between them take every location from 0 to 15. *)
Theorem X1_ParseAttribSemantics_table :
  (∀ str, 0 ≤ (ParseAttribSemantics str).1 ≤ 15) ∧
  (∀ str, str ∈ known_semantics → (ParseAttribSemantics str).2 = []) ∧
  (∀ s1 s2, s1 ∈ known_semantics → s2 ∈ known_semantics →
            (ParseAttribSemantics s1).1 = (ParseAttribSemantics s2).1 → s1 = s2) ∧
  (∀ loc, 0 ≤ loc ≤ 15 →
          ∃ str, str ∈ known_semantics ∧ (ParseAttribSemantics str).1 = loc).
Proof.
  split; [|split; [|split]].
  - intros str. unfold ParseAttribSemantics. repeat case_match; cbn; lia.
  - intros str Hin. unfold known_semantics in Hin.
    repeat (apply elem_of_cons in Hin as [->|Hin]; [reflexivity|]).
    by apply elem_of_nil in Hin.
  - intros s1 s2 H1 H2. unfold known_semantics in H1, H2.
    repeat (apply elem_of_cons in H1 as [->|H1];
            [repeat (apply elem_of_cons in H2 as [->|H2];
                     [vm_compute; congruence|]);
             by apply elem_of_nil in H2|]).
    by apply elem_of_nil in H1.
  - intros loc Hloc.
    assert (Hcases : loc = 0 ∨ loc = 1 ∨ loc = 2 ∨ loc = 3 ∨ loc = 4 ∨ loc = 5 ∨
                     loc = 6 ∨ loc = 7 ∨ loc = 8 ∨ loc = 9 ∨ loc = 10 ∨
                     loc = 11 ∨ loc = 12 ∨ loc = 13 ∨ loc = 14 ∨ loc = 15)
      by lia.
    assert (Hall : ∀ str, bool_decide (str ∈ known_semantics) = true →
                          str ∈ known_semantics)
      by (intros str; apply bool_decide_eq_true_1).
    destruct Hcases as [->|[->|[->|[->|[->|[->|[->|[->|[->|[->|[->|[->|[->|[->
                         |[->| ->]]]]]]]]]]]]]]].
    + exists "gl_Vertex". split; [apply Hall|]; vm_compute; reflexivity.
    + exists "CustomAttribute0". split; [apply Hall|]; vm_compute; reflexivity.
    + exists "gl_Normal". split; [apply Hall|]; vm_compute; reflexivity.
    + exists "gl_Color". split; [apply Hall|]; vm_compute; reflexivity.
    + exists "gl_SecondaryColor". split; [apply Hall|]; vm_compute; reflexivity.
    + exists "gl_FogCoord". split; [apply Hall|]; vm_compute; reflexivity.
    + exists "CustomAttribute1". split; [apply Hall|]; vm_compute; reflexivity.
    + exists "CustomAttribute2". split; [apply Hall|]; vm_compute; reflexivity.
    + exists "gl_MultiTexCoord0". split; [apply Hall|]; vm_compute; reflexivity.
    + exists "gl_MultiTexCoord1". split; [apply Hall|]; vm_compute; reflexivity.
    + exists "gl_MultiTexCoord2". split; [apply Hall|]; vm_compute; reflexivity.
    + exists "gl_MultiTexCoord3". split; [apply Hall|]; vm_compute; reflexivity.
    + exists "gl_MultiTexCoord4". split; [apply Hall|]; vm_compute; reflexivity.
    + exists "gl_MultiTexCoord5". split; [apply Hall|]; vm_compute; reflexivity.
    + exists "gl_MultiTexCoord6". split; [apply Hall|]; vm_compute; reflexivity.
    + exists "gl_MultiTexCoord7". split; [apply Hall|]; vm_compute; reflexivity.
Qed.

(** A loop over parameters keeps what each parameter keeps. *)
Lemma fold_params_keep {A B : Type} (π : ProgramLocals → B)
    (step : A → ProgramLocals → ProgramLocals) (xs : list A) (l : ProgramLocals) :
  (∀ x l, π (step x l) = π l) →
  π (fold_left (λ l x, step x l) xs l) = π l.
Proof.
  intros Hstep. revert l. induction xs as [|x xs IH]; intros l; [done|].
  cbn [fold_left]. by rewrite IH, Hstep.
Qed.

Lemma VertexParam_defines (baseDefines : CShaderDefines) (Param : XMBElement)
    (l : ProgramLocals) :
  defines (VertexParam baseDefines Param l) = defines l.
Proof. unfold VertexParam, StreamParam. cbv zeta. repeat case_match; done. Qed.

Lemma FragmentParam_defines (baseDefines : CShaderDefines) (Param : XMBElement)
    (l : ProgramLocals) :
  defines (FragmentParam baseDefines Param l) = defines l.
Proof. unfold FragmentParam. cbv zeta. repeat case_match; done. Qed.

Lemma RootChild_defines (baseDefines : CShaderDefines) (Child : XMBElement)
    (l : ProgramLocals) :
  defines (RootChild baseDefines Child l)
  = if is_tag "define" Child then AddDefineElement Child (defines l)
    else defines l.
Proof.
  unfold RootChild, is_tag. repeat case_match; [done| | |done].
  - rewrite (fold_params_keep defines (VertexParam baseDefines)); [done|].
    apply VertexParam_defines.
  - rewrite (fold_params_keep defines (FragmentParam baseDefines)); [done|].
    apply FragmentParam_defines.
Qed.

Lemma fold_RootChild_defines (baseDefines : CShaderDefines)
    (Children : list XMBElement) (l : ProgramLocals) :
  defines (fold_left (λ l Child, RootChild baseDefines Child l) Children l)
  = AddAll (define_pairs Children) (defines l).
Proof.
  revert l. induction Children as [|c cs IH]; intros l; [done|].
  cbn [fold_left]. rewrite IH, RootChild_defines, define_pairs_cons.
  by destruct (is_tag "define" c).
Qed.

Lemma ParseProgram_defines (baseDefines : CShaderDefines) (root : XMBElement) :
  defines (ParseProgram baseDefines root)
  = AddAll (define_pairs (GetChildNodes root)) baseDefines.
Proof. unfold ParseProgram. by rewrite fold_RootChild_defines. Qed.

Lemma program_defines_Construct (root : XMBElement) (l : ProgramLocals) :
  program_defines (ConstructProgram root l) = defines l.
Proof. unfold ConstructProgram. by case_match. Qed.

(** X2: the program that [LoadProgram] builds for a key that is not cached
    is made with the define set of the call to which the [define] children
    of the root of the description are added in document order, a later
    write of a name winning, wherever they stand among the other
    children. *)
Theorem X2_program_defines (name : string) (defines : CShaderDefines)
    (w : State) (root : XMBElement) :
  m_ProgramCache w !! {| ck_name := name; ck_defines := defines |} = None →
  g_VFS ("shaders/" +:+ name +:+ ".xml") = Some root →
  ValidateEncoded name root = true →
  let r := LoadProgram name defines w in
  ∃ program obj,
    r.1 = Some program ∧ programs r.2 !! program = Some obj ∧
    program_defines obj = AddAll (define_pairs (GetChildNodes root)) defines ∧
    ∀ n, program_defines obj !! n
         = match last_binding n (define_pairs (GetChildNodes root)) with
           | Some v => Some v
           | None => defines !! n
           end.
Proof.
  intros Hmiss Hload Hvalid r.
  destruct (LoadProgram_ok name defines w root Hmiss Hload Hvalid)
    as (Hr & Hp & _).
  exists (length (programs w)),
         (ConstructProgram root (ParseProgram defines root)).
  split; [exact Hr|]. split.
  - subst r. rewrite Hp. apply list_lookup_middle. done.
  - rewrite program_defines_Construct, ParseProgram_defines.
    split; [done|]. intros n. apply AddAll_lookup.
Qed.

Lemma lor_STREAM_ALL (flag : Z) :
  flag = STREAM_POS ∨ flag = STREAM_NORMAL ∨ flag = STREAM_COLOR ∨
  flag = STREAM_UV0 ∨ flag = STREAM_UV1 ∨ flag = STREAM_UV2 ∨
  flag = STREAM_UV3 →
  Z.lor flag STREAM_ALL = STREAM_ALL.
Proof.
  intros H. apply Z.bits_inj'. intros n Hn. unfold STREAM_ALL.
  rewrite !Z.lor_spec.
  destruct H as [->|[->|[->|[->|[->|[->| ->]]]]]];
    repeat (destruct (Z.testbit _ n); cbn; try done).
Qed.

Lemma StreamParam_flags (StreamName : string) (l : ProgramLocals) :
  Z.lor (streamFlags l) STREAM_ALL = STREAM_ALL →
  Z.lor (streamFlags (StreamParam StreamName l)) STREAM_ALL = STREAM_ALL.
Proof.
  intros H. unfold StreamParam.
  repeat case_match; cbn [streamFlags or_streamFlags]; try done;
    rewrite <- Z.lor_assoc, lor_STREAM_ALL; try done;
    repeat first [left; reflexivity | right]; reflexivity.
Qed.

(** A loop over parameters keeps an invariant that each parameter keeps. *)
Lemma fold_params_inv {A : Type} (P : ProgramLocals → Prop)
    (step : A → ProgramLocals → ProgramLocals) (xs : list A) (l : ProgramLocals) :
  (∀ x l, P l → P (step x l)) →
  P l → P (fold_left (λ l x, step x l) xs l).
Proof.
  intros Hstep. revert l. induction xs as [|x xs IH]; intros l Hl; [done|].
  cbn [fold_left]. by apply IH, Hstep.
Qed.

Lemma VertexParam_flags (baseDefines : CShaderDefines) (Param : XMBElement)
    (l : ProgramLocals) :
  Z.lor (streamFlags l) STREAM_ALL = STREAM_ALL →
  Z.lor (streamFlags (VertexParam baseDefines Param l)) STREAM_ALL = STREAM_ALL.
Proof.
  intros H. unfold VertexParam. cbv zeta.
  repeat case_match; try done. by apply StreamParam_flags.
Qed.

Lemma FragmentParam_flags (baseDefines : CShaderDefines) (Param : XMBElement)
    (l : ProgramLocals) :
  streamFlags (FragmentParam baseDefines Param l) = streamFlags l.
Proof. unfold FragmentParam. cbv zeta. repeat case_match; done. Qed.

Lemma RootChild_flags (baseDefines : CShaderDefines) (Child : XMBElement)
    (l : ProgramLocals) :
  Z.lor (streamFlags l) STREAM_ALL = STREAM_ALL →
  Z.lor (streamFlags (RootChild baseDefines Child l)) STREAM_ALL = STREAM_ALL.
Proof.
  intros H. unfold RootChild. repeat case_match; [done| | |done].
  - apply (fold_params_inv
             (λ l, Z.lor (streamFlags l) STREAM_ALL = STREAM_ALL)
             (VertexParam baseDefines)); [|done].
    intros x l'. apply VertexParam_flags.
  - rewrite (fold_params_keep streamFlags (FragmentParam baseDefines)); [done|].
    apply FragmentParam_flags.
Qed.

Lemma RootChild_flags_other (baseDefines : CShaderDefines) (Child : XMBElement)
    (l : ProgramLocals) :
  is_tag "vertex" Child = false →
  streamFlags (RootChild baseDefines Child l) = streamFlags l.
Proof.
  unfold is_tag. intros H. unfold RootChild. rewrite H.
  repeat case_match; try done.
  rewrite (fold_params_keep streamFlags (FragmentParam baseDefines)); [done|].
  apply FragmentParam_flags.
Qed.

(** X3: the stream flags a program is made with hold no bit outside the
    seven stream flags, whatever the description says; and they are zero
    when the root has no [vertex] child. *)
Theorem X3_stream_flags (baseDefines : CShaderDefines) (root : XMBElement) :
  let l := ParseProgram baseDefines root in
  Z.lor (streamFlags l) STREAM_ALL = STREAM_ALL ∧
  program_streamFlags (ConstructProgram root l) = streamFlags l ∧
  (existsb (is_tag "vertex") (GetChildNodes root) = false → streamFlags l = 0).
Proof.
  intros l. subst l. unfold ParseProgram. split; [|split].
  - apply (fold_params_inv
             (λ l, Z.lor (streamFlags l) STREAM_ALL = STREAM_ALL)
             (RootChild baseDefines)).
    + intros x l. apply RootChild_flags.
    + apply Z.lor_0_l.
  - unfold ConstructProgram. by case_match.
  - intros Hno.
    assert (H : ∀ cs l, existsb (is_tag "vertex") cs = false →
      streamFlags (fold_left (λ l Child, RootChild baseDefines Child l) cs l)
      = streamFlags l).
    { clear. induction cs as [|c cs IH]; intros l Hno; [done|].
      cbn [existsb] in Hno. apply orb_false_iff in Hno as [Hc Hcs].
      cbn [fold_left]. rewrite IH by done. by apply RootChild_flags_other. }
    by rewrite H.
Qed.

(** *** Programs and their files *)

(** The hotload entries after the loop over the dependencies of a new
    program: the program is under each of its paths, what was registered
    stays, and nothing else comes in. *)
Lemma fold_dependencies (program : nat) (paths : list string)
    (m : gmap string (gset nat)) :
  let m' := fold_left
              (λ m path, <[path := {[program]} ∪ default ∅ (m !! path)]> m)
              paths m in
  (∀ path, path ∈ paths → program ∈ default ∅ (m' !! path)) ∧
  (∀ path q, q ∈ default ∅ (m !! path) → q ∈ default ∅ (m' !! path)) ∧
  (∀ path q, q ∈ default ∅ (m' !! path) →
             (q = program ∧ path ∈ paths) ∨ q ∈ default ∅ (m !! path)).
Proof.
  revert m. induction paths as [|p paths IH]; intros m m'.
  - subst m'. cbn. split; [|split]; [|done|by right].
    intros path H. by apply elem_of_nil in H.
  - subst m'. cbn [fold_left].
    destruct (IH (<[p := {[program]} ∪ default ∅ (m !! p)]> m))
      as (IH1 & IH2 & IH3).
    split; [|split].
    + intros path [->|Hin]%elem_of_cons; [|by apply IH1].
      apply IH2. rewrite lookup_insert_eq. cbn.
      by apply elem_of_union_l, elem_of_singleton_2.
    + intros path q Hq. apply IH2.
      destruct (decide (p = path)) as [->|Hne].
      * rewrite lookup_insert_eq. cbn. by apply elem_of_union_r.
      * by rewrite lookup_insert_ne.
    + intros path q Hq. apply IH3 in Hq as [[-> Hin]|Hq].
      * left. split; [done|]. by apply list_elem_of_further.
      * destruct (decide (p = path)) as [->|Hne].
        -- rewrite lookup_insert_eq in Hq. cbn in Hq.
           apply elem_of_union in Hq as [->%elem_of_singleton|Hq].
           ++ left. split; [done|]. apply list_elem_of_here.
           ++ by right.
        -- rewrite lookup_insert_ne in Hq by done. by right.
Qed.

(** The hotload map after a [LoadProgram] that builds a program. *)
Lemma LoadProgram_HotloadFiles (name : string) (defines : CShaderDefines)
    (w : State) (root : XMBElement) :
  m_ProgramCache w !! {| ck_name := name; ck_defines := defines |} = None →
  g_VFS ("shaders/" +:+ name +:+ ".xml") = Some root →
  ValidateEncoded name root = true →
  m_HotloadFiles (LoadProgram name defines w).2
  = fold_left
      (λ m path, <[path := {[length (programs w)]} ∪ default ∅ (m !! path)]> m)
      (GetFileDependencies (ConstructProgram root (ParseProgram defines root)))
      (m_HotloadFiles w) ∧
  expired (LoadProgram name defines w).2 = expired w.
Proof.
  intros Hmiss Hload Hvalid.
  rewrite (LoadProgram_miss _ _ _ Hmiss). cbv zeta.
  rewrite NewProgram_spec. cbv zeta. rewrite Hload, Hvalid. done.
Qed.

(** X4: when [LoadProgram] builds a program, the program is registered
    under every path it reports as a dependency, every earlier registration
    is still there, and nothing else is registered. *)
Theorem X4_dependencies_registered (name : string) (defines : CShaderDefines)
    (w : State) (root : XMBElement) :
  m_ProgramCache w !! {| ck_name := name; ck_defines := defines |} = None →
  g_VFS ("shaders/" +:+ name +:+ ".xml") = Some root →
  ValidateEncoded name root = true →
  let r := LoadProgram name defines w in
  let program := length (programs w) in
  let paths := GetFileDependencies
                 (ConstructProgram root (ParseProgram defines root)) in
  let registered (w' : State) (path : string) :=
    default ∅ (m_HotloadFiles w' !! path) in
  r.1 = Some program ∧
  (∀ path, path ∈ paths → program ∈ registered r.2 path) ∧
  (∀ path q, q ∈ registered w path → q ∈ registered r.2 path) ∧
  (∀ path q, q ∈ registered r.2 path →
             (q = program ∧ path ∈ paths) ∨ q ∈ registered w path).
Proof.
  intros Hmiss Hload Hvalid r program paths registered.
  destruct (LoadProgram_ok name defines w root Hmiss Hload Hvalid) as (Hr & _).
  destruct (LoadProgram_HotloadFiles name defines w root Hmiss Hload Hvalid)
    as [Hhot _].
  split; [exact Hr|]. subst registered r. cbn beta. rewrite Hhot.
  apply fold_dependencies.
Qed.

(** X5: loading a program and then changing one of the files it depends on
    reloads that program exactly once, as long as it is alive; the change
    is answered with [INFO::OK] and leaves everything but the trace as it
    was. *)
Theorem X5_load_then_change (name : string) (defines : CShaderDefines)
    (w : State) (root : XMBElement) (path : string) :
  m_ProgramCache w !! {| ck_name := name; ck_defines := defines |} = None →
  g_VFS ("shaders/" +:+ name +:+ ".xml") = Some root →
  ValidateEncoded name root = true →
  path ∈ GetFileDependencies
           (ConstructProgram root (ParseProgram defines root)) →
  length (programs w) ∉ expired w →
  let r := LoadProgram name defines w in
  ∃ evs, ReloadChangedFile path r.2 = (INFO_OK, set_trace (λ t, t ++ evs) r.2) ∧
         reloads_of (length (programs w)) evs = 1%nat.
Proof.
  intros Hmiss Hload Hvalid Hpath Hlive r.
  destruct (LoadProgram_HotloadFiles name defines w root Hmiss Hload Hvalid)
    as [Hhot Hexp].
  pose proof (fold_dependencies (length (programs w))
                (GetFileDependencies
                   (ConstructProgram root (ParseProgram defines root)))
                (m_HotloadFiles w)) as (Hin & _ & _).
  specialize (Hin path Hpath). rewrite <- Hhot in Hin. fold r in Hin, Hexp.
  rewrite ReloadChangedFile_spec.
  destruct (m_HotloadFiles r.2 !! path) as [dependents|] eqn:E.
  - eexists. split; [reflexivity|].
    rewrite reloads_of_dependents. apply decide_True.
    split; [exact Hin|]. by rewrite Hexp.
  - cbn in Hin. by apply not_elem_of_empty in Hin.
Qed.

(** X6: when the description of a program cannot be loaded, or does not
    validate, [LoadProgram] returns null, logs exactly one error, caches the
    null handle under the key, and creates nothing: no program object, no
    hotload entry, no technique, no effect cache entry. *)
Theorem X6_failed_program_creates_nothing (name : string)
    (defines : CShaderDefines) (w : State) :
  m_ProgramCache w !! {| ck_name := name; ck_defines := defines |} = None →
  (g_VFS ("shaders/" +:+ name +:+ ".xml") = None ∨
   ∃ root, g_VFS ("shaders/" +:+ name +:+ ".xml") = Some root ∧
           ValidateEncoded name root = false) →
  let r := LoadProgram name defines w in
  r.1 = None ∧
  m_ProgramCache r.2
  = <[{| ck_name := name; ck_defines := defines |} := None]> (m_ProgramCache w) ∧
  programs r.2 = programs w ∧
  m_HotloadFiles r.2 = m_HotloadFiles w ∧
  techniques r.2 = techniques w ∧
  m_EffectCache r.2 = m_EffectCache w ∧
  errors_of (trace r.2)
  = errors_of (trace w)
    ++ [EvLOGERROR ("Failed to load shader '" +:+ name +:+ "'")].
Proof.
  intros Hmiss Hfail r. subst r.
  rewrite (LoadProgram_miss _ _ _ Hmiss). cbv zeta.
  rewrite NewProgram_spec. cbv zeta.
  destruct Hfail as [Hload|(root & Hload & Hvalid)].
  - rewrite Hload. cbn. repeat split.
    rewrite !errors_of_app. cbn. by rewrite app_nil_r.
  - rewrite Hload, Hvalid. cbn. repeat split.
    rewrite !errors_of_app. cbn. by rewrite app_nil_r.
Qed.

(** *** Handles and objects *)

Lemma program_frame_refl (w : State) : program_frame w w.
Proof. by repeat split. Qed.

Lemma program_frame_trans (w1 w2 w3 : State) :
  program_frame w1 w2 → program_frame w2 w3 → program_frame w1 w3.
Proof.
  intros (Hp & Ht & Hte & He & Hc) (Hp' & Ht' & Hte' & He' & Hc').
  repeat split; try (by etrans). all: congruence.
Qed.

Lemma LoadProgram_frame (name : string) (defines : CShaderDefines) (w : State) :
  program_frame w (LoadProgram name defines w).2.
Proof.
  destruct (m_ProgramCache w !! {| ck_name := name; ck_defines := defines |})
    as [second|] eqn:H.
  - rewrite (LoadProgram_hit _ _ _ _ H). apply program_frame_refl.
  - rewrite (LoadProgram_miss _ _ _ H). cbv zeta.
    rewrite NewProgram_spec. cbv zeta.
    destruct (g_VFS _) as [root|]; [destruct (ValidateEncoded name root)|];
      unfold program_frame; simpl;
      (split; [try done; by apply prefix_app_r|]);
      (split; [|done]); rewrite <- ?app_assoc; by apply prefix_app_r.
Qed.

Lemma elem_of_default_lookup (m : gmap string (gset nat)) (path : string)
    (p : nat) :
  p ∈ default ∅ (m !! path) ↔ ∃ dependents, m !! path = Some dependents ∧ p ∈ dependents.
Proof.
  destruct (m !! path) as [d|]; cbn.
  - split; [by exists d|]. by intros (? & [= <-] & ?).
  - split; [by intros ?%not_elem_of_empty|]. by intros (? & [=] & _).
Qed.

(** [LoadProgram] keeps the handles valid and unshared, and returns a valid
    handle. *)
Lemma LoadProgram_handles (name : string) (defines : CShaderDefines) (w : State) :
  handles_valid w →
  let r := LoadProgram name defines w in
  handles_valid r.2 ∧
  (handles_unshared w → handles_unshared r.2) ∧
  (∀ p, r.1 = Some p → (p < length (programs r.2))%nat).
Proof.
  intros (Hpc & Hec & Htp & Hhf) r. subst r.
  destruct (m_ProgramCache w !! {| ck_name := name; ck_defines := defines |})
    as [second|] eqn:H.
  { rewrite (LoadProgram_hit _ _ _ _ H). cbn. split; [done|]. split; [done|].
    intros p ->. by eapply Hpc. }
  rewrite (LoadProgram_miss _ _ _ H). cbv zeta.
  rewrite NewProgram_spec. cbv zeta.
  destruct (g_VFS _) as [root|] eqn:Hload;
    [destruct (ValidateEncoded name root) eqn:Hvalid|];
    unfold handles_valid, handles_unshared; simpl.
  - (* a program is built *)
    split; [|split].
    + split; [|split; [|split]].
      * intros k p. rewrite length_app. cbn.
        destruct (decide ({| ck_name := name; ck_defines := defines |} = k))
          as [<-|Hne].
        -- rewrite lookup_insert_eq. intros [= <-]. lia.
        -- rewrite lookup_insert_ne by done. intros Hk%Hpc. lia.
      * done.
      * intros t tech pass p Ht Hpass Hs. rewrite length_app.
        specialize (Htp t tech pass p Ht Hpass Hs). lia.
      * intros path dependents p Hd Hp. rewrite length_app. cbn.
        assert (Hin : p ∈ default ∅
                  (fold_left
                     (λ m path0, <[path0 := {[length (programs w)]}
                                            ∪ default ∅ (m !! path0)]> m)
                     (GetFileDependencies
                        (ConstructProgram root (ParseProgram defines root)))
                     (m_HotloadFiles w) !! path))
          by (apply elem_of_default_lookup; eauto).
        apply fold_dependencies in Hin as [[-> _]|Hin]; [lia|].
        apply elem_of_default_lookup in Hin as (d & Hd' & Hp').
        specialize (Hhf path d p Hd' Hp'). lia.
    + intros [Hup Hue]. split; [|done].
      intros k1 k2 p.
      destruct (decide ({| ck_name := name; ck_defines := defines |} = k1))
        as [<-|Hne1];
        destruct (decide ({| ck_name := name; ck_defines := defines |} = k2))
        as [<-|Hne2]; rewrite ?lookup_insert_eq, ?lookup_insert_ne by done.
      * done.
      * intros [= <-] Hk%Hpc. lia.
      * intros Hk%Hpc [= <-]. lia.
      * apply Hup.
    + intros p [= <-]. rewrite length_app. cbn. lia.
  - (* the description does not validate *)
    split; [|split; [|done]].
    + split; [|done]. intros k p.
      destruct (decide ({| ck_name := name; ck_defines := defines |} = k))
        as [<-|Hne]; [by rewrite lookup_insert_eq|].
      rewrite lookup_insert_ne by done. apply Hpc.
    + intros [Hup Hue]. split; [|done]. intros k1 k2 p.
      destruct (decide ({| ck_name := name; ck_defines := defines |} = k1))
        as [<-|Hne1]; [by rewrite lookup_insert_eq|].
      destruct (decide ({| ck_name := name; ck_defines := defines |} = k2))
        as [<-|Hne2]; [by rewrite lookup_insert_eq|].
      rewrite !lookup_insert_ne by done. apply Hup.
  - (* the description does not load *)
    split; [|split; [|done]].
    + split; [|done]. intros k p.
      destruct (decide ({| ck_name := name; ck_defines := defines |} = k))
        as [<-|Hne]; [by rewrite lookup_insert_eq|].
      rewrite lookup_insert_ne by done. apply Hpc.
    + intros [Hup Hue]. split; [|done]. intros k1 k2 p.
      destruct (decide ({| ck_name := name; ck_defines := defines |} = k1))
        as [<-|Hne1]; [by rewrite lookup_insert_eq|].
      destruct (decide ({| ck_name := name; ck_defines := defines |} = k2))
        as [<-|Hne2]; [by rewrite lookup_insert_eq|].
      rewrite !lookup_insert_ne by done. apply Hup.
Qed.

Lemma program_frame_length (w w' : State) :
  program_frame w w' → (length (programs w) ≤ length (programs w'))%nat.
Proof. intros [Hp _]. by apply prefix_length. Qed.

(** The passes of a technique are resolved to valid handles. *)
Lemma TechPasses_handles (techDefines : CShaderDefines)
    (Children : list XMBElement) (techPasses : list CShaderPass) (w : State) :
  handles_valid w →
  (∀ pass p, pass ∈ techPasses → shader pass = Some p →
             (p < length (programs w))%nat) →
  let r := TechPasses techDefines Children techPasses w in
  handles_valid r.2 ∧
  (handles_unshared w → handles_unshared r.2) ∧
  program_frame w r.2 ∧
  (∀ pass p, pass ∈ r.1 → shader pass = Some p →
             (p < length (programs r.2))%nat).
Proof.
  revert techPasses w.
  induction Children as [|Child rest IH]; intros techPasses w Hw Hacc.
  { cbn. split; [done|]. split; [done|]. split; [apply program_frame_refl|done]. }
  cbn [TechPasses]. destruct (String.eqb (GetNodeName Child) "pass");
    [|by apply IH].
  unfold bind, emits, modify. cbn [fst snd].
  set (w0 := set_trace
               (λ t, t ++ (EvLOGERROR <$> passLog (BuildPass techDefines Child))) w).
  assert (Hw0 : handles_valid w0) by exact Hw.
  assert (Hf0 : program_frame w w0).
  { unfold program_frame, w0. simpl. split; [done|]. split; [|done].
    by apply prefix_app_r. }
  destruct (LoadProgram_handles
              (GetNamedItem (GetAttributes Child) "shader")
              (passDefines (BuildPass techDefines Child)) w0 Hw0)
    as (Hw1 & Hu1 & Hret).
  pose proof (LoadProgram_frame
                (GetNamedItem (GetAttributes Child) "shader")
                (passDefines (BuildPass techDefines Child)) w0) as Hf1.
  destruct (LoadProgram (GetNamedItem (GetAttributes Child) "shader")
              (passDefines (BuildPass techDefines Child)) w0) as [program w1].
  cbn [fst snd] in *.
  pose proof (program_frame_length _ _ Hf1) as Hlen.
  edestruct (IH (techPasses ++
                   [{| pipelineStateDesc :=
                         passPipelineStateDesc (BuildPass techDefines Child);
                       shader := program |}]) w1 Hw1) as (Hw2 & Hu2 & Hf2 & Hres).
  { intros pass p [Hin|Hin]%elem_of_app Hs.
    - specialize (Hacc pass p Hin Hs). unfold w0 in Hlen. cbn in Hlen. lia.
    - apply list_elem_of_singleton in Hin as ->. cbn in Hs. by apply Hret. }
  split; [exact Hw2|]. split; [by intros ?%Hu1%Hu2|].
  split; [|exact Hres].
  eapply program_frame_trans; [|exact Hf2].
  by eapply program_frame_trans.
Qed.

(** [BuildTechnique] in full. *)
Lemma BuildTechnique_spec (baseDefines : CShaderDefines) (tech : nat)
    (usableTechs_0 : XMBElement) (w : State) :
  let t := TechDefines baseDefines (GetChildNodes usableTechs_0) in
  let w0 := if t.2
            then set_techniques
                   (alter (λ x, {| sortByDistance := true; passes := passes x |})
                          tech) w
            else w in
  let r := TechPasses t.1 (GetChildNodes usableTechs_0) [] w0 in
  BuildTechnique baseDefines tech usableTechs_0 w
  = (true,
     set_techniques
       (alter (λ x, {| sortByDistance := sortByDistance x; passes := r.1 |}) tech)
       r.2).
Proof.
  intros t w0 r. unfold BuildTechnique. cbv zeta. fold t.
  unfold bind, SetPasses, SetSortByDistance, modify, ret. subst r w0.
  destruct (t.2); reflexivity.
Qed.

Lemma TechPasses_frame (techDefines : CShaderDefines)
    (Children : list XMBElement) (techPasses : list CShaderPass) (w : State) :
  program_frame w (TechPasses techDefines Children techPasses w).2.
Proof.
  revert techPasses w.
  induction Children as [|Child rest IH]; intros techPasses w.
  { apply program_frame_refl. }
  cbn [TechPasses]. destruct (String.eqb (GetNodeName Child) "pass");
    [|by apply IH].
  unfold bind, emits, modify. cbn [fst snd].
  eapply program_frame_trans; [|apply IH].
  eapply program_frame_trans; [|apply LoadProgram_frame].
  unfold program_frame. simpl. split; [done|]. split; [|done].
  by apply prefix_app_r.
Qed.

(** Loading programs neither reads nor writes the techniques. *)
Lemma LoadProgram_set_techniques
    (f : list CShaderTechnique → list CShaderTechnique)
    (name : string) (defines : CShaderDefines) (w : State) :
  LoadProgram name defines (set_techniques f w)
  = ((LoadProgram name defines w).1,
     set_techniques f (LoadProgram name defines w).2).
Proof.
  destruct (m_ProgramCache w !! {| ck_name := name; ck_defines := defines |})
    as [second|] eqn:H.
  - rewrite (LoadProgram_hit _ _ w _ H).
    by rewrite (LoadProgram_hit _ _ (set_techniques f w) second).
  - rewrite (LoadProgram_miss _ _ w H).
    rewrite (LoadProgram_miss _ _ (set_techniques f w)) by done.
    cbv zeta. rewrite !NewProgram_spec. cbv zeta.
    destruct (g_VFS _) as [root|]; [destruct (ValidateEncoded name root)|];
      reflexivity.
Qed.

Lemma TechPasses_set_techniques
    (f : list CShaderTechnique → list CShaderTechnique)
    (techDefines : CShaderDefines) (Children : list XMBElement)
    (techPasses : list CShaderPass) (w : State) :
  TechPasses techDefines Children techPasses (set_techniques f w)
  = ((TechPasses techDefines Children techPasses w).1,
     set_techniques f (TechPasses techDefines Children techPasses w).2).
Proof.
  revert techPasses w.
  induction Children as [|Child rest IH]; intros techPasses w; [done|].
  cbn [TechPasses]. destruct (String.eqb (GetNodeName Child) "pass");
    [|by apply IH].
  unfold bind, emits, modify. cbn [fst snd].
  change (set_trace ?g (set_techniques f w))
    with (set_techniques f (set_trace g w)).
  rewrite LoadProgram_set_techniques. cbn [fst snd]. by rewrite IH.
Qed.

Lemma alter_last {A : Type} (g : A → A) (l : list A) (x : A) :
  alter g (length l) (l ++ [x]) = l ++ [g x].
Proof.
  replace (length l) with (length l + 0)%nat by lia.
  by rewrite alter_app_r.
Qed.

(** [LoadEffect] when a technique is usable: the new technique object holds
    the passes of the first usable candidate. *)
Lemma LoadEffect_build (name : string) (defines : CShaderDefines) (w : State)
    (Root T : XMBElement) (rest : list XMBElement) :
  m_EffectCache w !! {| ek_name := name; ek_defines := defines |} = None →
  g_VFS ("shaders/effects/" +:+ name +:+ ".xml") = Some Root →
  (UsableTechs defines (GetChildNodes Root)).1 = T :: rest →
  let t := TechDefines defines (GetChildNodes T) in
  let w1 := set_trace
              (λ tr, tr ++ EvLoad ("shaders/effects/" +:+ name +:+ ".xml")
                           :: (UsableTechs defines (GetChildNodes Root)).2) w in
  let r := TechPasses t.1 (GetChildNodes T) [] w1 in
  LoadEffect name defines w
  = (Some (length (techniques w)),
     set_EffectCache
       <[{| ek_name := name; ek_defines := defines |}
         := Some (length (techniques w))]>
       (set_techniques
          (λ l, l ++ [{| sortByDistance := t.2; passes := r.1 |}]) r.2)).
Proof.
  intros Hmiss Hload Husable t w1 r.
  rewrite (LoadEffect_miss _ _ _ Hmiss). cbv zeta.
  rewrite NewEffect_spec. cbv zeta. rewrite Hload, Husable.
  rewrite BuildTechnique_spec. cbv zeta. fold t. cbn [fst snd negb].
  f_equal. f_equal.
  pose proof (TechPasses_frame t.1 (GetChildNodes T) [] w1) as (_ & _ & Hte & _).
  fold r in Hte. cbn in Hte.
  destruct (t.2) eqn:Hsort.
  - change (set_techniques ?g (set_trace ?h (set_techniques ?k w)))
      with (set_techniques (λ l, g (k l)) w1).
    rewrite TechPasses_set_techniques. fold r. cbn [fst snd].
    unfold set_techniques. cbn. f_equal. rewrite Hte.
    by rewrite !alter_last.
  - change (set_trace ?h (set_techniques ?k w))
      with (set_techniques k w1).
    rewrite TechPasses_set_techniques. fold r. cbn [fst snd].
    unfold set_techniques. cbn. f_equal. rewrite Hte.
    by rewrite !alter_last.
Qed.

(** [LoadEffect] when the document does not load or no technique is
    usable: the technique object made for the call is dropped, and the null
    handle is cached. *)
Lemma LoadEffect_fail (name : string) (defines : CShaderDefines) (w : State) :
  m_EffectCache w !! {| ek_name := name; ek_defines := defines |} = None →
  let xmlFilename := "shaders/effects/" +:+ name +:+ ".xml" in
  let failed (evs : list Event) :=
    (None : CShaderTechniquePtr,
     set_EffectCache
       <[{| ek_name := name; ek_defines := defines |} := None]>
       (set_trace
          (λ t, t ++ evs ++
                  [EvLOGERROR ("Failed to load effect '" +:+ name +:+ "'")])
          (set_techniques
             (λ l, l ++ [{| sortByDistance := false; passes := [] |}]) w))) in
  (g_VFS xmlFilename = None →
     LoadEffect name defines w = failed [EvLoad xmlFilename]) ∧
  (∀ Root, g_VFS xmlFilename = Some Root →
     (UsableTechs defines (GetChildNodes Root)).1 = [] →
     LoadEffect name defines w
     = failed (EvLoad xmlFilename
                 :: (UsableTechs defines (GetChildNodes Root)).2
                 ++ [EvDebugWarn "Can't find a usable technique"])).
Proof.
  intros Hmiss xmlFilename failed. subst failed. split.
  - intros Hload. rewrite (LoadEffect_miss _ _ _ Hmiss). cbv zeta.
    rewrite NewEffect_spec. cbv zeta. fold xmlFilename. rewrite Hload.
    cbn [fst snd negb]. f_equal. by rewrite set_trace_app.
  - intros Root Hload Hnone. rewrite (LoadEffect_miss _ _ _ Hmiss). cbv zeta.
    rewrite NewEffect_spec. cbv zeta. fold xmlFilename. rewrite Hload, Hnone.
    cbn [fst snd negb]. f_equal. rewrite !set_trace_app. cbn [app].
    by rewrite <- !app_assoc.
Qed.

Lemma handles_valid_new_technique (w : State) (evs : list Event) :
  handles_valid w →
  handles_valid
    (set_trace (λ t, t ++ evs)
       (set_techniques
          (λ l, l ++ [{| sortByDistance := false; passes := [] |}]) w)).
Proof.
  intros (Hpc & Hec & Htp & Hhf). unfold handles_valid. simpl.
  split; [done|]. split; [|split; [|done]].
  - intros k t Hk%Hec. rewrite length_app. lia.
  - intros t tech pass p Ht Hpass Hs.
    apply lookup_app_Some in Ht as [Ht|[_ Ht]]; [by eapply Htp|].
    apply list_lookup_singleton_Some in Ht as [_ <-].
    by apply elem_of_nil in Hpass.
Qed.

Lemma insert_None_valid (w : State) (k : EffectCacheKey) :
  handles_valid w →
  handles_valid (set_EffectCache <[k := None]> w).
Proof.
  intros (Hpc & Hec & Htp & Hhf). unfold handles_valid. simpl.
  split; [done|]. split; [|done].
  intros k' t. destruct (decide (k = k')) as [<-|Hne].
  - by rewrite lookup_insert_eq.
  - rewrite lookup_insert_ne by done. apply Hec.
Qed.

Lemma insert_None_unshared (w : State) (k : EffectCacheKey) :
  handles_unshared w →
  handles_unshared (set_EffectCache <[k := None]> w).
Proof.
  intros [Hup Hue]. unfold handles_unshared. simpl. split; [done|].
  intros k1 k2 t.
  destruct (decide (k = k1)) as [<-|Hne1]; [by rewrite lookup_insert_eq|].
  destruct (decide (k = k2)) as [<-|Hne2]; [by rewrite lookup_insert_eq|].
  rewrite !lookup_insert_ne by done. apply Hue.
Qed.

(** [LoadEffect] keeps the handles valid and unshared, returns a valid
    handle, and only adds to the objects and the trace. *)
Lemma LoadEffect_handles (name : string) (defines : CShaderDefines) (w : State) :
  handles_valid w →
  let r := LoadEffect name defines w in
  handles_valid r.2 ∧
  (handles_unshared w → handles_unshared r.2) ∧
  (∀ t, r.1 = Some t → (t < length (techniques r.2))%nat).
Proof.
  intros Hw r. subst r.
  destruct (m_EffectCache w !! {| ek_name := name; ek_defines := defines |})
    as [second|] eqn:Hmiss.
  { rewrite (LoadEffect_hit _ _ _ _ Hmiss). cbn. split; [done|]. split; [done|].
    intros t ->. destruct Hw as (_ & Hec & _). by eapply Hec. }
  destruct (LoadEffect_fail name defines w Hmiss) as [Hfail1 Hfail2].
  destruct (g_VFS ("shaders/effects/" +:+ name +:+ ".xml")) as [Root|] eqn:Hload.
  2:{ rewrite Hfail1 by done. cbn [fst snd]. split; [|split; [|done]].
      - by apply insert_None_valid, handles_valid_new_technique.
      - intros Hu. by apply insert_None_unshared. }
  destruct (UsableTechs defines (GetChildNodes Root)).1 as [|T rest] eqn:Husable.
  { rewrite (Hfail2 Root) by done. cbn [fst snd]. split; [|split; [|done]].
    - by apply insert_None_valid, handles_valid_new_technique.
    - intros Hu. by apply insert_None_unshared. }
  clear Hfail1 Hfail2.
  rewrite (LoadEffect_build name defines w Root T rest Hmiss Hload Husable).
  cbv zeta. cbn [fst snd].
  set (w1 := set_trace _ w).
  assert (Hw1 : handles_valid w1) by exact Hw.
  destruct (TechPasses_handles
              (TechDefines defines (GetChildNodes T)).1 (GetChildNodes T) [] w1 Hw1)
    as ((Hpc & Hec & Htp & Hhf) & Hu & (_ & _ & Hte & _ & Hce) & Hres).
  { intros pass p Hin. by apply elem_of_nil in Hin. }
  set (r := TechPasses _ _ [] w1) in *. cbn in Hte, Hce.
  split; [|split].
  - unfold handles_valid. simpl. split; [done|]. split; [|split; [|done]].
    + intros k t. rewrite length_app, Hte. cbn.
      destruct (decide ({| ek_name := name; ek_defines := defines |} = k))
        as [<-|Hne].
      * rewrite lookup_insert_eq. intros [= <-]. lia.
      * rewrite lookup_insert_ne, Hce by done.
        destruct Hw as (_ & Hec' & _). intros Hk%Hec'. lia.
    + intros t tech pass p Ht Hpass Hs.
      apply lookup_app_Some in Ht as [Ht|[_ Ht]]; [by eapply Htp|].
      apply list_lookup_singleton_Some in Ht as [_ <-]. cbn in Hpass.
      by eapply Hres.
  - intros Hunshared. destruct (Hu Hunshared) as [Hup Hue].
    unfold handles_unshared. simpl. split; [done|].
    destruct Hw as (_ & Hec' & _). destruct Hunshared as [_ Hue'].
    intros k1 k2 t. rewrite Hce.
    destruct (decide ({| ek_name := name; ek_defines := defines |} = k1))
      as [<-|Hne1];
      destruct (decide ({| ek_name := name; ek_defines := defines |} = k2))
      as [<-|Hne2]; rewrite ?lookup_insert_eq, ?lookup_insert_ne by done.
    + done.
    + intros [= <-] Hk%Hec'. lia.
    + intros Hk%Hec' [= <-]. lia.
    + apply Hue'.
  - intros t [= <-]. simpl. rewrite length_app, Hte. cbn. lia.
Qed.

Lemma LoadEffect_grows (name : string) (defines : CShaderDefines) (w : State) :
  grows w (LoadEffect name defines w).2.
Proof.
  destruct (m_EffectCache w !! {| ek_name := name; ek_defines := defines |})
    as [second|] eqn:Hmiss.
  { by rewrite (LoadEffect_hit _ _ _ _ Hmiss). }
  destruct (LoadEffect_fail name defines w Hmiss) as [Hfail1 Hfail2].
  destruct (g_VFS ("shaders/effects/" +:+ name +:+ ".xml")) as [Root|] eqn:Hload.
  2:{ rewrite Hfail1 by done. unfold grows. simpl.
      split; [done|]. split; [by apply prefix_app_r|].
      split; [by apply prefix_app_r|done]. }
  destruct (UsableTechs defines (GetChildNodes Root)).1 as [|T rest] eqn:Husable.
  { rewrite (Hfail2 Root) by done. unfold grows. simpl.
    split; [done|]. split; [by apply prefix_app_r|].
    split; [by apply prefix_app_r|done]. }
  rewrite (LoadEffect_build name defines w Root T rest Hmiss Hload Husable).
  cbv zeta. cbn [fst snd].
  set (w1 := set_trace _ w).
  destruct (TechPasses_frame
              (TechDefines defines (GetChildNodes T)).1 (GetChildNodes T) [] w1)
    as (Hp & Ht & Hte & He & _).
  set (r := TechPasses _ _ [] w1) in *.
  unfold grows. simpl. split; [exact Hp|]. split; [|split; [|exact He]].
  - rewrite Hte. by apply prefix_app_r.
  - etrans; [|exact Ht]. unfold w1. simpl. by apply prefix_app_r.
Qed.

Lemma grows_trans (w1 w2 w3 : State) : grows w1 w2 → grows w2 w3 → grows w1 w3.
Proof.
  intros (Hp & Ht & Htr & He) (Hp' & Ht' & Htr' & He').
  repeat split; try (by etrans); congruence.
Qed.

Lemma call_grows (c : Call) (w : State) : grows w (call c w).
Proof.
  destruct c as [name defines|name defines|path]; cbn [call].
  - destruct (LoadProgram_frame name defines w) as (Hp & Ht & Hte & He & _).
    unfold grows. by rewrite Hte.
  - apply LoadEffect_grows.
  - rewrite ReloadChangedFile_spec.
    destruct (m_HotloadFiles w !! path); [|done].
    unfold grows. simpl. split; [done|]. split; [done|].
    split; [by apply prefix_app_r|done].
Qed.

Lemma call_handles (c : Call) (w : State) :
  handles_valid w →
  handles_valid (call c w) ∧ (handles_unshared w → handles_unshared (call c w)).
Proof.
  intros Hw. destruct c as [name defines|name defines|path]; cbn [call].
  - destruct (LoadProgram_handles name defines w Hw) as (H1 & H2 & _). done.
  - destruct (LoadEffect_handles name defines w Hw) as (H1 & H2 & _). done.
  - rewrite ReloadChangedFile_spec.
    by destruct (m_HotloadFiles w !! path).
Qed.

(** X7: if every handle the manager holds names an existing object, the
    same is true after any calls of the interface, and the handle that a
    further [LoadProgram] or [LoadEffect] returns, when it is not null,
    names an existing program or technique. *)
Theorem X7_no_dangling_handles (calls : list Call) (w : State) :
  handles_valid w →
  handles_valid (run calls w) ∧
  (∀ name defines p,
     (LoadProgram name defines (run calls w)).1 = Some p →
     is_Some (programs (LoadProgram name defines (run calls w)).2 !! p)) ∧
  (∀ name defines t,
     (LoadEffect name defines (run calls w)).1 = Some t →
     is_Some (techniques (LoadEffect name defines (run calls w)).2 !! t)).
Proof.
  intros Hw.
  assert (Hrun : handles_valid (run calls w)).
  { revert w Hw. induction calls as [|c calls IH]; intros w Hw; [done|].
    cbn [run fold_left]. apply IH. by apply call_handles. }
  split; [exact Hrun|]. split.
  - intros name defines p Hp. apply lookup_lt_is_Some.
    by apply (LoadProgram_handles name defines _ Hrun).
  - intros name defines t Ht. apply lookup_lt_is_Some.
    by apply (LoadEffect_handles name defines _ Hrun).
Qed.

(** X8: no program and no technique is cached under two keys: if that holds
    of a manager whose handles are valid, it holds after any calls of the
    interface; so two keys that hold non-null handles hold different
    objects. *)
Theorem X8_one_object_per_key (calls : list Call) (w : State) :
  handles_valid w → handles_unshared w →
  handles_unshared (run calls w).
Proof.
  revert w. induction calls as [|c calls IH]; intros w Hw Hu; [done|].
  cbn [run fold_left]. destruct (call_handles c w Hw) as [Hw' Hu'].
  apply IH; [done|]. by apply Hu'.
Qed.

(** X9: calls of the interface only add at the end: the programs, the
    techniques and the trace before a run of calls are prefixes of those
    after it, so an object, once made, is never changed or dropped; and no
    call retires a program. *)
Theorem X9_append_only (calls : list Call) (w : State) :
  programs w `prefix_of` programs (run calls w) ∧
  techniques w `prefix_of` techniques (run calls w) ∧
  trace w `prefix_of` trace (run calls w) ∧
  expired (run calls w) = expired w.
Proof.
  change (grows w (run calls w)).
  revert w. induction calls as [|c calls IH]; intros w; [done|].
  cbn [run fold_left]. eapply grows_trans; [apply call_grows|apply IH].
Qed.

(** *** Counting effects *)

(** X10: the number of loaded effects grows by one with every [LoadEffect]
    for a key that is not cached yet, whether the effect could be built or
    not, and is unchanged by a [LoadEffect] for a cached key, by
    [LoadProgram] and by [ReloadChangedFile]. *)
Theorem X10_GetNumEffectsLoaded (name : string) (defines : CShaderDefines)
    (path : string) (w : State) :
  let count (w' : State) := (GetNumEffectsLoaded w').1 in
  let key := {| ek_name := name; ek_defines := defines |} in
  (m_EffectCache w !! key = None →
     count (LoadEffect name defines w).2 = S (count w)) ∧
  (is_Some (m_EffectCache w !! key) →
     count (LoadEffect name defines w).2 = count w) ∧
  count (LoadProgram name defines w).2 = count w ∧
  count (ReloadChangedFile path w).2 = count w.
Proof.
  intros count key. subst count. unfold GetNumEffectsLoaded, gets. cbn [fst].
  split; [|split; [|split]].
  - intros Hmiss. rewrite (LoadEffect_miss _ _ _ Hmiss). cbv zeta.
    match goal with
    | |- context [NewEffect ?n ?d ?t ?w0] =>
        destruct (NewEffect_caches n d t w0) as [_ He];
        destruct (NewEffect n d t w0) as [ok w1]
    end.
    cbn [fst snd] in *.
    destruct ok; cbn; rewrite He; by apply map_size_insert_None.
  - intros [second Hhit]. by rewrite (LoadEffect_hit _ _ _ _ Hhit).
  - destruct (LoadProgram_caches name defines w) as [_ He]. by rewrite He.
  - rewrite ReloadChangedFile_spec. by destruct (m_HotloadFiles w !! path).
Qed.

(** *** What a technique holds *)

Lemma TechDefines_flag (baseDefines : CShaderDefines)
    (Children : list XMBElement) :
  (TechDefines baseDefines Children).2
  = existsb (is_tag "sort_by_distance") Children.
Proof.
  unfold TechDefines.
  assert (H : ∀ cs acc,
    (fold_left (λ acc Child, TechChild Child acc) cs acc).2
    = acc.2 || existsb (is_tag "sort_by_distance") cs).
  { induction cs as [|c cs IH]; intros [d b].
    - cbn. by rewrite orb_false_r.
    - cbn [fold_left existsb]. rewrite IH. unfold TechChild, is_tag.
      cbn [fst snd].
      destruct (String.eqb (GetNodeName c) "define") eqn:Hd.
      + apply String.eqb_eq in Hd. rewrite Hd. done.
      + destruct (String.eqb (GetNodeName c) "sort_by_distance");
          cbn [snd orb]; [by rewrite orb_true_r|done]. }
  by rewrite H.
Qed.

(** The passes that the loop adds, one for each [pass] child in document
    order. *)
Lemma TechPasses_result (techDefines : CShaderDefines)
    (Children : list XMBElement) (techPasses : list CShaderPass) (w : State) :
  let r := TechPasses techDefines Children techPasses w in
  ∃ new, r.1 = techPasses ++ new ∧
         Forall2 (pass_of techDefines r.2)
                 (List.filter (is_tag "pass") Children) new.
Proof.
  revert techPasses w.
  induction Children as [|Child rest IH]; intros techPasses w r; subst r.
  { exists []. cbn. by rewrite app_nil_r. }
  cbn [TechPasses List.filter]. unfold is_tag at 1.
  destruct (String.eqb (GetNodeName Child) "pass"); [|by apply IH].
  unfold bind, emits, modify. cbn [fst snd].
  match goal with
  | |- context [LoadProgram ?n ?d ?w0] =>
      pose proof (LoadProgram_stored n d w0) as Hstored;
      destruct (LoadProgram n d w0) as [program w1]
  end.
  cbn [fst snd] in *.
  match goal with
  | |- context [TechPasses _ rest ?acc w1] =>
      destruct (IH acc w1) as (new & Hnew & Hall);
      destruct (TechPasses_caches techDefines rest acc w1) as [Hsub _]
  end.
  eexists (_ :: new). split.
  - rewrite Hnew. by rewrite <- app_assoc.
  - constructor; [|exact Hall]. split; [done|]. cbn [shader].
    eapply lookup_weaken; [exact Hstored|exact Hsub].
Qed.

(** X11: when [LoadEffect] builds an effect, the technique it returns has
    one pass for each [pass] child of the first usable candidate, in
    document order; the pipeline state of each pass is the one built from
    its element, and its program is the handle cached under the name of its
    shader and its resolved defines, so that two passes with the same
    shader and the same resolved defines share one program; the technique
    sorts by distance exactly when the candidate has a [sort_by_distance]
    child. *)
Theorem X11_technique_passes (name : string) (defines : CShaderDefines)
    (w : State) (Root T : XMBElement) (pre post : list XMBElement) :
  m_EffectCache w !! {| ek_name := name; ek_defines := defines |} = None →
  g_VFS ("shaders/effects/" +:+ name +:+ ".xml") = Some Root →
  GetChildNodes Root = pre ++ T :: post →
  Forall (λ c, (TechniqueUsable defines c).1 = false) pre →
  (TechniqueUsable defines T).1 = true →
  let r := LoadEffect name defines w in
  let techDefines := (TechDefines defines (GetChildNodes T)).1 in
  ∃ t tech,
    r.1 = Some t ∧ techniques r.2 !! t = Some tech ∧
    sortByDistance tech
    = existsb (is_tag "sort_by_distance") (GetChildNodes T) ∧
    Forall2 (pass_of techDefines r.2)
            (List.filter (is_tag "pass") (GetChildNodes T)) (passes tech) ∧
    ∀ i j c1 c2 p1 p2,
      List.filter (is_tag "pass") (GetChildNodes T) !! i = Some c1 →
      passes tech !! i = Some p1 →
      List.filter (is_tag "pass") (GetChildNodes T) !! j = Some c2 →
      passes tech !! j = Some p2 →
      pass_key techDefines c1 = pass_key techDefines c2 →
      shader p1 = shader p2.
Proof.
  intros Hmiss Hload Hchildren Hpre HT r techDefines. subst r.
  assert (Husable : (UsableTechs defines (GetChildNodes Root)).1
                    = T :: List.filter (λ T, (TechniqueUsable defines T).1) post).
  { rewrite UsableTechs_spec, Hchildren. cbn [fst].
    by apply filter_first_usable. }
  rewrite (LoadEffect_build name defines w Root T _ Hmiss Hload Husable).
  cbv zeta. cbn [fst snd]. fold techDefines.
  set (w1 := set_trace _ w).
  destruct (TechPasses_result techDefines (GetChildNodes T) [] w1)
    as (new & Hnew & Hall).
  destruct (TechPasses_frame techDefines (GetChildNodes T) [] w1)
    as (_ & _ & Hte & _).
  set (r := TechPasses techDefines (GetChildNodes T) [] w1) in *.
  cbn in Hnew, Hte.
  eexists _, _. split; [reflexivity|]. split.
  - simpl. rewrite <- Hte. apply list_lookup_middle. reflexivity.
  - cbn [sortByDistance passes]. split; [apply TechDefines_flag|].
    rewrite Hnew. split; [exact Hall|].
    intros i j c1 c2 p1 p2 Hc1 Hp1 Hc2 Hp2 Hkey.
    destruct (Forall2_lookup_lr _ _ _ i _ _ Hall Hc1 Hp1) as [_ H1].
    destruct (Forall2_lookup_lr _ _ _ j _ _ Hall Hc2 Hp2) as [_ H2].
    rewrite Hkey in H1. congruence.
Qed.

(** X12: when the document of an effect cannot be loaded, or none of its
    candidates is usable, [LoadEffect] returns null, logs exactly one error,
    caches the null handle under the key, and loads no program: the
    programs, the program cache and the hotload entries are as before. *)
Theorem X12_failed_effect_loads_nothing (name : string)
    (defines : CShaderDefines) (w : State) :
  m_EffectCache w !! {| ek_name := name; ek_defines := defines |} = None →
  (g_VFS ("shaders/effects/" +:+ name +:+ ".xml") = None ∨
   ∃ Root, g_VFS ("shaders/effects/" +:+ name +:+ ".xml") = Some Root ∧
           Forall (λ c, (TechniqueUsable defines c).1 = false)
                  (GetChildNodes Root)) →
  let r := LoadEffect name defines w in
  r.1 = None ∧
  m_EffectCache r.2
  = <[{| ek_name := name; ek_defines := defines |} := None]> (m_EffectCache w) ∧
  programs r.2 = programs w ∧
  m_ProgramCache r.2 = m_ProgramCache w ∧
  m_HotloadFiles r.2 = m_HotloadFiles w ∧
  errors_of (trace r.2)
  = errors_of (trace w)
    ++ [EvLOGERROR ("Failed to load effect '" +:+ name +:+ "'")].
Proof.
  intros Hmiss Hfail r. subst r.
  destruct (LoadEffect_fail name defines w Hmiss) as [Hfail1 Hfail2].
  destruct Hfail as [Hload|(Root & Hload & Hnone)].
  - rewrite Hfail1 by done. cbn. repeat split.
    by rewrite !errors_of_app.
  - assert (Hempty : (UsableTechs defines (GetChildNodes Root)).1 = []).
    { rewrite UsableTechs_spec. cbn [fst].
      induction Hnone as [|c cs Hc Hcs IH]; [done|]. cbn. by rewrite Hc. }
    assert (Hevs : errors_of (UsableTechs defines (GetChildNodes Root)).2 = []).
    { rewrite UsableTechs_spec. cbn [snd]. clear.
      induction (GetChildNodes Root) as [|c cs IH]; [done|].
      cbn [fmap list_fmap concat]. rewrite errors_of_app, IH, app_nil_r.
      rewrite TechniqueUsable_spec. cbn [snd].
      induction (GetChildNodes c) as [|x xs IHx]; [done|].
      cbn [fmap list_fmap concat]. rewrite errors_of_app, IHx, app_nil_r.
      unfold RequireHolds. repeat case_match; done. }
    rewrite (Hfail2 Root) by done. cbn. repeat split.
    rewrite !errors_of_app. cbn. by rewrite !errors_of_app, Hevs.
Qed.

(** *** The requirements of a technique *)

Lemma requires_holds (baseDefines : CShaderDefines) (kind : string)
    (cs : list XMBElement) :
  forallb (λ c, negb (is_tag "require" c)
                || (RequireHolds baseDefines (GetAttributes c)).1) cs = true →
  existsb (requires kind) cs = true →
  ∃ c, c ∈ cs ∧
       String.eqb (GetNamedItem (GetAttributes c) "shaders") kind = true ∧
       (RequireHolds baseDefines (GetAttributes c)).1 = true.
Proof.
  induction cs as [|c cs IH]; [done|]. cbn [forallb existsb].
  intros [Hc Hcs]%andb_true_iff [Hk|Hk]%orb_true_iff.
  - unfold requires in Hk. apply andb_true_iff in Hk as [Htag Hkind].
    rewrite Htag in Hc. exists c. split; [apply list_elem_of_here|done].
  - destruct (IH Hcs Hk) as (c' & Hin & H). exists c'.
    split; [by apply list_elem_of_further|done].
Qed.

(** X13: a usable technique that requires the arb shaders is used with the
    backend GL_ARB and a device that has ARB shaders, one that requires the
    glsl shaders with the backend GL; so a technique that requires both is
    never usable.  Each of its [require] children that names neither has a
    context that is empty or holds for the defines. *)
Theorem X13_requirements (baseDefines : CShaderDefines) (T : XMBElement) :
  (TechniqueUsable baseDefines T).1 = true →
  (existsb (requires "arb") (GetChildNodes T) = true →
     GetBackend = GL_ARB ∧ ARBShaders = true) ∧
  (existsb (requires "glsl") (GetChildNodes T) = true → GetBackend = GL) ∧
  existsb (requires "arb") (GetChildNodes T)
  && existsb (requires "glsl") (GetChildNodes T) = false ∧
  ∀ c, c ∈ GetChildNodes T → is_tag "require" c = true →
       requires "arb" c = false → requires "glsl" c = false →
       let cond := GetNamedItem (GetAttributes c) "context" in
       cond = "" ∨ TestConditional baseDefines cond = true.
Proof.
  rewrite TechniqueUsable_spec. cbn [fst]. intros Husable.
  assert (Harb : existsb (requires "arb") (GetChildNodes T) = true →
                 GetBackend = GL_ARB ∧ ARBShaders = true).
  { intros H. destruct (requires_holds _ _ _ Husable H) as (c & _ & Hk & Hc).
    unfold RequireHolds in Hc. rewrite Hk in Hc.
    destruct (bool_decide (GetBackend ≠ GL_ARB)) eqn:Hb; [done|].
    apply bool_decide_eq_false in Hb.
    destruct ARBShaders; [|done]. split; [|done].
    by destruct (decide (GetBackend = GL_ARB)). }
  assert (Hglsl : existsb (requires "glsl") (GetChildNodes T) = true →
                  GetBackend = GL).
  { intros H. destruct (requires_holds _ _ _ Husable H) as (c & _ & Hk & Hc).
    unfold RequireHolds in Hc. apply String.eqb_eq in Hk. rewrite Hk in Hc.
    cbn in Hc. by apply bool_decide_eq_true in Hc. }
  split; [done|]. split; [done|]. split.
  - destruct (existsb (requires "arb") (GetChildNodes T)) eqn:Ha; [|done].
    destruct (existsb (requires "glsl") (GetChildNodes T)) eqn:Hg; [|done].
    destruct Harb as [Harb _]; [done|]. rewrite Hglsl in Harb; done.
  - intros c Hin Htag Hna Hng.
    rewrite forallb_forall in Husable.
    assert (Hc := Husable c). rewrite Htag in Hc.
    unfold requires in Hna, Hng. rewrite Htag in Hna, Hng. cbn in Hna, Hng.
    unfold RequireHolds in Hc. rewrite Hna, Hng in Hc.
    destruct (GetNamedItem (GetAttributes c) "context") eqn:Hcond;
      [by left|right].
    cbn in Hc. apply Hc. by apply list_elem_of_In.
Qed.

(** *** What every pass keeps *)

Lemma if_inv {A : Type} (P : A → Prop) (b : bool) (f : A → A) (x : A) :
  P x → (∀ y, P y → P (f y)) → P (if b then f x else x).
Proof. destruct b; auto. Qed.

Ltac symmetric_step :=
  let H1 := fresh "H" in
  let H2 := fresh "H" in
  let H3 := fresh "H" in
  let H4 := fresh "H" in
  intros *; unfold symmetric; cbn; intros (H1 & H2 & H3 & H4);
  rewrite ?H1, ?H2, ?H3, ?H4; done.

Ltac symmetric_ifs :=
  repeat match goal with
         | |- symmetric (if ?b then ?g ?x else ?x) =>
             apply (if_inv symmetric b g x); [|symmetric_step]
         end.

Lemma PassElement_symmetric (Element : XMBElement) (s : PassState) :
  symmetric (passPipelineStateDesc s) →
  symmetric (passPipelineStateDesc (PassElement Element s)).
Proof.
  intros Hs. unfold PassElement. cbv zeta.
  repeat case_match; try done.
  - revert Hs. unfold PassElement_blend, with_desc, LOGERROR_pass. cbv zeta.
    repeat case_match; symmetric_step.
  - cbn [with_desc passPipelineStateDesc].
    unfold PassElement_color, MASK_CHANNEL. cbv zeta.
    symmetric_ifs. revert Hs. symmetric_step.
  - cbn [with_desc passPipelineStateDesc].
    unfold PassElement_cull. cbv zeta. by symmetric_ifs.
  - cbn [with_desc passPipelineStateDesc].
    unfold PassElement_depth. cbv zeta. by symmetric_ifs.
  - cbn [with_desc passPipelineStateDesc].
    unfold PassElement_polygon. cbv zeta. by symmetric_ifs.
  - cbn [with_desc passPipelineStateDesc].
    unfold PassElement_stencil. cbv zeta. by symmetric_ifs.
Qed.

(** X14: the elements of a pass never set one face of the stencil state, or
    one side of the blend state, without the other: when the two faces of
    the default stencil state agree, and the colour and alpha sides of the
    default blend state, they do in every pass that is built. *)
Theorem X14_faces_agree (techDefines : CShaderDefines) (Child : XMBElement) :
  symmetric MakeDefaultGraphicsPipelineStateDesc →
  symmetric (passPipelineStateDesc (BuildPass techDefines Child)).
Proof.
  intros Hdefault. unfold BuildPass, PassElements.
  assert (H : ∀ es s, symmetric (passPipelineStateDesc s) →
    symmetric (passPipelineStateDesc
                 (fold_left (λ s Element, PassElement Element s) es s))).
  { induction es as [|e es IH]; intros s Hs; [done|].
    cbn [fold_left]. by apply IH, PassElement_symmetric. }
  by apply H.
Qed.

(** *** What a pass logs *)

(** One element of a pass, for the log and the constant colour. *)
Lemma PassElement_constant (Element : XMBElement) (s : PassState) :
  let c := constant (blendState (passPipelineStateDesc s)) in
  let r := ParseString c (GetNamedItem (GetAttributes Element) "constant") in
  let s' := PassElement Element s in
  if has_attr "blend" "constant" Element
  then passLog s'
       = passLog s
         ++ (if r.1 then []
             else ["Failed to parse blend constant: "
                   +:+ GetNamedItem (GetAttributes Element) "constant"]) ∧
       constant (blendState (passPipelineStateDesc s')) = r.2
  else passLog s' = passLog s ∧
       constant (blendState (passPipelineStateDesc s')) = c.
Proof.
  intros c r s'. subst c r s'. unfold has_attr, PassElement. cbv zeta.
  destruct (String.eqb (GetNodeName Element) "define") eqn:Hdefine.
  { apply String.eqb_eq in Hdefine. rewrite Hdefine. done. }
  destruct (String.eqb (GetNodeName Element) "blend") eqn:Hblend.
  - unfold PassElement_blend. cbv zeta. cbn [andb].
    destruct (negb (empty (GetNamedItem (GetAttributes Element) "constant"))).
    + destruct (negb (empty (GetNamedItem (GetAttributes Element) "op")));
        cbn [with_desc passPipelineStateDesc blendState set_blendState
             set_enabled set_srcBlendFactor set_dstBlendFactor set_blendOp
             constant];
        match goal with |- context [(ParseString ?c ?a).1] =>
          destruct (ParseString c a) as [[] c'] end;
        cbn; rewrite ?app_nil_r; done.
    + destruct (negb (empty (GetNamedItem (GetAttributes Element) "op")));
        done.
  - cbn [andb].
    unfold PassElement_color, PassElement_cull, PassElement_depth,
      PassElement_polygon, MASK_CHANNEL.
    repeat case_match; try done.
    split; [done|].
    unfold with_desc, PassElement_stencil. cbn [passPipelineStateDesc].
    cbv zeta.
    repeat (etransitivity;
            [ apply (if_frame (λ x : GraphicsPipelineStateDesc,
                                 constant (blendState x)));
              intros _ ?; reflexivity
            | ]);
    reflexivity.
Qed.

Lemma blend_constants_app (c : CColor) (es1 es2 : list XMBElement) :
  blend_constants c (es1 ++ es2)
  = ((blend_constants (blend_constants c es1).1 es2).1,
     (blend_constants c es1).2
     ++ (blend_constants (blend_constants c es1).1 es2).2).
Proof.
  revert c. induction es1 as [|e es1 IH]; intros c; cbn [app blend_constants].
  - cbn [fst snd app]. by destruct (blend_constants c es2).
  - destruct (has_attr "blend" "constant" e); [|apply IH].
    cbv zeta. rewrite IH. cbn [fst snd]. by rewrite app_assoc.
Qed.

(** The loop over the elements of a pass, for the log and the constant
    colour. *)
Lemma PassElements_constants (Elements : list XMBElement) (s : PassState) :
  let c := constant (blendState (passPipelineStateDesc s)) in
  passLog (PassElements Elements s)
  = passLog s ++ (blend_constants c Elements).2 ∧
  constant (blendState (passPipelineStateDesc (PassElements Elements s)))
  = (blend_constants c Elements).1.
Proof.
  revert s. induction Elements as [|e es IH]; intros s c; subst c.
  { cbn. by rewrite app_nil_r. }
  rewrite PassElements_cons. cbn [blend_constants].
  destruct (IH (PassElement e s)) as [Hlog Hconstant].
  pose proof (PassElement_constant e s) as He. cbv zeta in He, Hlog, Hconstant.
  rewrite Hlog, Hconstant.
  destruct (has_attr "blend" "constant" e); destruct He as [-> ->].
  - cbv zeta. cbn [fst snd]. by rewrite app_assoc.
  - done.
Qed.

Lemma blend_constants_sublist (c : CColor) (Elements : list XMBElement) :
  (blend_constants c Elements).2 `sublist_of` blend_messages Elements.
Proof.
  revert c. unfold blend_messages.
  induction Elements as [|e es IH]; intros c; [done|].
  cbn [blend_constants List.filter].
  destruct (has_attr "blend" "constant" e); [|apply IH].
  cbv zeta. cbn [fst snd fmap list_fmap].
  destruct (ParseString c (GetNamedItem (GetAttributes e) "constant")).1;
    cbn [app]; [apply sublist_cons|apply sublist_skip]; apply IH.
Qed.

(** X15: the errors that the elements of a pass log are the failures to
    parse the constants of its [blend] elements, each parsed into the
    colour that the constants before it left, in document order; no other
    element logs or touches the constant colour.  So what is logged is a
    sublist of one message for each [blend] element with a constant; a pass
    without such an element logs nothing; a pass all of whose constants
    parse, whatever colour is held, logs nothing; and a constant that does
    not parse, whatever colour is held, is logged. *)
Theorem X15_pass_errors (Elements : list XMBElement) (s : PassState) :
  let c := constant (blendState (passPipelineStateDesc s)) in
  let s' := PassElements Elements s in
  let message := λ e, "Failed to parse blend constant: "
                      +:+ GetNamedItem (GetAttributes e) "constant" in
  passLog s' = passLog s ++ (blend_constants c Elements).2 ∧
  constant (blendState (passPipelineStateDesc s'))
  = (blend_constants c Elements).1 ∧
  (blend_constants c Elements).2 `sublist_of` blend_messages Elements ∧
  (markup_attr "blend" "constant" Elements = false → passLog s' = passLog s) ∧
  (Forall (λ e, has_attr "blend" "constant" e = true →
                ∀ c', (ParseString c' (GetNamedItem (GetAttributes e)
                                                    "constant")).1 = true)
          Elements →
   passLog s' = passLog s) ∧
  (∀ es1 e es2,
     Elements = es1 ++ e :: es2 → has_attr "blend" "constant" e = true →
     (∀ c', (ParseString c' (GetNamedItem (GetAttributes e) "constant")).1
            = false) →
     message e ∈ passLog s').
Proof.
  intros c s' message. subst s' message.
  destruct (PassElements_constants Elements s) as [Hlog Hconstant].
  fold c in Hlog, Hconstant.
  split; [exact Hlog|]. split; [exact Hconstant|].
  split; [apply blend_constants_sublist|]. split; [|split].
  - intros Hnone.
    assert (Hempty : blend_messages Elements = []).
    { unfold blend_messages, markup_attr in *. clear -Hnone.
      induction Elements as [|e es IH]; [done|].
      cbn in Hnone. apply orb_false_iff in Hnone as [He Hes].
      cbn [List.filter]. rewrite He. by apply IH. }
    pose proof (blend_constants_sublist c Elements) as Hs.
    rewrite Hempty in Hs. apply sublist_nil_r in Hs.
    by rewrite Hlog, Hs, app_nil_r.
  - intros Hparse. rewrite Hlog.
    assert (Hnil : ∀ c0, (blend_constants c0 Elements).2 = []).
    { clear -Hparse.
      induction Hparse as [|e es He Hes IH]; intros c0; [done|].
      cbn [blend_constants].
      destruct (has_attr "blend" "constant" e); [|apply IH].
      cbv zeta. cbn [snd]. rewrite (He eq_refl c0). apply IH. }
    by rewrite Hnil, app_nil_r.
  - intros es1 e es2 Heq He Hfail. rewrite Hlog, Heq, blend_constants_app.
    cbn [snd blend_constants]. rewrite He. cbv zeta. cbn [snd].
    rewrite Hfail. rewrite !elem_of_app. right. right. left.
    apply list_elem_of_here.
Qed.

(** *** Repeating an element *)

Lemma stencil_twice (at_ : string → string) (d : GraphicsPipelineStateDesc) :
  let stencil (d : GraphicsPipelineStateDesc) :=
    let d := if negb (empty (at_ "test"))
             then set_depthStencilState
                    (set_stencilTestEnabled (String.eqb (at_ "test") "TRUE")) d
             else d in
    let d := if negb (empty (at_ "reference"))
             then set_depthStencilState
                    (set_stencilReference (ToULong (at_ "reference"))) d
             else d in
    let d := if negb (empty (at_ "mask_read"))
             then set_depthStencilState
                    (set_stencilReadMask (ToULong (at_ "mask_read"))) d
             else d in
    let d := if negb (empty (at_ "mask"))
             then set_depthStencilState
                    (set_stencilWriteMask (ToULong (at_ "mask"))) d
             else d in
    let d := if negb (empty (at_ "compare"))
             then set_depthStencilState
                    (set_stencilFaces
                       (set_compareOp (ParseCompareOp (at_ "compare")))) d
             else d in
    let d := if negb (empty (at_ "fail"))
             then set_depthStencilState
                    (set_stencilFaces (set_failOp (ParseStencilOp (at_ "fail")))) d
             else d in
    let d := if negb (empty (at_ "pass"))
             then set_depthStencilState
                    (set_stencilFaces (set_passOp (ParseStencilOp (at_ "pass")))) d
             else d in
    if negb (empty (at_ "depth_fail"))
    then set_depthStencilState
           (set_stencilFaces
              (set_depthFailOp (ParseStencilOp (at_ "depth_fail")))) d
    else d in
  stencil (stencil d) = stencil d.
Proof.
  intros stencil. subst stencil.
  destruct (negb (empty (at_ "test"))), (negb (empty (at_ "reference"))),
    (negb (empty (at_ "mask_read"))), (negb (empty (at_ "mask"))),
    (negb (empty (at_ "compare"))), (negb (empty (at_ "fail"))),
    (negb (empty (at_ "pass"))), (negb (empty (at_ "depth_fail")));
    reflexivity.
Qed.


(** X16: an element of a pass other than [blend] changes nothing when it is
    applied a second time. *)
Theorem X16_element_idempotent (Element : XMBElement) (s : PassState) :
  is_tag "blend" Element = false →
  PassElement Element (PassElement Element s) = PassElement Element s.
Proof.
  unfold is_tag, PassElement. cbv zeta. intros Hblend. rewrite Hblend.
  destruct (String.eqb (GetNodeName Element) "define").
  { unfold with_defines, AddDefineElement, Add. cbn. f_equal.
    by rewrite insert_insert_eq. }
  destruct (String.eqb (GetNodeName Element) "color").
  { unfold with_desc, PassElement_color, MASK_CHANNEL. cbv zeta. cbn.
    repeat case_match; cbn; try done;
      repeat f_equal; rewrite ?Z.lor_0_l; done. }
  destruct (String.eqb (GetNodeName Element) "cull").
  { unfold with_desc, PassElement_cull. cbv zeta.
    repeat case_match; done. }
  destruct (String.eqb (GetNodeName Element) "depth").
  { unfold with_desc, PassElement_depth. cbv zeta.
    repeat case_match; done. }
  destruct (String.eqb (GetNodeName Element) "polygon").
  { unfold with_desc, PassElement_polygon. cbv zeta.
    repeat case_match; done. }
  destruct (String.eqb (GetNodeName Element) "stencil"); [|done].
  unfold with_desc. cbn [passDefines passPipelineStateDesc passLog]. f_equal.
  exact (stencil_twice (GetNamedItem (GetAttributes Element))
                       (passPipelineStateDesc s)).
Qed.

(** *** Conditions and the defines of the document *)

Lemma VertexParam_set_defines (baseDefines : CShaderDefines)
    (f : CShaderDefines → CShaderDefines) (Param : XMBElement)
    (l : ProgramLocals) :
  VertexParam baseDefines Param (set_defines f l)
  = set_defines f (VertexParam baseDefines Param l).
Proof.
  unfold VertexParam, StreamParam. cbv zeta. repeat case_match; reflexivity.
Qed.

Lemma FragmentParam_set_defines (baseDefines : CShaderDefines)
    (f : CShaderDefines → CShaderDefines) (Param : XMBElement)
    (l : ProgramLocals) :
  FragmentParam baseDefines Param (set_defines f l)
  = set_defines f (FragmentParam baseDefines Param l).
Proof.
  unfold FragmentParam. cbv zeta. repeat case_match; reflexivity.
Qed.

Lemma RootChild_set_defines (baseDefines : CShaderDefines)
    (f : CShaderDefines → CShaderDefines) (Child : XMBElement)
    (l : ProgramLocals) :
  is_tag "define" Child = false →
  RootChild baseDefines Child (set_defines f l)
  = set_defines f (RootChild baseDefines Child l).
Proof.
  unfold is_tag, RootChild. intros ->. cbv zeta.
  destruct (String.eqb (GetNodeName Child) "vertex").
  { change (set_vertexFile ?v (set_defines f l))
      with (set_defines f (set_vertexFile v l)).
    generalize (set_vertexFile
                  ("shaders/" +:+ GetNamedItem (GetAttributes Child) "file") l).
    induction (GetChildNodes Child) as [|p ps IH]; intros l0; [done|].
    cbn [fold_left]. by rewrite VertexParam_set_defines, IH. }
  destruct (String.eqb (GetNodeName Child) "fragment"); [|done].
  change (set_fragmentFile ?v (set_defines f l))
    with (set_defines f (set_fragmentFile v l)).
  generalize (set_fragmentFile
                ("shaders/" +:+ GetNamedItem (GetAttributes Child) "file") l).
  induction (GetChildNodes Child) as [|p ps IH]; intros l0; [done|].
  cbn [fold_left]. by rewrite FragmentParam_set_defines, IH.
Qed.

Lemma fold_RootChild_without_defines (baseDefines : CShaderDefines)
    (cs : list XMBElement) (l : ProgramLocals) :
  ∃ f, fold_left (λ l Child, RootChild baseDefines Child l) cs l
       = set_defines f
           (fold_left (λ l Child, RootChild baseDefines Child l)
                      (List.filter (λ c, negb (is_tag "define" c)) cs) l).
Proof.
  revert l. induction cs as [|c cs IH]; intros l.
  { exists id. by destruct l. }
  cbn [fold_left List.filter].
  destruct (is_tag "define" c) eqn:Hc; cbn [negb].
  - assert (Hdef : RootChild baseDefines c l
                   = set_defines (AddDefineElement c) l).
    { unfold RootChild. unfold is_tag in Hc. by rewrite Hc. }
    rewrite Hdef.
    destruct (IH (set_defines (AddDefineElement c) l)) as [f Hf].
    exists (f ∘ AddDefineElement c). rewrite Hf. clear Hf IH Hdef.
    assert (Hcomm : ∀ cs' l,
      Forall (λ c, is_tag "define" c = false) cs' →
      fold_left (λ l Child, RootChild baseDefines Child l) cs'
                (set_defines (AddDefineElement c) l)
      = set_defines (AddDefineElement c)
          (fold_left (λ l Child, RootChild baseDefines Child l) cs' l)).
    { induction cs' as [|c' cs' IH']; intros l' Hall; [done|].
      inversion Hall as [|? ? Hc' Hcs']; subst. cbn [fold_left].
      by rewrite RootChild_set_defines, IH'. }
    rewrite Hcomm; [done|].
    apply Forall_forall. intros x Hx%list_elem_of_In%filter_In.
    by destruct Hx as [_ Hx%negb_true_iff].
  - cbn [fold_left]. apply IH.
Qed.

(** X17: the conditions of the parameters of a program are tested against
    the defines the program is loaded with, never against the [define]
    children of its document: without them the document gives the same
    files, uniforms, attributes and stream flags, and asks the same
    questions of the outside; only the define set of the program differs. *)
Theorem X17_conditions_see_caller_defines (baseDefines : CShaderDefines)
    (root : XMBElement) :
  let l := ParseProgram baseDefines root in
  let l' := ParseProgram baseDefines (without_defines root) in
  vertexFile l = vertexFile l' ∧ fragmentFile l = fragmentFile l' ∧
  vertexUniforms l = vertexUniforms l' ∧
  fragmentUniforms l = fragmentUniforms l' ∧
  vertexAttribs l = vertexAttribs l' ∧ streamFlags l = streamFlags l' ∧
  events l = events l' ∧ defines l' = baseDefines.
Proof.
  intros l l'. subst l l'. unfold ParseProgram, without_defines.
  cbn [GetChildNodes].
  destruct (fold_RootChild_without_defines baseDefines (GetChildNodes root)
              (ProgramLocalsInit baseDefines)) as [f ->].
  repeat split.
  change (defines (ParseProgram baseDefines (without_defines root))
          = baseDefines).
  rewrite ParseProgram_defines. unfold without_defines. cbn [GetChildNodes].
  induction (GetChildNodes root) as [|c cs IH]; [done|].
  cbn [List.filter]. destruct (is_tag "define" c) eqn:Hc; cbn [negb]; [done|].
  unfold define_pairs in *. cbn [List.filter]. by rewrite Hc.
Qed.

(** *** The tables of a program *)

(** X18: in the tables a program is constructed from, every vertex
    attribute has a location from 0 to 15, and every fragment uniform has
    one of the texture targets of the build: 2D or cube map on GLES, and 1D,
    2D, 3D or cube map otherwise. *)
Theorem X18_tables_in_range (baseDefines : CShaderDefines) (root : XMBElement) :
  let l := ParseProgram baseDefines root in
  map_Forall (λ _ loc, 0 ≤ loc ≤ 15) (vertexAttribs l) ∧
  map_Forall (λ _ u, u.2 ∈ sampler_targets) (fragmentUniforms l).
Proof.
  intros l. subst l. unfold ParseProgram.
  set (P := λ l : ProgramLocals,
         map_Forall (λ (_ : string) loc, 0 ≤ loc ≤ 15) (vertexAttribs l) ∧
         map_Forall (λ (_ : string) (u : Z * Z), u.2 ∈ sampler_targets)
                    (fragmentUniforms l)).
  apply (fold_params_inv P (RootChild baseDefines)).
  - intros c l [Ha Hu]. unfold RootChild.
    destruct (String.eqb (GetNodeName c) "define"); [done|].
    destruct (String.eqb (GetNodeName c) "vertex").
    { apply (fold_params_inv P (VertexParam baseDefines)); [|done].
      clear. intros p l [Ha Hu]. unfold VertexParam, StreamParam. cbv zeta.
      repeat case_match; try done.
      split; [|done]. cbn [vertexAttribs set_vertexAttrib add_events].
      apply map_Forall_insert_2; [|done].
      unfold ParseAttribSemantics. repeat case_match; cbn; lia. }
    destruct (String.eqb (GetNodeName c) "fragment"); [|done].
    apply (fold_params_inv P (FragmentParam baseDefines)); [|done].
    clear. intros p l [Ha Hu]. unfold FragmentParam. cbv zeta.
    repeat case_match; try done.
    split; [done|]. cbn [fragmentUniforms set_fragmentUniform add_events].
    apply map_Forall_insert_2; [|done]. cbn [snd].
    unfold SamplerType, sampler_targets.
    destruct CONFIG2_GLES; repeat case_match; cbn [fst];
      repeat first [apply list_elem_of_here | apply list_elem_of_further].
  - split; apply map_Forall_empty.
Qed.

(** *** What the caches stand for *)

(** What [LoadProgram] keeps, and what depends on the programs and their
    cache only, every call keeps. *)
Lemma TechPasses_inv (P : State → Prop) :
  (∀ w w', m_ProgramCache w' = m_ProgramCache w → programs w' = programs w →
           P w → P w') →
  (∀ name defines w, P w → P (LoadProgram name defines w).2) →
  ∀ techDefines Children techPasses w,
    P w → P (TechPasses techDefines Children techPasses w).2.
Proof.
  intros Hext Hprog techDefines Children.
  induction Children as [|Child rest IH]; intros techPasses w Hw; [done|].
  cbn [TechPasses]. destruct (String.eqb (GetNodeName Child) "pass");
    [|by apply IH].
  unfold bind, emits, modify. cbn [fst snd].
  match goal with
  | |- context [LoadProgram ?n ?d ?w0] =>
      assert (H1 : P (LoadProgram n d w0).2)
        by (apply Hprog; eapply Hext; [| |exact Hw]; reflexivity);
      destruct (LoadProgram n d w0) as [program w1]
  end.
  by apply IH.
Qed.

Lemma LoadEffect_inv (P : State → Prop) :
  (∀ w w', m_ProgramCache w' = m_ProgramCache w → programs w' = programs w →
           P w → P w') →
  (∀ name defines w, P w → P (LoadProgram name defines w).2) →
  ∀ name defines w, P w → P (LoadEffect name defines w).2.
Proof.
  intros Hext Hprog name defines w Hw.
  destruct (m_EffectCache w !! {| ek_name := name; ek_defines := defines |})
    as [second|] eqn:Hmiss.
  { by rewrite (LoadEffect_hit _ _ _ _ Hmiss). }
  destruct (LoadEffect_fail name defines w Hmiss) as [Hfail1 Hfail2].
  destruct (g_VFS ("shaders/effects/" +:+ name +:+ ".xml")) as [Root|] eqn:Hload.
  2:{ rewrite Hfail1 by done. eapply Hext; [| |exact Hw]; reflexivity. }
  destruct (UsableTechs defines (GetChildNodes Root)).1 as [|T rest] eqn:Husable.
  { rewrite (Hfail2 Root) by done. eapply Hext; [| |exact Hw]; reflexivity. }
  rewrite (LoadEffect_build name defines w Root T rest Hmiss Hload Husable).
  cbv zeta. cbn [snd].
  eapply Hext; [| |apply (TechPasses_inv P Hext Hprog)]; [reflexivity..|].
  eapply Hext; [| |exact Hw]; reflexivity.
Qed.

Lemma run_inv (P : State → Prop) :
  (∀ w w', m_ProgramCache w' = m_ProgramCache w → programs w' = programs w →
           P w → P w') →
  (∀ name defines w, P w → P (LoadProgram name defines w).2) →
  ∀ calls w, P w → P (run calls w).
Proof.
  intros Hext Hprog calls.
  induction calls as [|c calls IH]; intros w Hw; [done|].
  cbn [run fold_left]. apply IH.
  destruct c as [name defines|name defines|path]; cbn [call].
  - by apply Hprog.
  - by apply LoadEffect_inv.
  - rewrite ReloadChangedFile_spec.
    destruct (m_HotloadFiles w !! path); [|done].
    eapply Hext; [| |exact Hw]; reflexivity.
Qed.

Lemma LoadProgram_coherent (name : string) (defines : CShaderDefines)
    (w : State) :
  cache_coherent w → cache_coherent (LoadProgram name defines w).2.
Proof.
  intros Hw.
  destruct (m_ProgramCache w !! {| ck_name := name; ck_defines := defines |})
    as [second|] eqn:H.
  { by rewrite (LoadProgram_hit _ _ _ _ H). }
  rewrite (LoadProgram_miss _ _ _ H). cbv zeta.
  rewrite NewProgram_spec. cbv zeta.
  destruct (g_VFS _) as [root|] eqn:Hload;
    [destruct (ValidateEncoded name root) eqn:Hvalid|];
    unfold cache_coherent; simpl; intros key second;
    (destruct (decide ({| ck_name := name; ck_defines := defines |} = key))
       as [<-|Hne];
     [rewrite lookup_insert_eq; intros [= <-]
     |rewrite lookup_insert_ne by done; intros Hk; specialize (Hw _ _ Hk)]);
    unfold loaded_as, description in *; cbn [ck_name ck_defines] in *;
    rewrite ?Hload, ?Hvalid; try done.
  all: first [ by (simpl; apply list_lookup_middle)
             | revert Hw; simpl; repeat case_match; try done;
               apply lookup_app_l_Some ].
Qed.

(** X19: if every entry of the program cache is what a load of its key
    gives, the same is true after any calls of the interface; and then
    [LoadProgram] returns the null handle exactly when the program has no
    description that loads and validates, and else a handle to a program
    constructed from that description with the defines it was asked for,
    whether the handle comes from the cache or not. *)
Theorem X19_cache_coherent (calls : list Call) (w : State) :
  cache_coherent w →
  cache_coherent (run calls w) ∧
  ∀ name defines,
    let r := LoadProgram name defines (run calls w) in
    loaded_as r.2 {| ck_name := name; ck_defines := defines |} r.1.
Proof.
  intros Hw.
  assert (Hrun : cache_coherent (run calls w)).
  { apply (run_inv cache_coherent); [| |exact Hw].
    - intros w1 w2 Hc Hp H1 key second. rewrite Hc. intros Hk.
      specialize (H1 key second Hk). unfold loaded_as in *. by rewrite Hp.
    - intros name defines w1. apply LoadProgram_coherent. }
  split; [exact Hrun|]. intros name defines r. subst r.
  apply (LoadProgram_coherent name defines) in Hrun.
  apply Hrun, LoadProgram_stored.
Qed.

(** *** Fatal diagnostics while a program description is read *)

Lemma first_fatal_app (xs ys : list Event) :
  first_fatal (xs ++ ys)
  = match first_fatal xs with
    | Some r => Some r
    | None =>
        match first_fatal ys with
        | Some (before, msg) => Some (xs ++ before, msg)
        | None => None
        end
    end.
Proof.
  induction xs as [|x xs IH]; cbn [app first_fatal].
  - by destruct (first_fatal ys) as [[before msg]|].
  - destruct (fatal_event x); [done|]. rewrite IH.
    destruct (first_fatal xs) as [[before msg]|]; [done|].
    by destruct (first_fatal ys) as [[before msg]|].
Qed.

(** A fatal diagnostic among the calls is found, or one before it. *)
Lemma first_fatal_elem (evs : list Event) (msg : string) :
  EvDebugWarn msg ∈ evs → debug_warn_fatal msg = true →
  ∃ before diagnostic,
    first_fatal evs = Some (before, diagnostic) ∧
    EvDebugWarn diagnostic ∈ evs ∧ debug_warn_fatal diagnostic = true.
Proof.
  intros Hin Hfatal. induction evs as [|e evs IH].
  { by apply elem_of_nil in Hin. }
  cbn [first_fatal]. destruct (fatal_event e) as [m|] eqn:He.
  - exists [], m. split; [done|].
    destruct e; cbn in He; try done.
    destruct (debug_warn_fatal msg0) eqn:Hm; [|done].
    injection He as <-. split; [apply list_elem_of_here|done].
  - apply elem_of_cons in Hin as [<-|Hin].
    { cbn in He. by rewrite Hfatal in He. }
    destruct (IH Hin) as (before & diagnostic & -> & Hd & Hf).
    exists (e :: before), diagnostic.
    split; [done|]. split; [by apply list_elem_of_further|done].
Qed.

(** The outside calls of a [LoadProgram] that finds a description. *)
Lemma LoadProgram_trace (name : string) (defines : CShaderDefines) (w : State)
    (root : XMBElement) :
  m_ProgramCache w !! {| ck_name := name; ck_defines := defines |} = None →
  g_VFS ("shaders/" +:+ name +:+ ".xml") = Some root →
  ValidateEncoded name root = true →
  trace (LoadProgram name defines w).2
  = trace w ++ EvLoad ("shaders/" +:+ name +:+ ".xml")
      :: EvValidateEncoded name
      :: events (ParseProgram defines root)
      ++ [EvReload (length (programs w))].
Proof.
  intros Hmiss Hload Hvalid.
  rewrite (LoadProgram_miss _ _ _ Hmiss). cbv zeta.
  rewrite NewProgram_spec. cbv zeta. rewrite Hload, Hvalid.
  cbn. by rewrite <- !app_assoc.
Qed.

(** What a [LoadProgram] that finds a description comes to: the process
    stops at the first fatal diagnostic of the reading, before a program
    object is made; without one the call returns the new program. *)
Lemma LoadProgram_outcome (name : string) (defines : CShaderDefines)
    (w : State) (root : XMBElement) :
  m_ProgramCache w !! {| ck_name := name; ck_defines := defines |} = None →
  g_VFS ("shaders/" +:+ name +:+ ".xml") = Some root →
  ValidateEncoded name root = true →
  outcome (LoadProgram name defines) w
  = match first_fatal (events (ParseProgram defines root)) with
    | Some (read, diagnostic) =>
        Aborts diagnostic
          (trace w ++ EvLoad ("shaders/" +:+ name +:+ ".xml")
             :: EvValidateEncoded name :: read)
    | None =>
        Returns (Some (length (programs w))) (LoadProgram name defines w).2
    end.
Proof.
  intros Hmiss Hload Hvalid. unfold outcome. cbv zeta.
  rewrite (LoadProgram_trace _ _ _ _ Hmiss Hload Hvalid).
  rewrite drop_app_length. cbn [first_fatal fatal_event].
  rewrite first_fatal_app. cbn [first_fatal fatal_event].
  destruct (first_fatal (events (ParseProgram defines root)))
    as [[read diagnostic]|]; [done|].
  f_equal. by destruct (LoadProgram_ok name defines w root Hmiss Hload Hvalid).
Qed.

(** The outside calls of the reading only grow. *)
Lemma VertexParam_events (baseDefines : CShaderDefines) (Param : XMBElement)
    (l : ProgramLocals) :
  events l `prefix_of` events (VertexParam baseDefines Param l).
Proof.
  unfold VertexParam, StreamParam. cbv zeta.
  repeat case_match;
    cbn [events add_events set_vertexUniform set_vertexAttrib or_streamFlags];
    rewrite <- ?app_assoc; apply prefix_app_r; done.
Qed.

Lemma FragmentParam_events (baseDefines : CShaderDefines) (Param : XMBElement)
    (l : ProgramLocals) :
  events l `prefix_of` events (FragmentParam baseDefines Param l).
Proof.
  unfold FragmentParam. cbv zeta.
  repeat case_match; cbn [events add_events set_fragmentUniform];
    rewrite <- ?app_assoc; apply prefix_app_r; done.
Qed.

Lemma fold_events {A : Type} (step : A → ProgramLocals → ProgramLocals)
    (xs : list A) (l : ProgramLocals) :
  (∀ x l, events l `prefix_of` events (step x l)) →
  events l `prefix_of` events (fold_left (λ l x, step x l) xs l).
Proof.
  intros Hstep. revert l. induction xs as [|x xs IH]; intros l; [done|].
  cbn [fold_left]. etrans; [apply Hstep|apply IH].
Qed.

Lemma RootChild_events (baseDefines : CShaderDefines) (Child : XMBElement)
    (l : ProgramLocals) :
  events l `prefix_of` events (RootChild baseDefines Child l).
Proof.
  unfold RootChild. repeat case_match; [done| | |done].
  - exact (fold_events (VertexParam baseDefines) _ (set_vertexFile _ l)
             (VertexParam_events baseDefines)).
  - exact (fold_events (FragmentParam baseDefines) _ (set_fragmentFile _ l)
             (FragmentParam_events baseDefines)).
Qed.

Lemma elem_of_prefix_events (e : Event) (l1 l2 : list Event) :
  l1 `prefix_of` l2 → e ∈ l1 → e ∈ l2.
Proof. intros [k ->] H. apply elem_of_app. by left. Qed.

(** A call made for one parameter of one child is among the calls of the
    whole reading. *)
Lemma fold_step_event {A : Type} (step : A → ProgramLocals → ProgramLocals)
    (xs1 xs2 : list A) (x : A) (l : ProgramLocals) (e : Event) :
  (∀ x l, events l `prefix_of` events (step x l)) →
  (∀ l, e ∈ events (step x l)) →
  e ∈ events (fold_left (λ l x, step x l) (xs1 ++ x :: xs2) l).
Proof.
  intros Hstep He. rewrite fold_left_app. cbn [fold_left].
  eapply elem_of_prefix_events; [by apply fold_events|]. apply He.
Qed.

Lemma ParseProgram_vertex_event (baseDefines : CShaderDefines)
    (root Child Param : XMBElement) (pre post ps1 ps2 : list XMBElement)
    (e : Event) :
  GetChildNodes root = pre ++ Child :: post →
  GetNodeName Child = "vertex" →
  GetChildNodes Child = ps1 ++ Param :: ps2 →
  (∀ l, e ∈ events (VertexParam baseDefines Param l)) →
  e ∈ events (ParseProgram baseDefines root).
Proof.
  intros Hroot Hvertex Hchild He. unfold ParseProgram. rewrite Hroot.
  apply (fold_step_event (RootChild baseDefines)); [apply RootChild_events|].
  intros l. unfold RootChild. rewrite Hvertex, Hchild.
  cbn [String.eqb Ascii.eqb Bool.eqb]. cbv zeta.
  by apply (fold_step_event (VertexParam baseDefines));
    [apply VertexParam_events|].
Qed.

Lemma ParseProgram_fragment_event (baseDefines : CShaderDefines)
    (root Child Param : XMBElement) (pre post ps1 ps2 : list XMBElement)
    (e : Event) :
  GetChildNodes root = pre ++ Child :: post →
  GetNodeName Child = "fragment" →
  GetChildNodes Child = ps1 ++ Param :: ps2 →
  (∀ l, e ∈ events (FragmentParam baseDefines Param l)) →
  e ∈ events (ParseProgram baseDefines root).
Proof.
  intros Hroot Hfragment Hchild He. unfold ParseProgram. rewrite Hroot.
  apply (fold_step_event (RootChild baseDefines)); [apply RootChild_events|].
  intros l. unfold RootChild. rewrite Hfragment, Hchild.
  cbn [String.eqb Ascii.eqb Bool.eqb]. cbv zeta.
  by apply (fold_step_event (FragmentParam baseDefines));
    [apply FragmentParam_events|].
Qed.

(** The diagnostics of the reading: the one of [ParseAttribSemantics], and
    on GLES the two of the sampler types.  All of them are fatal. *)
Lemma ParseProgram_diagnostics (baseDefines : CShaderDefines)
    (root : XMBElement) (msg : string) :
  EvDebugWarn msg ∈ events (ParseProgram baseDefines root) →
  msg = "Invalid attribute semantics" ∨
  (CONFIG2_GLES = true ∧
   (msg = "sampler1D not implemented on GLES" ∨
    msg = "sampler3D not implemented on GLES")).
Proof.
  unfold ParseProgram. revert msg.
  set (P := λ l : ProgramLocals, ∀ msg,
         EvDebugWarn msg ∈ events l →
         msg = "Invalid attribute semantics" ∨
         (CONFIG2_GLES = true ∧
          (msg = "sampler1D not implemented on GLES" ∨
           msg = "sampler3D not implemented on GLES"))).
  apply (fold_params_inv P (RootChild baseDefines)).
  - intros c l Hl. unfold RootChild.
    destruct (String.eqb (GetNodeName c) "define"); [done|].
    destruct (String.eqb (GetNodeName c) "vertex").
    { apply (fold_params_inv P (VertexParam baseDefines)); [|done].
      clear. intros p l Hl msg. unfold VertexParam, StreamParam, ParamSkipped,
        ParseAttribSemantics. cbv zeta.
      repeat case_match;
        cbn [events add_events set_vertexUniform set_vertexAttrib
             or_streamFlags fst snd];
        rewrite ?app_nil_r, ?elem_of_app, ?elem_of_cons, ?elem_of_nil;
        intros Hin;
        repeat match type of Hin with
               | _ ∨ _ => destruct Hin as [Hin|Hin]
               end; try done;
        first [ by apply Hl | injection Hin as ->; by left ]. }
    destruct (String.eqb (GetNodeName c) "fragment"); [|done].
    apply (fold_params_inv P (FragmentParam baseDefines)); [|done].
    clear. intros p l Hl msg. unfold FragmentParam, ParamSkipped, SamplerType.
    cbv zeta.
    repeat case_match;
      cbn [events add_events set_fragmentUniform fst snd];
      rewrite ?app_nil_r, ?elem_of_app, ?elem_of_cons, ?elem_of_nil;
      intros Hin;
        repeat match type of Hin with
               | _ ∨ _ => destruct Hin as [Hin|Hin]
               end; try done;
      first [ by apply Hl
            | injection Hin as ->; right; split; [done|]; by left
            | injection Hin as ->; right; split; [done|]; by right ].
  - intros msg H. by apply elem_of_nil in H.
Qed.

(** The call of [debug_warn] for an attribute whose semantics is not
    known. *)
Lemma VertexParam_unknown (baseDefines : CShaderDefines) (Param : XMBElement)
    (l : ProgramLocals) :
  GetNodeName Param = "attrib" →
  (ParamSkipped baseDefines (GetNamedItem (GetAttributes Param) "if")).1
  = false →
  GetNamedItem (GetAttributes Param) "semantics" ∉ known_semantics →
  EvDebugWarn "Invalid attribute semantics"
  ∈ events (VertexParam baseDefines Param l).
Proof.
  intros Hname Hskip Hunknown. unfold VertexParam. cbv zeta.
  rewrite Hskip, Hname. cbn [String.eqb Ascii.eqb Bool.eqb].
  rewrite (ParseAttribSemantics_unknown _ Hunknown).
  cbn [fst snd events set_vertexAttrib add_events].
  apply elem_of_app. right. apply list_elem_of_here.
Qed.


(** *** The table of fragment uniforms *)

Lemma fold_Forall_inv {A : Type} (P : ProgramLocals → Prop)
    (step : A → ProgramLocals → ProgramLocals) (xs : list A)
    (l : ProgramLocals) :
  Forall (λ x, ∀ l, P l → P (step x l)) xs →
  P l → P (fold_left (λ l x, step x l) xs l).
Proof.
  intros Hxs. revert l.
  induction Hxs as [|x xs Hx Hxs IH]; intros l Hl; [done|].
  cbn [fold_left]. by apply IH, Hx.
Qed.

Lemma FragmentParam_keep (baseDefines : CShaderDefines) (Param : XMBElement)
    (l : ProgramLocals) (n : string) :
  GetNamedItem (GetAttributes Param) "name" ≠ n →
  fragmentUniforms (FragmentParam baseDefines Param l) !! n
  = fragmentUniforms l !! n.
Proof.
  intros Hne. unfold FragmentParam. cbv zeta.
  repeat case_match; cbn [fragmentUniforms add_events set_fragmentUniform];
    rewrite ?lookup_insert_ne by done; done.
Qed.

Lemma VertexParam_fragmentUniforms (baseDefines : CShaderDefines)
    (Param : XMBElement) (l : ProgramLocals) :
  fragmentUniforms (VertexParam baseDefines Param l) = fragmentUniforms l.
Proof.
  unfold VertexParam, StreamParam. cbv zeta. repeat case_match; done.
Qed.

Lemma RootChild_fragmentUniforms (baseDefines : CShaderDefines)
    (Child : XMBElement) (l : ProgramLocals) :
  GetNodeName Child ≠ "fragment" →
  fragmentUniforms (RootChild baseDefines Child l) = fragmentUniforms l.
Proof.
  intros Hne%String.eqb_neq. unfold RootChild. rewrite Hne.
  repeat case_match; try done.
  apply (fold_params_inv
           (λ l', fragmentUniforms l' = fragmentUniforms l)
           (VertexParam baseDefines)); [|done].
  intros p l' <-. apply VertexParam_fragmentUniforms.
Qed.

(** The entry of a fragment uniform that is read. *)
Lemma FragmentParam_uniform (baseDefines : CShaderDefines) (Param : XMBElement)
    (l : ProgramLocals) :
  GetNodeName Param = "uniform" →
  (ParamSkipped baseDefines (GetNamedItem (GetAttributes Param) "if")).1
  = false →
  fragmentUniforms (FragmentParam baseDefines Param l)
    !! GetNamedItem (GetAttributes Param) "name"
  = Some (ToInt (GetNamedItem (GetAttributes Param) "loc"),
          (SamplerType (GetNamedItem (GetAttributes Param) "type")).1) ∧
  events (FragmentParam baseDefines Param l)
  = events l
    ++ (ParamSkipped baseDefines (GetNamedItem (GetAttributes Param) "if")).2
    ++ (SamplerType (GetNamedItem (GetAttributes Param) "type")).2.
Proof.
  intros Hname Hskip. unfold FragmentParam. cbv zeta.
  rewrite Hskip, Hname. cbn [String.eqb Ascii.eqb Bool.eqb].
  cbn [fst snd fragmentUniforms events set_fragmentUniform add_events].
  split; [apply lookup_insert_eq|by rewrite <- app_assoc].
Qed.

(** The entry of the last fragment uniform of a name, after the whole
    reading. *)
Lemma ParseProgram_fragment_uniform (baseDefines : CShaderDefines)
    (root Child Param : XMBElement) (pre post ps1 ps2 : list XMBElement) :
  GetChildNodes root = pre ++ Child :: post →
  GetNodeName Child = "fragment" →
  GetChildNodes Child = ps1 ++ Param :: ps2 →
  GetNodeName Param = "uniform" →
  (ParamSkipped baseDefines (GetNamedItem (GetAttributes Param) "if")).1
  = false →
  Forall (λ p, GetNamedItem (GetAttributes p) "name"
               ≠ GetNamedItem (GetAttributes Param) "name") ps2 →
  Forall (λ c, GetNodeName c ≠ "fragment") post →
  fragmentUniforms (ParseProgram baseDefines root)
    !! GetNamedItem (GetAttributes Param) "name"
  = Some (ToInt (GetNamedItem (GetAttributes Param) "loc"),
          (SamplerType (GetNamedItem (GetAttributes Param) "type")).1).
Proof.
  intros Hroot Hfragment Hchild Huniform Hskip Hps2 Hpost.
  unfold ParseProgram. rewrite Hroot, fold_left_app. cbn [fold_left].
  set (P := λ l : ProgramLocals,
         fragmentUniforms l !! GetNamedItem (GetAttributes Param) "name"
         = Some (ToInt (GetNamedItem (GetAttributes Param) "loc"),
                 (SamplerType (GetNamedItem (GetAttributes Param) "type")).1)).
  apply (fold_Forall_inv P (RootChild baseDefines)).
  { eapply Forall_impl; [exact Hpost|]. intros c Hc l Hl. unfold P.
    by rewrite RootChild_fragmentUniforms. }
  unfold RootChild. rewrite Hfragment, Hchild.
  cbn [String.eqb Ascii.eqb Bool.eqb]. cbv zeta.
  rewrite fold_left_app. cbn [fold_left].
  apply (fold_Forall_inv P (FragmentParam baseDefines)).
  { eapply Forall_impl; [exact Hps2|]. intros p Hp l Hl. unfold P.
    by rewrite FragmentParam_keep. }
  by apply FragmentParam_uniform.
Qed.

(** The call of [debug_warn] for a fragment uniform of a sampler type that
    the GLES build does not have. *)
Lemma FragmentParam_gles (baseDefines : CShaderDefines) (Param : XMBElement)
    (l : ProgramLocals) (t : string) :
  CONFIG2_GLES = true → t = "sampler1D" ∨ t = "sampler3D" →
  GetNodeName Param = "uniform" →
  (ParamSkipped baseDefines (GetNamedItem (GetAttributes Param) "if")).1
  = false →
  GetNamedItem (GetAttributes Param) "type" = t →
  SamplerType t
  = (GL_TEXTURE_2D, [EvDebugWarn (t +:+ " not implemented on GLES")]) ∧
  EvDebugWarn (t +:+ " not implemented on GLES")
  ∈ events (FragmentParam baseDefines Param l).
Proof.
  intros HGLES Ht Hname Hskip Htype.
  assert (Hs : SamplerType t
               = (GL_TEXTURE_2D,
                  [EvDebugWarn (t +:+ " not implemented on GLES")])).
  { unfold SamplerType. rewrite HGLES. by destruct Ht as [->| ->]. }
  split; [exact Hs|].
  destruct (FragmentParam_uniform baseDefines Param l Hname Hskip) as [_ He].
  rewrite He, Htype, Hs. cbn [snd].
  rewrite !elem_of_app. right. right. apply list_elem_of_here.
Qed.


(** *** The defines a pass is resolved with *)

(** The passes of the loop, by the key their program is cached under. *)
Lemma TechPasses_keys (techDefines : CShaderDefines)
    (Children : list XMBElement) (w : State) :
  let r := TechPasses techDefines Children [] w in
  Forall2
    (λ Child pass,
       m_ProgramCache r.2
         !! {| ck_name := GetNamedItem (GetAttributes Child) "shader";
               ck_defines := AddAll (define_pairs (GetChildNodes Child))
                                    techDefines |}
       = Some (shader pass))
    (List.filter (is_tag "pass") Children) r.1.
Proof.
  intros r. subst r.
  destruct (TechPasses_result techDefines Children [] w)
    as (new & Hnew & Hall).
  cbn [app] in Hnew. rewrite Hnew.
  eapply Forall2_impl; [exact Hall|].
  intros Child pass [_ Hkey]. unfold pass_key, BuildPass in Hkey.
  by rewrite PassElements_passDefines in Hkey.
Qed.

(** C3: when [LoadEffect] builds an effect from its first usable candidate,
    the technique-level define set is the caller's set with every [define]
    child of the candidate added in document order, a later write of a name
    winning; every pass, wherever it stands among the children, is
    resolved with that complete set and the [define] children of the pass
    itself added on top in order: the technique that is returned has one
    pass for each [pass] child, in document order, and the program of each
    is the one [LoadProgram] cached under the shader of the pass and these
    defines.  So a name the pass defines takes the value of the pass, a
    name it does not define keeps the technique-level value, also when the
    technique defines it after the pass, and no other pass enters into it.
    And a candidate with the same [define] children in the same order, the
    same [pass] children in the same order and the same sort markers,
    however interleaved, is built into the same technique, by the same
    run. *)
Theorem C3_define_layering (name : string) (defines : CShaderDefines)
    (w : State) (Root T : XMBElement) (pre post : list XMBElement) :
  m_EffectCache w !! {| ek_name := name; ek_defines := defines |} = None →
  g_VFS ("shaders/effects/" +:+ name +:+ ".xml") = Some Root →
  GetChildNodes Root = pre ++ T :: post →
  Forall (λ c, (TechniqueUsable defines c).1 = false) pre →
  (TechniqueUsable defines T).1 = true →
  let techDefines := AddAll (define_pairs (GetChildNodes T)) defines in
  let resolved := λ Child,
    AddAll (define_pairs (GetChildNodes Child)) techDefines in
  let r := LoadEffect name defines w in
  (TechDefines defines (GetChildNodes T)).1 = techDefines ∧
  (∀ n, techDefines !! n
        = match last_binding n (define_pairs (GetChildNodes T)) with
          | Some v => Some v
          | None => defines !! n
          end) ∧
  (∀ Child,
     passDefines (BuildPass techDefines Child) = resolved Child ∧
     ∀ n, resolved Child !! n
          = match last_binding n (define_pairs (GetChildNodes Child)) with
            | Some v => Some v
            | None => techDefines !! n
            end) ∧
  (∃ t tech,
     r.1 = Some t ∧ techniques r.2 !! t = Some tech ∧
     Forall2
       (λ Child pass,
          m_ProgramCache r.2
            !! {| ck_name := GetNamedItem (GetAttributes Child) "shader";
                  ck_defines := resolved Child |}
          = Some (shader pass))
       (List.filter (is_tag "pass") (GetChildNodes T)) (passes tech)) ∧
  (∀ T',
     List.filter (is_tag "define") (GetChildNodes T')
     = List.filter (is_tag "define") (GetChildNodes T) →
     List.filter (is_tag "pass") (GetChildNodes T')
     = List.filter (is_tag "pass") (GetChildNodes T) →
     List.filter (is_tag "sort_by_distance") (GetChildNodes T')
     = List.filter (is_tag "sort_by_distance") (GetChildNodes T) →
     (TechDefines defines (GetChildNodes T')).1 = techDefines ∧
     ∀ tech w',
       BuildTechnique defines tech T' w' = BuildTechnique defines tech T w').
Proof.
  intros Hmiss Hload Hchildren Hpre HT techDefines resolved r.
  assert (Htd : (TechDefines defines (GetChildNodes T)).1 = techDefines)
    by apply TechDefines_spec.
  split; [exact Htd|]. split; [intros n; apply AddAll_lookup|].
  split; [|split].
  - intros Child. split; [|intros n; apply AddAll_lookup].
    unfold BuildPass. by rewrite PassElements_passDefines.
  - subst r.
    assert (Husable : (UsableTechs defines (GetChildNodes Root)).1
              = T :: List.filter (λ T, (TechniqueUsable defines T).1) post).
    { rewrite UsableTechs_spec, Hchildren. cbn [fst].
      by apply filter_first_usable. }
    rewrite (LoadEffect_build name defines w Root T _ Hmiss Hload Husable).
    cbv zeta. cbn [fst snd]. rewrite Htd.
    set (w1 := set_trace _ w).
    pose proof (TechPasses_keys techDefines (GetChildNodes T) w1) as Hkeys.
    destruct (TechPasses_frame techDefines (GetChildNodes T) [] w1)
      as (_ & _ & Hte & _).
    cbv zeta in Hkeys.
    set (r := TechPasses techDefines (GetChildNodes T) [] w1) in *.
    cbn in Hte.
    eexists _, _. split; [reflexivity|]. split.
    + simpl. rewrite <- Hte. apply list_lookup_middle. reflexivity.
    + exact Hkeys.
  - intros T' Hdefines Hpasses Hsort.
    assert (Htd' : (TechDefines defines (GetChildNodes T')).1 = techDefines).
    { rewrite TechDefines_spec. unfold techDefines, define_pairs.
      by rewrite Hdefines. }
    split; [exact Htd'|]. intros tech w'.
    assert (Hflag : (TechDefines defines (GetChildNodes T')).2
                    = (TechDefines defines (GetChildNodes T)).2).
    { rewrite !TechDefines_flag.
      assert (Hex : ∀ cs, existsb (is_tag "sort_by_distance") cs
                = negb (bool_decide
                          (List.filter (is_tag "sort_by_distance") cs = []))).
      { clear. induction cs as [|c cs IH]; [done|]. cbn.
        destruct (is_tag "sort_by_distance" c); [done|]. by rewrite IH. }
      by rewrite !Hex, Hsort. }
    rewrite !BuildTechnique_spec. cbv zeta. rewrite Htd', Htd, Hflag.
    by rewrite (TechPasses_filter _ (GetChildNodes T')), Hpasses,
      <- (TechPasses_filter _ (GetChildNodes T)).
Qed.

End ShaderManager.

(** ** The properties on the sample environment *)

Abbreviation sample_BuildPass :=
  (BuildPass Sample.token Sample.token Sample.token Sample.token Sample.token
             Sample.token Sample.token Sample.ToInt Sample.ParseString
             Sample.RED Sample.GREEN Sample.BLUE Sample.ALPHA Sample.defaultDesc).

Abbreviation sample_PassElements :=
  (PassElements Sample.token Sample.token Sample.token Sample.token Sample.token
                Sample.token Sample.token Sample.ToInt Sample.ParseString
                Sample.RED Sample.GREEN Sample.BLUE Sample.ALPHA).

Abbreviation sample_PassElement :=
  (PassElement Sample.token Sample.token Sample.token Sample.token Sample.token
               Sample.token Sample.token Sample.ToInt Sample.ParseString
               Sample.RED Sample.GREEN Sample.BLUE Sample.ALPHA).

Abbreviation sample_PassInit := (PassInit Sample.defaultDesc).

Abbreviation sample_LoadProgram :=
  (LoadProgram (BlendFactor:=string)
     (BlendOp:=string)
     (CullMode:=string)
     (FrontFace:=string)
     (PolygonMode:=string)
     (CompareOp:=string)
     (StencilOp:=string)
     (CColor:=string)
     Sample.g_VFS Sample.ValidateEncoded Sample.TestConditional Sample.ToInt
     Sample.STREAM_POS Sample.STREAM_NORMAL Sample.STREAM_COLOR Sample.STREAM_UV0
     Sample.STREAM_UV1 Sample.STREAM_UV2 Sample.STREAM_UV3 false
     Sample.GetFileDependencies).

Abbreviation sample_NewEffect :=
  (NewEffect Sample.token Sample.token Sample.token Sample.token Sample.token
     Sample.token Sample.token Sample.ToInt Sample.ParseString
     Sample.RED Sample.GREEN Sample.BLUE Sample.ALPHA Sample.defaultDesc
     Sample.g_VFS Sample.ValidateEncoded Sample.TestConditional Sample.ToInt
     Sample.STREAM_POS Sample.STREAM_NORMAL Sample.STREAM_COLOR Sample.STREAM_UV0
     Sample.STREAM_UV1 Sample.STREAM_UV2 Sample.STREAM_UV3 false GL false
     Sample.GetFileDependencies).

Abbreviation sample_BuildTechnique :=
  (BuildTechnique Sample.token Sample.token Sample.token Sample.token Sample.token
     Sample.token Sample.token Sample.ToInt Sample.ParseString
     Sample.RED Sample.GREEN Sample.BLUE Sample.ALPHA Sample.defaultDesc
     Sample.g_VFS Sample.ValidateEncoded Sample.TestConditional Sample.ToInt
     Sample.STREAM_POS Sample.STREAM_NORMAL Sample.STREAM_COLOR Sample.STREAM_UV0
     Sample.STREAM_UV1 Sample.STREAM_UV2 Sample.STREAM_UV3 false
     Sample.GetFileDependencies).

Abbreviation sample_LoadEffect :=
  (LoadEffect Sample.token Sample.token Sample.token Sample.token Sample.token
     Sample.token Sample.token Sample.ToInt Sample.ParseString
     Sample.RED Sample.GREEN Sample.BLUE Sample.ALPHA Sample.defaultDesc
     Sample.g_VFS Sample.ValidateEncoded Sample.TestConditional Sample.ToInt
     Sample.STREAM_POS Sample.STREAM_NORMAL Sample.STREAM_COLOR Sample.STREAM_UV0
     Sample.STREAM_UV1 Sample.STREAM_UV2 Sample.STREAM_UV3 false GL false
     Sample.GetFileDependencies).

Abbreviation sample_ReloadChangedFile :=
  (ReloadChangedFile (BlendFactor:=string)
     (BlendOp:=string)
     (CullMode:=string)
     (FrontFace:=string)
     (PolygonMode:=string)
     (CompareOp:=string)
     (StencilOp:=string)
     (CColor:=string)).

Abbreviation sample_AddProgramFileDependency :=
  (AddProgramFileDependency (BlendFactor:=string)
     (BlendOp:=string)
     (CullMode:=string)
     (FrontFace:=string)
     (PolygonMode:=string)
     (CompareOp:=string)
     (StencilOp:=string)
     (CColor:=string)).

Abbreviation sample_EffectCacheKeyHash :=
  (EffectCacheKeyHash Sample.hash_combine Sample.CStrIntern_GetHash
     Sample.CShaderDefines_GetHash).

(** The sparse overrides on the pass with a lone depth test attribute, and
    what the [blend] element of a pass writes. *)
Lemma C4_sparse_overrides_witness :
  let d := passPipelineStateDesc (sample_BuildPass ∅ Sample.pass_depth_test) in
  let b := blendState (passPipelineStateDesc
             (sample_BuildPass ∅ Sample.pass_blend_stencil)) in
  (rasterizationState d = rasterizationState Sample.defaultDesc ∧
   blendState d = blendState Sample.defaultDesc ∧
   depthTestEnabled (depthStencilState d) = false ∧
   stencilFrontFace (depthStencilState d)
   = stencilFrontFace (depthStencilState Sample.defaultDesc)) ∧
  (enabled b = true ∧
   srcColorBlendFactor b = "src_alpha" ∧ srcAlphaBlendFactor b = "src_alpha" ∧
   dstColorBlendFactor b = "one_minus_src_alpha" ∧
   dstAlphaBlendFactor b = "one_minus_src_alpha" ∧
   colorBlendOp b = colorBlendOp (blendState Sample.defaultDesc) ∧
   colorWriteMask b = colorWriteMask (blendState Sample.defaultDesc)).
Proof.
  intros d b. split.
  - pose proof (C4_sparse_overrides Sample.token Sample.token Sample.token
                Sample.token Sample.token Sample.token Sample.token
                Sample.ToInt Sample.ParseString Sample.RED Sample.GREEN
                Sample.BLUE Sample.ALPHA Sample.defaultDesc ∅
                Sample.pass_depth_test) as H.
    cbv zeta in H.
    destruct H as (_ & _ & _ & _ & _ & _ & _ & _ & _ & _ & _ & _ & _ & _ & _
                   & _ & _ & _ & _ & H & _).
    destruct (H "FALSE" [] eq_refl) as (Hr & Hb & _ & _ & _ & _ & Hf & _).
    split; [exact Hr|]. split; [exact Hb|]. split; [reflexivity | exact Hf].
  - pose proof (C4_sparse_overrides Sample.token Sample.token Sample.token
                Sample.token Sample.token Sample.token Sample.token
                Sample.ToInt Sample.ParseString Sample.RED Sample.GREEN
                Sample.BLUE Sample.ALPHA Sample.defaultDesc ∅
                Sample.pass_blend_stencil) as H.
    cbv zeta in H.
    destruct H as (_ & _ & Hop & _ & Hmask & _ & _ & _ & _ & _ & _ & _ & _ & _
                   & _ & _ & _ & _ & _ & _ & Hblend & _).
    destruct (Hblend []
                [MkElement "stencil"
                   [("test", "TRUE"); ("compare", "equal"); ("pass", "replace")]
                   []]
                (MkElement "blend"
                   [("src", "src_alpha"); ("dst", "one_minus_src_alpha")] [])
                eq_refl eq_refl eq_refl) as (He & Hsc & Hsa & Hdc & Hda).
    split; [exact He|]. split; [exact Hsc|]. split; [exact Hsa|].
    split; [exact Hdc|]. split; [exact Hda|].
    split; [exact (proj1 (Hop eq_refl))|exact (Hmask eq_refl)].
Defined.

(** Sparse overrides as the specification words them fail on a [color]
    element and on a [blend] element.  The green channel attribute is
    absent from the markup of the first pass, the default enables the green
    channel, and the pass disables it; whatever the default, the pass ends
    with the green channel disabled.  The [src] and [dst] attributes are
    absent from the markup of the second pass, as is every attribute, and
    the pass ends with blending enabled and with factors that are not the
    default's. *)
Lemma C4_absent_attribute_counterexample :
  let Elements := GetChildNodes Sample.pass_color_red in
  let d := passPipelineStateDesc (sample_BuildPass ∅ Sample.pass_color_red) in
  let Elements' := GetChildNodes Sample.pass_blend_bare in
  let d' := passPipelineStateDesc (sample_BuildPass ∅ Sample.pass_blend_bare) in
  (Forall (λ e, GetNamedItem (GetAttributes e) "mask_green" = "") Elements ∧
   Z.land (colorWriteMask (blendState Sample.defaultDesc)) Sample.GREEN
   = Sample.GREEN ∧
   Z.land (colorWriteMask (blendState d)) Sample.GREEN = 0 ∧
   colorWriteMask (blendState d) ≠ colorWriteMask (blendState Sample.defaultDesc) ∧
   ∀ d0 : Sample.Desc,
     Z.land
       (colorWriteMask (blendState (passPipelineStateDesc
          (BuildPass Sample.token Sample.token Sample.token Sample.token
             Sample.token Sample.token Sample.token Sample.ToInt
             Sample.ParseString Sample.RED Sample.GREEN Sample.BLUE
             Sample.ALPHA d0 ∅ Sample.pass_color_red))))
       Sample.GREEN = 0) ∧
  (Forall (λ e, GetAttributes e = []) Elements' ∧
   enabled (blendState Sample.defaultDesc) = false ∧
   enabled (blendState d') = true ∧
   srcColorBlendFactor (blendState d')
   ≠ srcColorBlendFactor (blendState Sample.defaultDesc) ∧
   dstColorBlendFactor (blendState d')
   ≠ dstColorBlendFactor (blendState Sample.defaultDesc)).
Proof.
  split.
  - split; [repeat constructor|].
    split; [reflexivity|]. split; [reflexivity|]. split; [discriminate|].
    intros d0. reflexivity.
  - split; [repeat constructor|].
    split; [reflexivity|]. split; [reflexivity|]. split; discriminate.
Qed.

Lemma C8_color_write_mask_witness :
  let mask := colorWriteMask (blendState (passPipelineStateDesc
                (sample_PassElements ([Sample.depth_upper] ++ Sample.color_red
                                        :: [Sample.stencil_upper])
                                     (sample_PassInit ∅)))) in
  mask = Sample.RED ∧
  Z.land mask Sample.RED = Sample.RED ∧
  Z.land mask Sample.GREEN = 0 ∧
  Z.land mask Sample.BLUE = 0 ∧
  Z.land mask Sample.ALPHA = 0.
Proof.
  intros mask.
  destruct (C8_color_write_mask Sample.token Sample.token Sample.token
              Sample.token Sample.token Sample.token Sample.token
              Sample.ToInt Sample.ParseString Sample.RED Sample.GREEN
              Sample.BLUE Sample.ALPHA
              [Sample.depth_upper] [Sample.stencil_upper] Sample.color_red
              (sample_PassInit ∅) eq_refl eq_refl) as [H1 H2].
  split; [exact H1|].
  exact (H2 eq_refl eq_refl eq_refl eq_refl eq_refl eq_refl).
Defined.

Lemma C9_depth_attribute_case_witness :
  let d := depthStencilState (passPipelineStateDesc
             (sample_PassElement Sample.depth_upper (sample_PassInit ∅))) in
  depthTestEnabled d = true ∧ depthWriteEnabled d = false.
Proof.
  intros d.
  destruct (C9_depth_attribute_case Sample.token Sample.token Sample.token
              Sample.token Sample.token Sample.token Sample.token
              Sample.ToInt Sample.ParseString Sample.RED Sample.GREEN
              Sample.BLUE Sample.ALPHA
              Sample.depth_upper Sample.stencil_upper (sample_PassInit ∅)
              eq_refl eq_refl) as (Ht & _ & _ & Hm).
  split.
  - apply Ht; [discriminate | reflexivity].
  - apply Hm. reflexivity.
Defined.

(** A name without a document: one load attempt, one error, and the null
    handle both times. *)
Lemma C1_cache_memoization_witness :
  let p := sample_LoadProgram "nothing" ∅ Sample.init in
  let e := sample_LoadEffect "nothing" ∅ Sample.init in
  (p.1 = None ∧
   trace p.2 = [EvLoad "shaders/nothing.xml";
                EvLOGERROR "Failed to load shader 'nothing'"] ∧
   sample_LoadProgram "nothing" ∅ p.2 = (None, p.2)) ∧
  (e.1 = None ∧
   trace e.2 = [EvLoad "shaders/effects/nothing.xml";
                EvLOGERROR "Failed to load effect 'nothing'"] ∧
   sample_LoadEffect "nothing" ∅ e.2 = (None, e.2)).
Proof.
  intros p e.
  destruct (C1_cache_memoization
    Sample.token Sample.token Sample.token Sample.token Sample.token
     Sample.token Sample.token Sample.ToInt Sample.ParseString
     Sample.RED Sample.GREEN Sample.BLUE Sample.ALPHA Sample.defaultDesc
     Sample.g_VFS Sample.ValidateEncoded Sample.TestConditional Sample.ToInt
     Sample.STREAM_POS Sample.STREAM_NORMAL Sample.STREAM_COLOR Sample.STREAM_UV0
     Sample.STREAM_UV1 Sample.STREAM_UV2 Sample.STREAM_UV3 false GL false
     Sample.GetFileDependencies
    Sample.init "nothing" ∅) as (_ & _ & _ & _ & Hp & He).
  split; [exact (Hp eq_refl eq_refl) | exact (He eq_refl eq_refl)].
Defined.

(** The second of three candidates is the first usable one: the technique
    is built from it, after the requirements of all three were evaluated. *)
Lemma C2_first_usable_technique_witness :
  sample_NewEffect "three" Sample.defines_BC 0%nat Sample.init
  = sample_BuildTechnique Sample.defines_BC 0%nat
      (Sample.technique_of "USE_B" "shadow")
      (set_trace
         (λ t, t ++ [EvLoad "shaders/effects/three.xml";
                     EvTestConditional "USE_A"; EvTestConditional "USE_B";
                     EvTestConditional "USE_C"])
         Sample.init).
Proof.
  destruct (C2_first_usable_technique
    Sample.token Sample.token Sample.token Sample.token Sample.token
     Sample.token Sample.token Sample.ToInt Sample.ParseString
     Sample.RED Sample.GREEN Sample.BLUE Sample.ALPHA Sample.defaultDesc
     Sample.g_VFS Sample.ValidateEncoded Sample.TestConditional Sample.ToInt
     Sample.STREAM_POS Sample.STREAM_NORMAL Sample.STREAM_COLOR Sample.STREAM_UV0
     Sample.STREAM_UV1 Sample.STREAM_UV2 Sample.STREAM_UV3 false GL false
     Sample.GetFileDependencies
    "three" Sample.defines_BC 0%nat Sample.init Sample.effect_three eq_refl)
    as (_ & H & _).
  apply (H [Sample.technique_of "USE_A" "basic"]
           (Sample.technique_of "USE_B" "shadow")
           [Sample.technique_of "USE_C" "bogus"]).
  - reflexivity.
  - constructor; [reflexivity | constructor].
  - reflexivity.
Defined.

(** First-usable-wins as the specification words it fails: with the first
    candidate unusable and the second and third usable, the second is chosen
    (its program "shadow" is the only one loaded), yet the requirement of
    the third was evaluated. *)
Lemma C2_later_candidate_counterexample :
  let r := sample_LoadEffect "three" Sample.defines_BC Sample.init in
  Sample.TestConditional Sample.defines_BC "USE_A" = false ∧
  Sample.TestConditional Sample.defines_BC "USE_B" = true ∧
  Sample.TestConditional Sample.defines_BC "USE_C" = true ∧
  r.1 = Some 0%nat ∧
  trace r.2 = [EvLoad "shaders/effects/three.xml";
               EvTestConditional "USE_A"; EvTestConditional "USE_B";
               EvTestConditional "USE_C";
               EvLoad "shaders/shadow.xml"; EvValidateEncoded "shadow";
               EvReload 0%nat] ∧
  EvTestConditional "USE_C" ∈ trace r.2.
Proof.
  repeat split; try (vm_compute; reflexivity).
  vm_compute. do 3 apply list_elem_of_further. apply list_elem_of_here.
Qed.

(** A program registered under its vertex file: one reload while it is
    alive, none once it is destroyed. *)
Lemma C5_hotload_tracker_witness :
  let path := "shaders/glsl/basic.vs" in
  let w1 := (sample_AddProgramFileDependency 0%nat path Sample.init).2 in
  let w2 := (DestroyProgram 0%nat w1).2 in
  sample_ReloadChangedFile path Sample.init = (INFO_OK, Sample.init) ∧
  trace (sample_ReloadChangedFile path w1).2 = [EvReload 0%nat] ∧
  trace (sample_ReloadChangedFile path w2).2 = [] ∧
  sample_AddProgramFileDependency 0%nat path w1 = (tt, w1).
Proof.
  intros path w1 w2.
  destruct (C5_hotload_tracker Sample.init path 0%nat)
    as (Habsent & Hlive & _ & Hdead & _ & Hagain).
  split; [exact (Habsent eq_refl)|].
  split; [|split; [|exact Hagain]].
  - fold w1 in Hlive. rewrite Hlive. vm_compute. reflexivity.
  - fold w1 w2 in Hdead. rewrite Hdead. vm_compute. reflexivity.
Defined.

(** The same two defines added in the two orders; and the hash, which
    tells one name from another and one define set from another. *)
Lemma C6_cache_key_witness :
  let l1 := [("USE_A", "1"); ("USE_B", "2")] in
  let l2 := [("USE_B", "2"); ("USE_A", "1")] in
  let k1 := {| ek_name := "three"; ek_defines := AddAll l1 ∅ |} in
  let k2 := {| ek_name := "three"; ek_defines := AddAll l2 ∅ |} in
  let e := sample_LoadEffect "three" (AddAll l1 ∅) Sample.init in
  EffectCacheKey_eq k1 k2 = true ∧
  sample_EffectCacheKeyHash k1 = sample_EffectCacheKeyHash k2 ∧
  sample_EffectCacheKeyHash k1
  = Sample.hash_combine
      (Sample.hash_combine 0 (Sample.CStrIntern_GetHash "three"))
      (Sample.CShaderDefines_GetHash (AddAll l1 ∅)) ∧
  sample_LoadEffect "three" (AddAll l2 ∅) e.2 = (e.1, e.2) ∧
  sample_EffectCacheKeyHash {| ek_name := "three"; ek_defines := ∅ |}
  ≠ sample_EffectCacheKeyHash {| ek_name := "layers"; ek_defines := ∅ |} ∧
  sample_EffectCacheKeyHash {| ek_name := "three"; ek_defines := ∅ |}
  ≠ sample_EffectCacheKeyHash
      {| ek_name := "three"; ek_defines := Add "USE_A" "1" ∅ |}.
Proof.
  intros l1 l2 k1 k2 e.
  destruct (C6_cache_key
    Sample.token Sample.token Sample.token Sample.token Sample.token
     Sample.token Sample.token Sample.ToInt Sample.ParseString
     Sample.RED Sample.GREEN Sample.BLUE Sample.ALPHA Sample.defaultDesc
     Sample.g_VFS Sample.ValidateEncoded Sample.TestConditional Sample.ToInt
     Sample.STREAM_POS Sample.STREAM_NORMAL Sample.STREAM_COLOR Sample.STREAM_UV0
     Sample.STREAM_UV1 Sample.STREAM_UV2 Sample.STREAM_UV3 false GL false
     Sample.GetFileDependencies
    Sample.hash_combine Sample.CStrIntern_GetHash
     Sample.CShaderDefines_GetHash
    k1 k1) as (_ & _ & Hcombine & _ & _ & H).
  destruct (H l1 l2 Sample.init) as (Heq & Hhash & _ & Heffect & _).
  - apply (bool_decide_unpack _). vm_compute. exact I.
  - apply perm_swap.
  - split; [exact Heq|]. split; [exact Hhash|]. split; [exact Hcombine|].
    split; [exact Heffect|]. split; vm_compute; discriminate.
Defined.

(** ** More of the sample environment *)

Abbreviation more_LoadProgram :=
  (LoadProgram (BlendFactor:=string) (BlendOp:=string) (CullMode:=string)
     (FrontFace:=string) (PolygonMode:=string) (CompareOp:=string)
     (StencilOp:=string) (CColor:=string)
     Sample.g_VFS_more Sample.ValidateEncoded Sample.TestConditional Sample.ToInt
     Sample.STREAM_POS Sample.STREAM_NORMAL Sample.STREAM_COLOR Sample.STREAM_UV0
     Sample.STREAM_UV1 Sample.STREAM_UV2 Sample.STREAM_UV3 false
     Sample.GetFileDependencies).

Abbreviation strict_LoadProgram :=
  (LoadProgram (BlendFactor:=string) (BlendOp:=string) (CullMode:=string)
     (FrontFace:=string) (PolygonMode:=string) (CompareOp:=string)
     (StencilOp:=string) (CColor:=string)
     Sample.g_VFS Sample.ValidateStrict Sample.TestConditional Sample.ToInt
     Sample.STREAM_POS Sample.STREAM_NORMAL Sample.STREAM_COLOR Sample.STREAM_UV0
     Sample.STREAM_UV1 Sample.STREAM_UV2 Sample.STREAM_UV3 false
     Sample.GetFileDependencies).

Abbreviation more_LoadEffect :=
  (LoadEffect Sample.token Sample.token Sample.token Sample.token Sample.token
     Sample.token Sample.token Sample.ToInt Sample.ParseString
     Sample.RED Sample.GREEN Sample.BLUE Sample.ALPHA Sample.defaultDesc
     Sample.g_VFS_more Sample.ValidateEncoded Sample.TestConditional Sample.ToInt
     Sample.STREAM_POS Sample.STREAM_NORMAL Sample.STREAM_COLOR Sample.STREAM_UV0
     Sample.STREAM_UV1 Sample.STREAM_UV2 Sample.STREAM_UV3 false GL false
     Sample.GetFileDependencies).

Abbreviation sample_run :=
  (run Sample.token Sample.token Sample.token Sample.token Sample.token
     Sample.token Sample.token Sample.ToInt Sample.ParseString
     Sample.RED Sample.GREEN Sample.BLUE Sample.ALPHA Sample.defaultDesc
     Sample.g_VFS Sample.ValidateEncoded Sample.TestConditional Sample.ToInt
     Sample.STREAM_POS Sample.STREAM_NORMAL Sample.STREAM_COLOR Sample.STREAM_UV0
     Sample.STREAM_UV1 Sample.STREAM_UV2 Sample.STREAM_UV3 false GL false
     Sample.GetFileDependencies).

Abbreviation sample_pass_of :=
  (pass_of Sample.token Sample.token Sample.token Sample.token Sample.token
     Sample.token Sample.token Sample.ToInt Sample.ParseString
     Sample.RED Sample.GREEN Sample.BLUE Sample.ALPHA Sample.defaultDesc).

(** The defines of the program "fog": those of its document over those of
    the caller. *)
Lemma X2_program_defines_witness :
  let r := more_LoadProgram "fog" (Add "MODE" "caller" (Add "LOD" "2" ∅))
                            Sample.init in
  ∃ program obj,
    r.1 = Some program ∧ programs r.2 !! program = Some obj ∧
    program_defines obj !! "MODE" = Some "doc" ∧
    program_defines obj !! "USE_FOG" = Some "1" ∧
    program_defines obj !! "LOD" = Some "2".
Proof.
  intros r.
  destruct (X2_program_defines
    (BlendFactor:=string) (BlendOp:=string) (CullMode:=string)
     (FrontFace:=string) (PolygonMode:=string) (CompareOp:=string)
     (StencilOp:=string) (CColor:=string)
     Sample.g_VFS_more Sample.ValidateEncoded Sample.TestConditional Sample.ToInt
     Sample.STREAM_POS Sample.STREAM_NORMAL Sample.STREAM_COLOR Sample.STREAM_UV0
     Sample.STREAM_UV1 Sample.STREAM_UV2 Sample.STREAM_UV3 false
     Sample.GetFileDependencies
    "fog" (Add "MODE" "caller" (Add "LOD" "2" ∅)) Sample.init
    Sample.program_fog eq_refl eq_refl eq_refl)
    as (program & obj & H1 & H2 & _ & H4).
  exists program, obj.
  split; [exact H1|]. split; [exact H2|].
  split; [exact (H4 "MODE")|]. split; [exact (H4 "USE_FOG")|].
  rewrite (H4 "LOD"). vm_compute. reflexivity.
Defined.

(** The program "fog" is registered under its two files. *)
Lemma X4_dependencies_registered_witness :
  let r := more_LoadProgram "fog" ∅ Sample.init in
  r.1 = Some 0%nat ∧
  0%nat ∈ default ∅ (m_HotloadFiles r.2 !! "shaders/arb/fog.vp") ∧
  0%nat ∈ default ∅ (m_HotloadFiles r.2 !! "shaders/arb/fog.fp").
Proof.
  intros r.
  destruct (X4_dependencies_registered
    (BlendFactor:=string) (BlendOp:=string) (CullMode:=string)
     (FrontFace:=string) (PolygonMode:=string) (CompareOp:=string)
     (StencilOp:=string) (CColor:=string)
     Sample.g_VFS_more Sample.ValidateEncoded Sample.TestConditional Sample.ToInt
     Sample.STREAM_POS Sample.STREAM_NORMAL Sample.STREAM_COLOR Sample.STREAM_UV0
     Sample.STREAM_UV1 Sample.STREAM_UV2 Sample.STREAM_UV3 false
     Sample.GetFileDependencies
    "fog" ∅ Sample.init Sample.program_fog eq_refl eq_refl eq_refl)
    as (H1 & H2 & _ & _).
  split; [exact H1|].
  split; apply H2;
    [apply list_elem_of_here | apply list_elem_of_further, list_elem_of_here].
Defined.

(** A change to the vertex file of "fog" reloads it once. *)
Lemma X5_load_then_change_witness :
  let r := more_LoadProgram "fog" ∅ Sample.init in
  ∃ evs,
    sample_ReloadChangedFile "shaders/arb/fog.vp" r.2
    = (INFO_OK, set_trace (λ t, t ++ evs) r.2) ∧
    reloads_of 0 evs = 1%nat.
Proof.
  intros r.
  apply (X5_load_then_change
    (BlendFactor:=string) (BlendOp:=string) (CullMode:=string)
     (FrontFace:=string) (PolygonMode:=string) (CompareOp:=string)
     (StencilOp:=string) (CColor:=string)
     Sample.g_VFS_more Sample.ValidateEncoded Sample.TestConditional Sample.ToInt
     Sample.STREAM_POS Sample.STREAM_NORMAL Sample.STREAM_COLOR Sample.STREAM_UV0
     Sample.STREAM_UV1 Sample.STREAM_UV2 Sample.STREAM_UV3 false
     Sample.GetFileDependencies
    "fog" ∅ Sample.init Sample.program_fog "shaders/arb/fog.vp"
    eq_refl eq_refl eq_refl).
  - apply list_elem_of_here.
  - apply not_elem_of_empty.
Defined.

(** The program "bogus" under a validator that rejects it. *)
Lemma X6_failed_program_creates_nothing_witness :
  let r := strict_LoadProgram "bogus" ∅ Sample.init in
  r.1 = None ∧ programs r.2 = [] ∧ m_HotloadFiles r.2 = ∅ ∧
  errors_of (trace r.2) = [EvLOGERROR "Failed to load shader 'bogus'"].
Proof.
  intros r.
  destruct (X6_failed_program_creates_nothing
    (BlendFactor:=string) (BlendOp:=string) (CullMode:=string)
     (FrontFace:=string) (PolygonMode:=string) (CompareOp:=string)
     (StencilOp:=string) (CColor:=string)
     Sample.g_VFS Sample.ValidateStrict Sample.TestConditional Sample.ToInt
     Sample.STREAM_POS Sample.STREAM_NORMAL Sample.STREAM_COLOR Sample.STREAM_UV0
     Sample.STREAM_UV1 Sample.STREAM_UV2 Sample.STREAM_UV3 false
     Sample.GetFileDependencies
    "bogus" ∅ Sample.init eq_refl)
    as (H1 & _ & H3 & H4 & _ & _ & H7).
  { right. exists Sample.program_bogus. split; reflexivity. }
  split; [exact H1|]. split; [exact H3|]. split; [exact H4|exact H7].
Defined.

(** Effects and programs, found and not found, and a file change. *)
Lemma X7_no_dangling_handles_witness :
  handles_valid
    (sample_run [CallLoadEffect "three" Sample.defines_BC;
                 CallLoadProgram "basic" ∅; CallLoadProgram "nothing" ∅;
                 CallReloadChangedFile "shaders/glsl/basic.vs";
                 CallLoadEffect "layers" ∅]
                Sample.init).
Proof.
  apply (X7_no_dangling_handles
    Sample.token Sample.token Sample.token Sample.token Sample.token
     Sample.token Sample.token Sample.ToInt Sample.ParseString
     Sample.RED Sample.GREEN Sample.BLUE Sample.ALPHA Sample.defaultDesc
     Sample.g_VFS Sample.ValidateEncoded Sample.TestConditional Sample.ToInt
     Sample.STREAM_POS Sample.STREAM_NORMAL Sample.STREAM_COLOR Sample.STREAM_UV0
     Sample.STREAM_UV1 Sample.STREAM_UV2 Sample.STREAM_UV3 false GL false
     Sample.GetFileDependencies).
  unfold handles_valid. cbn.
  repeat split; intros *; rewrite ?lookup_empty, ?lookup_nil; discriminate.
Defined.

Lemma X8_one_object_per_key_witness :
  handles_unshared
    (sample_run [CallLoadEffect "three" Sample.defines_BC;
                 CallLoadProgram "shadow" ∅; CallLoadProgram "shadow" ∅;
                 CallLoadEffect "three" Sample.defines_BC]
                Sample.init).
Proof.
  apply (X8_one_object_per_key
    Sample.token Sample.token Sample.token Sample.token Sample.token
     Sample.token Sample.token Sample.ToInt Sample.ParseString
     Sample.RED Sample.GREEN Sample.BLUE Sample.ALPHA Sample.defaultDesc
     Sample.g_VFS Sample.ValidateEncoded Sample.TestConditional Sample.ToInt
     Sample.STREAM_POS Sample.STREAM_NORMAL Sample.STREAM_COLOR Sample.STREAM_UV0
     Sample.STREAM_UV1 Sample.STREAM_UV2 Sample.STREAM_UV3 false GL false
     Sample.GetFileDependencies).
  - unfold handles_valid. cbn.
    repeat split; intros *; rewrite ?lookup_empty, ?lookup_nil; discriminate.
  - unfold handles_unshared. cbn.
    repeat split; intros *; rewrite ?lookup_empty; discriminate.
Defined.

(** The effect "water": one technique, sorted by distance, whose two passes
    are on one shader with one define set. *)
Lemma X11_technique_passes_witness :
  let r := more_LoadEffect "water" Sample.defines_BC Sample.init in
  ∃ t tech,
    r.1 = Some t ∧ techniques r.2 !! t = Some tech ∧
    sortByDistance tech = true ∧
    Forall2 (sample_pass_of Sample.defines_BC r.2)
            [Sample.pass_plain; Sample.pass_depth_test] (passes tech) ∧
    ∀ p1 p2, passes tech !! 0%nat = Some p1 → passes tech !! 1%nat = Some p2 →
             shader p1 = shader p2.
Proof.
  intros r.
  destruct (X11_technique_passes
    Sample.token Sample.token Sample.token Sample.token Sample.token
     Sample.token Sample.token Sample.ToInt Sample.ParseString
     Sample.RED Sample.GREEN Sample.BLUE Sample.ALPHA Sample.defaultDesc
     Sample.g_VFS_more Sample.ValidateEncoded Sample.TestConditional Sample.ToInt
     Sample.STREAM_POS Sample.STREAM_NORMAL Sample.STREAM_COLOR Sample.STREAM_UV0
     Sample.STREAM_UV1 Sample.STREAM_UV2 Sample.STREAM_UV3 false GL false
     Sample.GetFileDependencies
    "water" Sample.defines_BC Sample.init Sample.effect_water
    Sample.technique_water [] [] eq_refl eq_refl eq_refl)
    as (t & tech & H1 & H2 & H3 & H4 & H5).
  - constructor.
  - reflexivity.
  - exists t, tech.
    split; [exact H1|]. split; [exact H2|]. split; [exact H3|].
    split; [exact H4|].
    intros p1 p2 Hp1 Hp2.
    exact (H5 0%nat 1%nat Sample.pass_plain Sample.pass_depth_test p1 p2
              eq_refl Hp1 eq_refl Hp2 eq_refl).
Defined.

(** The effect "three" with none of its conditions defined. *)
Lemma X12_failed_effect_loads_nothing_witness :
  let r := sample_LoadEffect "three" ∅ Sample.init in
  r.1 = None ∧ programs r.2 = [] ∧ m_ProgramCache r.2 = ∅ ∧
  m_HotloadFiles r.2 = ∅ ∧
  errors_of (trace r.2) = [EvLOGERROR "Failed to load effect 'three'"].
Proof.
  intros r.
  destruct (X12_failed_effect_loads_nothing
    Sample.token Sample.token Sample.token Sample.token Sample.token
     Sample.token Sample.token Sample.ToInt Sample.ParseString
     Sample.RED Sample.GREEN Sample.BLUE Sample.ALPHA Sample.defaultDesc
     Sample.g_VFS Sample.ValidateEncoded Sample.TestConditional Sample.ToInt
     Sample.STREAM_POS Sample.STREAM_NORMAL Sample.STREAM_COLOR Sample.STREAM_UV0
     Sample.STREAM_UV1 Sample.STREAM_UV2 Sample.STREAM_UV3 false GL false
     Sample.GetFileDependencies
    "three" ∅ Sample.init eq_refl)
    as (H1 & _ & H3 & H4 & H5 & H6).
  { right. exists Sample.effect_three. split; [reflexivity|].
    repeat constructor. }
  split; [exact H1|]. split; [exact H3|]. split; [exact H4|].
  split; [exact H5|exact H6].
Defined.

(** The technique of "water" on the backend GL: it requires the glsl
    shaders and a context that holds. *)
Lemma X13_requirements_witness :
  existsb (requires "arb") (GetChildNodes Sample.technique_water) = false ∧
  Sample.TestConditional Sample.defines_BC "USE_B" = true.
Proof.
  destruct (X13_requirements Sample.TestConditional GL false
              Sample.defines_BC Sample.technique_water eq_refl)
    as (_ & _ & H3 & H4).
  split; [reflexivity|].
  destruct (H4 (MkElement "require" [("context", "USE_B")] []))
    as [H|H]; [|reflexivity|reflexivity|reflexivity| |exact H].
  - apply list_elem_of_further, list_elem_of_here.
  - discriminate H.
Defined.

(** A pass that blends and tests the stencil, over the sample default. *)
Lemma X14_faces_agree_witness :
  symmetric (passPipelineStateDesc
               (sample_BuildPass ∅ Sample.pass_blend_stencil)).
Proof.
  apply (X14_faces_agree
    Sample.token Sample.token Sample.token Sample.token Sample.token
     Sample.token Sample.token Sample.ToInt Sample.ParseString
     Sample.RED Sample.GREEN Sample.BLUE Sample.ALPHA Sample.defaultDesc
    ∅ Sample.pass_blend_stencil).
  unfold symmetric. cbn. repeat split.
Defined.

(** A stencil element twice. *)
Lemma X16_element_idempotent_witness :
  sample_PassElement Sample.stencil_upper
    (sample_PassElement Sample.stencil_upper (sample_PassInit ∅))
  = sample_PassElement Sample.stencil_upper (sample_PassInit ∅).
Proof.
  apply (X16_element_idempotent
    Sample.token Sample.token Sample.token Sample.token Sample.token
     Sample.token Sample.token Sample.ToInt Sample.ParseString
     Sample.RED Sample.GREEN Sample.BLUE Sample.ALPHA).
  reflexivity.
Defined.

Abbreviation sample_loaded_as :=
  (loaded_as (BlendFactor:=string) (BlendOp:=string) (CullMode:=string)
     (FrontFace:=string) (PolygonMode:=string) (CompareOp:=string)
     (StencilOp:=string) (CColor:=string)
     Sample.g_VFS Sample.ValidateEncoded Sample.TestConditional Sample.ToInt
     Sample.STREAM_POS Sample.STREAM_NORMAL Sample.STREAM_COLOR Sample.STREAM_UV0
     Sample.STREAM_UV1 Sample.STREAM_UV2 Sample.STREAM_UV3 false).

(** After the effect "three" was loaded, the program "shadow" comes from the
    cache, and is the one its description gives. *)
Lemma X19_cache_coherent_witness :
  let w := sample_run [CallLoadEffect "three" Sample.defines_BC;
                       CallLoadProgram "nothing" ∅] Sample.init in
  let r := sample_LoadProgram "shadow" Sample.defines_BC w in
  sample_loaded_as r.2
    {| ck_name := "shadow"; ck_defines := Sample.defines_BC |} r.1.
Proof.
  intros w r.
  destruct (X19_cache_coherent
    Sample.token Sample.token Sample.token Sample.token Sample.token
     Sample.token Sample.token Sample.ToInt Sample.ParseString
     Sample.RED Sample.GREEN Sample.BLUE Sample.ALPHA Sample.defaultDesc
     Sample.g_VFS Sample.ValidateEncoded Sample.TestConditional Sample.ToInt
     Sample.STREAM_POS Sample.STREAM_NORMAL Sample.STREAM_COLOR Sample.STREAM_UV0
     Sample.STREAM_UV1 Sample.STREAM_UV2 Sample.STREAM_UV3 false GL false
     Sample.GetFileDependencies
    [CallLoadEffect "three" Sample.defines_BC; CallLoadProgram "nothing" ∅]
    Sample.init) as [_ H].
  { intros key second Hk. simpl in Hk. rewrite lookup_empty in Hk.
    discriminate Hk. }
  exact (H "shadow" Sample.defines_BC).
Defined.

Arguments Returns {_ _ _ _ _ _ _ _ A} a w.
Arguments Aborts {_ _ _ _ _ _ _ _ A} diagnostic before.

Abbreviation gles_LoadProgram :=
  (LoadProgram (BlendFactor:=string) (BlendOp:=string) (CullMode:=string)
     (FrontFace:=string) (PolygonMode:=string) (CompareOp:=string)
     (StencilOp:=string) (CColor:=string)
     Sample.g_VFS_ramp Sample.ValidateEncoded Sample.TestConditional Sample.ToInt
     Sample.STREAM_POS Sample.STREAM_NORMAL Sample.STREAM_COLOR Sample.STREAM_UV0
     Sample.STREAM_UV1 Sample.STREAM_UV2 Sample.STREAM_UV3 true
     Sample.GetFileDependencies).

(** Defines and passes interleaved: the pass that defines MODE is resolved
    with its own value, the other pass with the value of the technique, and
    both with FOG, which the technique defines after them; the same
    candidate with the defines first is built in the same way. *)
Lemma C3_define_layering_witness :
  let T := MkElement "technique" [] Sample.children_interleaved in
  let T' := MkElement "technique" [] Sample.children_defines_first in
  let techDefines := AddAll (define_pairs (GetChildNodes T)) ∅ in
  let resolved := λ Child,
    AddAll (define_pairs (GetChildNodes Child)) techDefines in
  let r := sample_LoadEffect "layers" ∅ Sample.init in
  (∃ t tech,
     r.1 = Some t ∧ techniques r.2 !! t = Some tech ∧
     Forall2
       (λ Child pass,
          m_ProgramCache r.2
            !! {| ck_name := GetNamedItem (GetAttributes Child) "shader";
                  ck_defines := resolved Child |}
          = Some (shader pass))
       [Sample.pass_override; Sample.pass_plain] (passes tech)) ∧
  resolved Sample.pass_override !! "MODE" = Some "pass" ∧
  resolved Sample.pass_plain !! "MODE" = Some "tech" ∧
  resolved Sample.pass_override !! "FOG" = Some "1" ∧
  ∀ tech w',
    sample_BuildTechnique ∅ tech T' w' = sample_BuildTechnique ∅ tech T w'.
Proof.
  intros T T' techDefines resolved r.
  destruct (C3_define_layering
    Sample.token Sample.token Sample.token Sample.token Sample.token
     Sample.token Sample.token Sample.ToInt Sample.ParseString
     Sample.RED Sample.GREEN Sample.BLUE Sample.ALPHA Sample.defaultDesc
     Sample.g_VFS Sample.ValidateEncoded Sample.TestConditional Sample.ToInt
     Sample.STREAM_POS Sample.STREAM_NORMAL Sample.STREAM_COLOR Sample.STREAM_UV0
     Sample.STREAM_UV1 Sample.STREAM_UV2 Sample.STREAM_UV3 false GL false
     Sample.GetFileDependencies
    "layers" ∅ Sample.init Sample.effect_layers T [] []
    eq_refl eq_refl eq_refl (Forall_nil_2 _) eq_refl)
    as (_ & Htech & Hpass & Hbuilt & Horder).
  split; [exact Hbuilt|].
  split; [exact (proj2 (Hpass Sample.pass_override) "MODE")|].
  split.
  { etrans; [exact (proj2 (Hpass Sample.pass_plain) "MODE")|].
    exact (Htech "MODE"). }
  split.
  { etrans; [exact (proj2 (Hpass Sample.pass_override) "FOG")|].
    exact (Htech "FOG"). }
  exact (proj2 (Horder T' eq_refl eq_refl eq_refl)).
Defined.




(** A pass whose blend constant parses logs nothing; one whose blend
    constant does not parse logs the failure. *)
Lemma X15_pass_errors_witness :
  passLog (sample_PassElements
             [MkElement "blend" [("src", "one"); ("constant", "1 0 0 1")] []]
             (sample_PassInit ∅)) = [] ∧
  "Failed to parse blend constant: bad"
  ∈ passLog (sample_PassElements
               [MkElement "depth" [("test", "TRUE")] [];
                MkElement "blend" [("src", "one"); ("constant", "bad")] []]
               (sample_PassInit ∅)).
Proof.
  split.
  - destruct (X15_pass_errors
      Sample.token Sample.token Sample.token Sample.token Sample.token
     Sample.token Sample.token Sample.ToInt Sample.ParseString
     Sample.RED Sample.GREEN Sample.BLUE Sample.ALPHA
      [MkElement "blend" [("src", "one"); ("constant", "1 0 0 1")] []]
      (sample_PassInit ∅)) as (_ & _ & _ & _ & Hparse & _).
    apply Hparse. constructor; [|constructor].
    intros _ c'. reflexivity.
  - destruct (X15_pass_errors
      Sample.token Sample.token Sample.token Sample.token Sample.token
     Sample.token Sample.token Sample.ToInt Sample.ParseString
     Sample.RED Sample.GREEN Sample.BLUE Sample.ALPHA
      [MkElement "depth" [("test", "TRUE")] [];
       MkElement "blend" [("src", "one"); ("constant", "bad")] []]
      (sample_PassInit ∅)) as (_ & _ & _ & _ & _ & Hfail).
    apply (Hfail [MkElement "depth" [("test", "TRUE")] []]
                 (MkElement "blend" [("src", "one"); ("constant", "bad")] [])
                 [] eq_refl eq_refl).
    intros c'. reflexivity.
Defined.
